(** * sqlite-wrapper: the statement library and the database handler

    A shallow embedding of [wrapper/statement.py] and [wrapper/sqlite.py].

    - Python values, [str()] and [repr()], tuples and insertion-ordered
      dictionaries are modelled first, since every statement the wrapper
      sends to the engine is assembled with f-strings over them.
    - The statement builders of [statement.py] are memoised with
      [functools.cache]; each builder is a state-passing function over its
      own memo table.
    - The handler of [sqlite.py] runs in a state-and-exception monad over a
      world made of the file system and the trace of engine calls.  The SQL
      engine itself is a parameter of the development. *)

From Stdlib Require Import String Ascii ZArith List Lia DecimalString.
From stdpp Require Import gmap strings list fin_maps sets.

Local Open Scope Z_scope.

(** ** Python strings

    A Python [str] is a sequence of code points; the embedding covers the
    code points below 256, one per [ascii]. *)

Module Py.

Definition squote : ascii := ascii_of_N 39.
Definition dquote : ascii := ascii_of_N 34.
Definition backslash : ascii := ascii_of_N 92.

Definition char (c : ascii) : string := String c EmptyString.

(** [sep.join(items)] *)
Definition join (sep : string) (items : list string) : string :=
  String.concat sep items.

Fixpoint contains (c : ascii) (s : string) : bool :=
  match s with
  | EmptyString => false
  | String d s' => Ascii.eqb c d || contains c s'
  end.

Definition hex_digit (n : N) : ascii :=
  if (n <? 10)%N then ascii_of_N (48 + n) else ascii_of_N (87 + n).

(** [\xNN] with two lower-case hexadecimal digits. *)
Definition hex_escape (c : ascii) : string :=
  let n := N_of_ascii c in
  String backslash (String "x" (String (hex_digit (n / 16)) (char (hex_digit (n mod 16))))).

(** [Py_UNICODE_ISPRINTABLE] on the code points 128..255: the C1 controls, the
    no-break space and the soft hyphen are not printable. *)
Definition latin1_printable (n : N) : bool :=
  negb ((n <=? 160)%N || (n =? 173)%N).

(** One character of [repr(str)], for the chosen quote. *)
Definition repr_char (quote c : ascii) : string :=
  let n := N_of_ascii c in
  if Ascii.eqb c quote || Ascii.eqb c backslash then String backslash (char c)
  else if (n =? 9)%N then String backslash "t"
  else if (n =? 10)%N then String backslash "n"
  else if (n =? 13)%N then String backslash "r"
  else if (n <? 32)%N || (n =? 127)%N then hex_escape c
  else if (n <? 127)%N then char c
  else if latin1_printable n then char c
  else hex_escape c.

Fixpoint repr_chars (quote : ascii) (s : string) : string :=
  match s with
  | EmptyString => EmptyString
  | String c s' => repr_char quote c +:+ repr_chars quote s'
  end.

(** [repr(s)] for a string: single quotes, unless the text has a single
    quote and no double quote. *)
Definition repr_quote (s : string) : ascii :=
  if contains squote s && negb (contains dquote s) then dquote else squote.

Definition repr_str (s : string) : string :=
  let q := repr_quote s in
  String q (repr_chars q s +:+ char q).

(** A text [repr] leaves as it is between single quotes: printable ASCII
    with no quote and no backslash. *)
Definition plain_char (c : ascii) : bool :=
  let n := N_of_ascii c in
  (32 <=? n)%N && (n <? 127)%N && negb (n =? 39)%N && negb (n =? 34)%N &&
  negb (n =? 92)%N.

Fixpoint plain (s : string) : bool :=
  match s with
  | EmptyString => true
  | String c s' => plain_char c && plain s'
  end.

(** [str(n)] for an integer. *)
Definition dec (z : Z) : string := NilZero.string_of_int (Z.to_int z).

(** ** Python values

    The scalars the wrapper is given as operands and column values.  A
    floating-point number is covered at integral values of magnitude below
    [10^16] only, where [repr] prints the integer followed by [.0];
    [VFloat z] is the float of value [z]. *)
Inductive value : Type :=
  | VNone
  | VBool (b : bool)
  | VInt (z : Z)
  | VFloat (z : Z)
  | VStr (s : string).

(** [str(v)], which is what [f"{v}"] interpolates. *)
Definition str (v : value) : string :=
  match v with
  | VNone => "None"
  | VBool true => "True"
  | VBool false => "False"
  | VInt z => dec z
  | VFloat z => dec z +:+ ".0"
  | VStr s => s
  end.

(** [repr(v)], which is what the [repr] of a tuple uses for its items. *)
Definition repr (v : value) : string :=
  match v with
  | VStr s => repr_str s
  | _ => str v
  end.

(** [bool(v)] *)
Definition truthy (v : value) : bool :=
  match v with
  | VNone => false
  | VBool b => b
  | VInt z | VFloat z => negb (z =? 0)
  | VStr s => negb (String.eqb s "")
  end.

(** The numeric value of a number, for [==] across [bool], [int] and
    [float]. *)
Definition number (v : value) : option Z :=
  match v with
  | VBool b => Some (if b then 1 else 0)
  | VInt z | VFloat z => Some z
  | _ => None
  end.

(** [a == b] *)
Definition eq (a b : value) : bool :=
  match a, b with
  | VNone, VNone => true
  | VStr s, VStr t => String.eqb s t
  | _, _ =>
      match number a, number b with
      | Some x, Some y => x =? y
      | _, _ => false
      end
  end.

(** [repr] of a tuple whose items have the given [repr]s: a tuple of one
    item carries a trailing comma. *)
Definition repr_tuple (items : list string) : string :=
  match items with
  | [] => "()"
  | [x] => "(" +:+ x +:+ ",)"
  | _ => "(" +:+ join ", " items +:+ ")"
  end.

(** An insertion-ordered [dict] with string keys. *)
Definition dict (V : Type) : Type := list (string * V).

Definition keys {V} (d : dict V) : list string := map fst d.
Definition values {V} (d : dict V) : list V := map snd d.

(** [d[key]] *)
Fixpoint getitem {V} (d : dict V) (key : string) : option V :=
  match d with
  | [] => None
  | (k, v) :: d' => if String.eqb k key then Some v else getitem d' key
  end.

(** A parameter annotated [T | list[T]] or [T | Sequence[T]]. *)
Inductive one_or_many (A : Type) : Type :=
  | One (x : A)
  | Many (xs : list A).
Arguments One {A} x.
Arguments Many {A} xs.

End Py.

Export Py (value(..), one_or_many(..)).

(** ** [functools.cache]

    [cache] is [lru_cache(maxsize=None)] with [typed=False]: an unbounded
    dictionary from call keys to results.  Keys are compared as dictionary
    keys are, with [==], so [1], [1.0] and [True] inside an argument tuple
    are one key. *)

Module Memo.

(** The key of a call ([lru_cache_make_key]): the argument tuple, followed,
    when keywords are passed, by a marker and the keyword items; a single
    positional argument that is exactly an [int] or a [str] is its own key. *)
Inductive key : Type :=
  | KScalar (v : value)
  | KArgs (args : list value) (kwds : list (string * value)).

Definition exact_int_or_str (v : value) : bool :=
  match v with
  | VInt _ | VStr _ => true
  | _ => false
  end.

Definition make_key (args : list value) (kwds : list (string * value)) : key :=
  match kwds, args with
  | [], [v] => if exact_int_or_str v then KScalar v else KArgs args kwds
  | _, _ => KArgs args kwds
  end.

Fixpoint all2 {A} (f : A -> A -> bool) (l1 l2 : list A) : bool :=
  match l1, l2 with
  | [], [] => true
  | x :: l1', y :: l2' => f x y && all2 f l1' l2'
  | _, _ => false
  end.

Definition kwd_eq (a b : string * value) : bool :=
  String.eqb (fst a) (fst b) && Py.eq (snd a) (snd b).

(** Equality of two keys as the dictionary sees it. *)
Definition key_eq (k1 k2 : key) : bool :=
  match k1, k2 with
  | KScalar a, KScalar b => Py.eq a b
  | KArgs a ka, KArgs b kb => all2 Py.eq a b && all2 kwd_eq ka kb
  | _, _ => false
  end.

(** The memo table of one decorated function, oldest entry first. *)
Definition cache : Type := list (key * string).

Fixpoint cache_get (k : key) (c : cache) : option string :=
  match c with
  | [] => None
  | (k', r) :: c' => if key_eq k' k then Some r else cache_get k c'
  end.

(** A call of a decorated function: answer from the table on a hit, run the
    body and record its result on a miss. *)
Definition cached (k : key) (body : string) (c : cache) : string * cache :=
  match cache_get k c with
  | Some r => (r, c)
  | None => (body, c ++ [(k, body)])
  end.

(** The table after a run of further calls, each given by its key and the
    text its body would compute. *)
Definition run_calls (calls : list (key * string)) (c : cache) : cache :=
  fold_left (fun c call => snd (cached (fst call) (snd call) c)) calls c.

(** How a call passes the optional [negate] parameter. *)
Inductive flag : Type :=
  | Omitted
  | Positional (b : bool)
  | Keyword (b : bool).

Definition flag_value (f : flag) : bool :=
  match f with
  | Omitted => false
  | Positional b | Keyword b => b
  end.

Definition flag_args (f : flag) : list value :=
  match f with
  | Positional b => [VBool b]
  | _ => []
  end.

Definition flag_kwds (f : flag) : list (string * value) :=
  match f with
  | Keyword b => [("negate", VBool b)]
  | _ => []
  end.

End Memo.

(** ** [wrapper/statement.py]

    Operands are passed positionally.  Each builder has a body, the
    f-string of the source, and the decorated function, which threads the
    builder's own memo table. *)

Module Statement.
Import Memo.

Definition quoted (v : value) : string := "'" +:+ Py.str v +:+ "'".

Definition not_ (negate : bool) : string := if negate then "NOT " else "".

Definition val_eq_body (val : value) : string := "== " +:+ quoted val.
Definition val_neq_body (val : value) : string := "!= " +:+ quoted val.
Definition val_lt_body (val : value) : string := "< " +:+ quoted val.
Definition val_gt_body (val : value) : string := "> " +:+ quoted val.
Definition val_lte_body (val : value) : string := "<= " +:+ quoted val.
Definition val_gte_body (val : value) : string := ">= " +:+ quoted val.

Definition val_in_body (args : list value) (negate : bool) : string :=
  not_ negate +:+ "IN " +:+ Py.repr_tuple (map Py.repr args).

Definition val_btw_body (lower upper : value) (negate : bool) : string :=
  not_ negate +:+ "BETWEEN " +:+ quoted lower +:+ " AND " +:+ quoted upper.

Definition val_like_body (pattern : value) (negate : bool) : string :=
  not_ negate +:+ "LIKE " +:+ quoted pattern.

Definition val_null_body (negate : bool) : string :=
  "IS " +:+ not_ negate +:+ "NULL".

Definition val_eq (val : value) : cache -> string * cache :=
  cached (make_key [val] []) (val_eq_body val).

Definition val_neq (val : value) : cache -> string * cache :=
  cached (make_key [val] []) (val_neq_body val).

Definition val_lt (val : value) : cache -> string * cache :=
  cached (make_key [val] []) (val_lt_body val).

Definition val_gt (val : value) : cache -> string * cache :=
  cached (make_key [val] []) (val_gt_body val).

Definition val_lte (val : value) : cache -> string * cache :=
  cached (make_key [val] []) (val_lte_body val).

Definition val_gte (val : value) : cache -> string * cache :=
  cached (make_key [val] []) (val_gte_body val).

(** [negate] is keyword-only here: [None] when the call leaves it out. *)
Definition val_in_key (args : list value) (negate : option bool) : key :=
  make_key args (match negate with
                 | Some b => [("negate", VBool b)]
                 | None => []
                 end).

Definition val_in (args : list value) (negate : option bool) : cache -> string * cache :=
  cached (val_in_key args negate) (val_in_body args (default false negate)).

Definition val_btw (lower upper : value) (negate : flag) : cache -> string * cache :=
  cached (make_key ([lower; upper] ++ flag_args negate) (flag_kwds negate))
         (val_btw_body lower upper (flag_value negate)).

Definition val_like (pattern : value) (negate : flag) : cache -> string * cache :=
  cached (make_key ([pattern] ++ flag_args negate) (flag_kwds negate))
         (val_like_body pattern (flag_value negate)).

Definition val_null (negate : flag) : cache -> string * cache :=
  cached (make_key (flag_args negate) (flag_kwds negate))
         (val_null_body (flag_value negate)).

(** The shape of the six one-operand builders. *)
Definition one_operand (body : value -> string) (val : value)
    : cache -> string * cache :=
  cached (make_key [val] []) (body val).

(** A table whose entries were all made by calls of one one-operand
    builder. *)
Definition made_by (body : value -> string) (c : cache) : Prop :=
  forall k r, In (k, r) c -> exists u, k = make_key [u] [] /\ r = body u.

(** A table whose entries were all made by calls of [val_in]. *)
Definition made_by_val_in (c : cache) : Prop :=
  forall k r, In (k, r) c ->
    exists args negate, k = val_in_key args negate /\
                        r = val_in_body args (default false negate).

(** The memo table of a one-operand builder after a run of calls, given
    by their operands, from a table [c]. *)
Definition calls_from (f : value -> cache -> string * cache) (c : cache)
    (vals : list value) : cache :=
  fold_left (fun c v => snd (f v c)) vals c.

(** The memo table of [val_in] after a run of calls from a table [c]. *)
Definition val_in_calls_from (c : cache) (calls : list (list value * option bool))
    : cache :=
  fold_left (fun c call => snd (val_in (fst call) (snd call) c)) calls c.

(** The memo table of any builder after a run of calls, given by their
    arguments, from a table [c]. *)
Definition calls_of {A} (f : A -> cache -> string * cache) (c : cache)
    (calls : list A) : cache :=
  fold_left (fun c a => snd (f a c)) calls c.

Definition is_str (v : value) : bool :=
  match v with
  | VStr _ => true
  | _ => false
  end.

(** The membership text as the specification words it:
    [[NOT ]IN (v1, v2, ...)], whatever the number of values. *)
Definition spec_val_in (args : list value) (negate : bool) : string :=
  not_ negate +:+ "IN (" +:+ Py.join ", " (map Py.repr args) +:+ ")".

End Statement.

(** ** Paths and files

    A path is the directory it lies in and its final component, as
    [pathlib] splits it. *)

Record Path : Type := mkPath { parent : string; name : string }.

#[global] Instance Path_eq_dec : EqDecision Path.
Proof. solve_decision. Defined.

#[global] Instance Path_countable : Countable Path :=
  inj_countable' (fun p => (parent p, name p)) (fun q => mkPath (fst q) (snd q))
                 (fun p => match p with mkPath _ _ => eq_refl end).

Module PathLib.

(** [name.rfind(".")] *)
Fixpoint rfind (c : ascii) (s : string) : option nat :=
  match s with
  | EmptyString => None
  | String d s' =>
      match rfind c s' with
      | Some i => Some (S i)
      | None => if Ascii.eqb c d then Some O else None
      end
  end.

Fixpoint take (n : nat) (s : string) : string :=
  match n, s with
  | S n', String c s' => String c (take n' s')
  | _, _ => EmptyString
  end.

Fixpoint drop (n : nat) (s : string) : string :=
  match n, s with
  | S n', String _ s' => drop n' s'
  | _, _ => s
  end.

(** The index at which the suffix starts: the last dot, when it is neither
    the first nor the last character of the name. *)
Definition suffix_at (nm : string) : option nat :=
  match rfind "." nm with
  | Some i =>
      if (0 <? i)%nat && (i <? String.length nm - 1)%nat then Some i else None
  | None => None
  end.

(** [path.suffix] *)
Definition suffix (p : Path) : string :=
  match suffix_at (name p) with
  | Some i => drop i (name p)
  | None => ""
  end.

(** [path.stem] *)
Definition stem (p : Path) : string :=
  match suffix_at (name p) with
  | Some i => take i (name p)
  | None => name p
  end.

(** The match of one path component against a glob pattern: [*] stands for
    any run of characters and [?] for any one.  Character classes, and the
    [ValueError] of a doubled star inside a component, are not modelled: the
    match is that of [Path.glob] for patterns built from a literal name, and
    the properties of the backups are stated for such names. *)
Fixpoint fnmatch (pat nm : string) : bool :=
  match pat with
  | EmptyString =>
      match nm with
      | EmptyString => true
      | String _ _ => false
      end
  | String c pat' =>
      if Ascii.eqb c "*" then
        (fix star (n : string) : bool :=
           fnmatch pat' n ||
           match n with
           | EmptyString => false
           | String _ n' => star n'
           end) nm
      else
        match nm with
        | EmptyString => false
        | String d nm' => (Ascii.eqb c "?" || Ascii.eqb c d) && fnmatch pat' nm'
        end
  end.

(** A name that holds none of the characters a glob pattern gives a meaning
    to. *)
Definition glob_literal (s : string) : bool :=
  negb (Py.contains "*" s) && negb (Py.contains "?" s) && negb (Py.contains "[" s).

(** The number of occurrences of a character in a text. *)
Fixpoint count_char (c : ascii) (s : string) : nat :=
  match s with
  | EmptyString => O
  | String d s' => ((if Ascii.eqb c d then 1 else 0) + count_char c s')%nat
  end.

(** The order of two paths of one directory: that of their names, code
    point by code point. *)
Definition leb (p q : Path) : bool := String.leb (name p) (name q).

Fixpoint insert_sorted (p : Path) (l : list Path) : list Path :=
  match l with
  | [] => [p]
  | q :: l' => if leb p q then p :: l else q :: insert_sorted p l'
  end.

(** [sorted(paths)] *)
Fixpoint sorted (l : list Path) : list Path :=
  match l with
  | [] => []
  | p :: l' => insert_sorted p (sorted l')
  end.

End PathLib.

(** File modes ([stat.S_IFMT] and friends). *)
Definition S_IFMT : Z := 61440.   (* 0o170000 *)
Definition S_IFDIR : Z := 16384.  (* 0o040000 *)
Definition S_IFREG : Z := 32768.  (* 0o100000 *)

Definition S_ISDIR (mode : Z) : bool := Z.land mode S_IFMT =? S_IFDIR.
Definition S_ISREG (mode : Z) : bool := Z.land mode S_IFMT =? S_IFREG.

(** The permission bits of a mode ([stat.S_IMODE]). *)
Definition S_IMODE (mode : Z) : Z := Z.land mode 4095.  (* 0o7777 *)

(** A file system entry: its [st_mode] and, for a database file, the
    database image it holds. *)
Record file (Content : Type) : Type := mkFile { st_mode : Z; data : Content }.
Arguments mkFile {Content} st_mode data.
Arguments st_mode {Content} f.
Arguments data {Content} f.

(** A result row. *)
Definition Row : Type := Py.dict value.
Definition Query : Type := list Row.

(** The SQL engine: what a statement does to a database image and the rows
    it yields ([None] when the engine raises), and what commit and rollback
    do to an image. *)
Record Engine (Content : Type) : Type := mkEngine {
  eng_empty : Content;
  eng_exec : Content -> string -> option (Content * Query);
  eng_commit : Content -> Content;
  eng_rollback : Content -> Content
}.
Arguments mkEngine {Content} eng_empty eng_exec eng_commit eng_rollback.
Arguments eng_empty {Content} e.
Arguments eng_exec {Content} e c sql.
Arguments eng_commit {Content} e c.
Arguments eng_rollback {Content} e c.

(** The calls into the engine, in the order they are made. *)
Inductive event : Type :=
  | EvConnect (p : Path)
  | EvExecute (p : Path) (sql : string)
  | EvCommit (p : Path)
  | EvRollback (p : Path)
  | EvClose (p : Path)
  | EvBackup (src dst : Path).

(** The world the handler runs in: the file system, the umask of the
    process, the reading of [datetime.now().strftime("%Y%m%d_%H%M%S_%f")],
    and the trace of engine calls so far. *)
Record world (Content : Type) : Type := mkWorld {
  fs : gmap Path (file Content);
  umask : Z;
  clock : string;
  trace : list event
}.
Arguments mkWorld {Content} fs umask clock trace.
Arguments fs {Content} w.
Arguments umask {Content} w.
Arguments clock {Content} w.
Arguments trace {Content} w.

Inductive exn : Type :=
  | IndexError
  | FileNotFoundError
  | PermissionError
  | IsADirectoryError
  | NotADirectoryError
  | OverflowError
  | OperationalError.

Inductive result (A : Type) : Type :=
  | Ok (a : A)
  | Raise (e : exn).
Arguments Ok {A} a.
Arguments Raise {A} e.

(** Handler configuration (the frozen dataclass). *)
Record Handler : Type := mkHandler {
  database : Path;
  schema : Path;
  backups : Z;
  threshold : Z
}.

(** ** [wrapper/sqlite.py]: statement assembly *)

Definition Select : Type := option (list string).
Definition Where : Type := option (Py.dict string).
Definition Pair : Type := Py.dict value.

Inductive OrderVal : Type :=
  | ASC
  | DESC
  | ASC_NULLS_LAST
  | DESC_NULLS_FIRST.

Definition OrderVal_str (o : OrderVal) : string :=
  match o with
  | ASC => "ASC"
  | DESC => "DESC"
  | ASC_NULLS_LAST => "ASC NULLS LAST"
  | DESC_NULLS_FIRST => "DESC NULLS FIRST"
  end.

Definition Order : Type := option (Py.dict OrderVal).

(** The truth value of an optional container: [None] and the empty
    container are falsy. *)
Definition nonempty {A} (o : option (list A)) : bool :=
  match o with
  | Some (_ :: _) => true
  | _ => false
  end.

Definition _sql_select (select : Select) : string :=
  if nonempty select then Py.join ", " (default [] select) else "*".

Definition _sql_join (tables : one_or_many string) : string :=
  match tables with
  | Many l => Py.join " NATURAL JOIN " l
  | One t => t
  end.

Definition _sql_where (where_ : Where) : string :=
  if nonempty where_ then
    let w := default [] where_ in
    "WHERE " +:+
    Py.join " AND " (map (fun key => key +:+ " " +:+ default "" (Py.getitem w key))
                         (Py.keys w))
  else "".

Definition _sql_order (order : Order) : string :=
  if nonempty order then
    let o := default [] order in
    "ORDER BY " +:+
    Py.join "," (map (fun key => key +:+ " " +:+
                                 default "" (OrderVal_str <$> Py.getitem o key))
                     (Py.keys o))
  else "".

Definition _sql_ignore (ignore : bool) : string :=
  if ignore then "OR IGNORE " else "".

(** [tuple(data.keys())] and [tuple(data.values())], interpolated. *)
Definition keys_tuple (data : Pair) : string :=
  Py.repr_tuple (map Py.repr_str (Py.keys data)).

Definition values_tuple (data : Pair) : string :=
  Py.repr_tuple (map Py.repr (Py.values data)).

Definition _row_insert (data : Pair) (ignore : bool) (table : string) : string :=
  "INSERT " +:+ _sql_ignore ignore +:+ "INTO " +:+ table +:+ " " +:+
  keys_tuple data +:+ " VALUES " +:+ values_tuple data +:+ ";".

Definition row_update_sql (table : string) (data : Pair) (where_ : Where) : string :=
  "UPDATE " +:+ table +:+ " SET " +:+ keys_tuple data +:+ " = " +:+
  values_tuple data +:+ " " +:+ _sql_where where_ +:+ ";".

Definition row_delete_sql (table : string) (where_ : Where) : string :=
  "DELETE FROM " +:+ table +:+ " " +:+ _sql_where where_ +:+ ";".

Definition _table_drop (table : string) : string :=
  "DROP TABLE IF EXISTS " +:+ table +:+ ";".

Definition _col_default (dflt : value) : string :=
  if Py.truthy dflt then "DEFAULT " +:+ Py.str dflt else "".

(** [s.upper()], on the letters a..z; SQL type names are ASCII. *)
Definition upper_char (c : ascii) : ascii :=
  let n := N_of_ascii c in
  if (97 <=? n)%N && (n <=? 122)%N then ascii_of_N (n - 32) else c.

Fixpoint upper (s : string) : string :=
  match s with
  | EmptyString => EmptyString
  | String c s' => String (upper_char c) (upper s')
  end.

Definition col_create_sql (table col sql_type : string) (dflt : value) : string :=
  "ALTER TABLE " +:+ table +:+ " ADD COLUMN " +:+ col +:+ " " +:+
  upper sql_type +:+ " " +:+ _col_default dflt +:+ ";".

Definition sql_select (tables : one_or_many string) (select : Select)
    (where_ : Where) (order : Order) : string :=
  "SELECT " +:+ _sql_select select +:+ " FROM " +:+ _sql_join tables +:+ " " +:+
  _sql_where where_ +:+ " " +:+ _sql_order order +:+ ";".

(** The insert statement as the specification words it: the column names as
    a bare comma-separated list in parentheses, the values after them. *)
Definition spec_row_insert (data : Pair) (ignore : bool) (table : string) : string :=
  "INSERT " +:+ _sql_ignore ignore +:+ "INTO " +:+ table +:+
  " (" +:+ Py.join ", " (Py.keys data) +:+ ") VALUES (" +:+
  Py.join ", " (map Py.repr (Py.values data)) +:+ ");".

(** What the code renders for a mapping of two or more columns: each column
    name as a quoted string literal, as [repr] prints it. *)
Definition quoted_row_insert (data : Pair) (ignore : bool) (table : string) : string :=
  "INSERT " +:+ _sql_ignore ignore +:+ "INTO " +:+ table +:+
  " (" +:+ Py.join ", " (map Py.repr_str (Py.keys data)) +:+ ") VALUES (" +:+
  Py.join ", " (map Py.repr (Py.values data)) +:+ ");".

(** ** Result rows, [itertools.groupby] and dictionaries keyed by values

    A [sqlite3.Row] subscripted with a column name yields the value of the
    first column whose name equals it, or equals it up to the case of the
    letters A..Z when both names are ASCII.  [groupby] cuts a sequence into
    runs of consecutive items: an item joins the run as long as its key
    equals the key of the first item of the run.  A dictionary keeps its
    keys in the order they were first set; setting a key that equals one
    already there keeps the older key and replaces the value. *)

Module Rows.

Definition lower_char (c : ascii) : ascii :=
  let n := N_of_ascii c in
  if (65 <=? n)%N && (n <=? 90)%N then ascii_of_N (n + 32) else c.

Fixpoint lower (s : string) : string :=
  match s with
  | EmptyString => EmptyString
  | String c s' => String (lower_char c) (lower s')
  end.

Fixpoint isascii (s : string) : bool :=
  match s with
  | EmptyString => true
  | String c s' => (N_of_ascii c <? 128)%N && isascii s'
  end.

Definition equal_ignore_case (left right : string) : bool :=
  String.eqb left right ||
  (isascii left && isascii right && String.eqb (lower left) (lower right)).

(** [row[key]], [None] standing for the [IndexError] of a missing column. *)
Fixpoint getitem (row : Row) (key : string) : option value :=
  match row with
  | [] => None
  | (nm, v) :: row' => if equal_ignore_case key nm then Some v else getitem row' key
  end.

(** A dictionary whose keys are values. *)
Definition vdict (V : Type) : Type := list (value * V).

(** [d[k] = v] *)
Fixpoint setitem {V} (d : vdict V) (k : value) (v : V) : vdict V :=
  match d with
  | [] => [(k, v)]
  | (k', v') :: d' => if Py.eq k' k then (k', v) :: d' else (k', v') :: setitem d' k v
  end.

(** The runs of [groupby] over items paired with their keys, the current
    run being [group], opened with the key [tgtkey]. *)
Fixpoint groupby_from {A} (tgtkey : value) (group : list A) (items : list (value * A))
    : list (value * list A) :=
  match items with
  | [] => [(tgtkey, group)]
  | (currkey, x) :: rest =>
      if Py.eq tgtkey currkey then groupby_from tgtkey (group ++ [x]) rest
      else (tgtkey, group) :: groupby_from currkey [x] rest
  end.

Definition groupby {A} (items : list (value * A)) : list (value * list A) :=
  match items with
  | [] => []
  | (currkey, x) :: rest => groupby_from currkey [x] rest
  end.

(** No two keys of the dictionary are equal. *)
Definition fresh_key {V} (k : value) (d : vdict V) : Prop :=
  Forall (fun e => Py.eq (fst e) k = false) d.

Inductive distinct_keys {V} : vdict V -> Prop :=
  | distinct_nil : distinct_keys []
  | distinct_cons (k : value) (v : V) (d : vdict V) :
      fresh_key k d -> distinct_keys d -> distinct_keys ((k, v) :: d).

End Rows.

(** ** The handler's operations

    Every operation is a function from the world to a result, or a raised
    exception, and the world after it. *)

Section Operations.

Context {Content : Type} (engine : Engine Content).

Definition M (A : Type) : Type := world Content -> result A * world Content.

Definition ret {A} (a : A) : M A := fun w => (Ok a, w).

Definition raise {A} (e : exn) : M A := fun w => (Raise e, w).

Definition bind {A B} (m : M A) (k : A -> M B) : M B :=
  fun w =>
    match m w with
    | (Ok a, w') => k a w'
    | (Raise e, w') => (Raise e, w')
    end.

Notation "x <- m ;; k" := (bind m (fun x => k))
  (at level 100, m at next level, k at level 200, right associativity).
Notation "m ;;; k" := (bind m (fun _ => k))
  (at level 100, k at level 200, right associativity).

(** [try: body finally: cleanup] *)
Definition finally {A} (body : M A) (cleanup : M unit) : M A :=
  fun w =>
    match body w with
    | (r, w') =>
        match cleanup w' with
        | (Ok _, w'') => (r, w'')
        | (Raise e, w'') => (Raise e, w'')
        end
    end.

Fixpoint for_each {A} (l : list A) (body : A -> M unit) : M unit :=
  match l with
  | [] => ret tt
  | x :: l' => body x ;;; for_each l' body
  end.

Definition when (b : bool) (m : M unit) : M unit := if b then m else ret tt.

(** *** The file system *)

Definition log (ev : event) : M unit :=
  fun w => (Ok tt, mkWorld (fs w) (umask w) (clock w) (trace w ++ [ev])).

Definition set_fs (f : gmap Path (file Content)) : M unit :=
  fun w => (Ok tt, mkWorld f (umask w) (clock w) (trace w)).

Definition get_fs : M (gmap Path (file Content)) := fun w => (Ok (fs w), w).

(** [path.is_file()] *)
Definition is_file (p : Path) : M bool :=
  f <- get_fs ;;
  ret (match f !! p with
       | Some e => S_ISREG (st_mode e)
       | None => false
       end).

(** [path.stat().st_mode] *)
Definition stat_mode (p : Path) : M Z :=
  f <- get_fs ;;
  match f !! p with
  | Some e => ret (st_mode e)
  | None => raise FileNotFoundError
  end.

(** [path.unlink()] *)
Definition unlink (p : Path) : M unit :=
  f <- get_fs ;;
  match f !! p with
  | Some e => if S_ISDIR (st_mode e) then raise IsADirectoryError
              else set_fs (delete p f)
  | None => raise FileNotFoundError
  end.

(** [src.replace(dst)]: an atomic rename over the target. *)
Definition replace (src dst : Path) : M unit :=
  f <- get_fs ;;
  match f !! src with
  | None => raise FileNotFoundError
  | Some e =>
      match f !! dst with
      | Some t =>
          if S_ISDIR (st_mode t) && negb (S_ISDIR (st_mode e)) then raise IsADirectoryError
          else if negb (S_ISDIR (st_mode t)) && S_ISDIR (st_mode e) then raise NotADirectoryError
          else set_fs (<[dst := e]> (delete src f))
      | None => set_fs (<[dst := e]> (delete src f))
      end
  end.

(** [dir.glob(pattern)]: the entries of the directory whose name matches,
    in the order the directory is scanned. *)
Definition glob (dir pattern : string) : M (list Path) :=
  f <- get_fs ;;
  ret (elements (filter (fun p => parent p = dir /\ PathLib.fnmatch pattern (name p) = true)
                        (dom f))).

(** *** The engine *)

(** The mode of a file the engine creates: a regular file, [0o644] less the
    umask. *)
Definition created_mode (mask : Z) : Z :=
  Z.lor S_IFREG (Z.land 420 (Z.lnot mask)).

(** [sqlite3.connect(p)]: opens the database file and creates it when it is
    missing; a directory cannot be opened. *)
Definition connect (p : Path) : M Path :=
  log (EvConnect p) ;;;
  fun w =>
    match fs w !! p with
    | Some e =>
        if S_ISDIR (st_mode e) then (Raise OperationalError, w) else (Ok p, w)
    | None =>
        (Ok p, mkWorld (<[p := mkFile (created_mode (umask w)) (eng_empty engine)]> (fs w))
                       (umask w) (clock w) (trace w))
    end.

Definition close (conn : Path) : M unit := log (EvClose conn).

(** A change of the image held by the file of a connection. *)
Definition update_data (conn : Path) (g : Content -> Content) : M unit :=
  f <- get_fs ;;
  match f !! conn with
  | Some e => set_fs (<[conn := mkFile (st_mode e) (g (data e))]> f)
  | None => ret tt
  end.

(** [cursor.execute(sql)]: the rows the statement yields. *)
Definition execute (conn : Path) (sql : string) : M Query :=
  log (EvExecute conn sql) ;;;
  f <- get_fs ;;
  match f !! conn with
  | Some e =>
      match eng_exec engine (data e) sql with
      | Some (c, rows) => update_data conn (fun _ => c) ;;; ret rows
      | None => raise OperationalError
      end
  | None => raise OperationalError
  end.

Definition commit (conn : Path) : M unit :=
  log (EvCommit conn) ;;; update_data conn (eng_commit engine).

Definition rollback (conn : Path) : M unit :=
  log (EvRollback conn) ;;; update_data conn (eng_rollback engine).

(** [source.backup(target)]: the target file receives the image of the
    source. *)
Definition backup (src dst : Path) : M unit :=
  log (EvBackup src dst) ;;;
  f <- get_fs ;;
  match f !! src with
  | Some e => update_data dst (fun _ => data e)
  | None => raise OperationalError
  end.

(** [with closing(sqlite3.connect(p)) as conn: body] *)
Definition closing {A} (p : Path) (body : Path -> M A) : M A :=
  conn <- connect p ;; finally (body conn) (close conn).

(** [with conn: body]: commit when the body returns, roll back when it
    raises. *)
Definition transaction {A} (conn : Path) (body : M A) : M A :=
  fun w =>
    match body w with
    | (Ok a, w') => (commit conn ;;; ret a) w'
    | (Raise e, w') => (rollback conn ;;; raise e) w'
    end.

(** *** Connections, statements and queries *)

Definition __database (h : Handler) : Path := database h.

Definition __backups (h : Handler) : Z := Z.abs (backups h).

Definition pragmas : list string :=
  ["PRAGMA foreign_keys = ON;"; "PRAGMA journal_mode = WAL;";
   "PRAGMA synchronous = NORMAL;"].

Definition _conn_run (conn : Path) : M unit :=
  for_each pragmas (fun sql => execute conn sql ;;; ret tt).

Definition as_list {A} (x : one_or_many A) : list A :=
  match x with
  | One a => [a]
  | Many l => l
  end.

Definition _execute (h : Handler) (sqls : one_or_many string) : M unit :=
  let sqls := as_list sqls in
  closing (__database h) (fun conn =>
    transaction conn (
      _conn_run conn ;;;
      for_each sqls (fun sql => execute conn sql ;;; ret tt))).

(** The loop of [cursor.fetchmany(size)]: rows are taken from the cursor
    until it is exhausted or the count of rows taken equals [size]. *)
Fixpoint fetchmany_loop (maxrows counter : Z) (rows : Query) : Query :=
  match rows with
  | [] => []
  | row :: rest =>
      row :: (if counter + 1 =? maxrows then []
              else fetchmany_loop maxrows (counter + 1) rest)
  end.

(** [cursor.fetchmany(size)], for a cursor with the given rows pending;
    [size] is converted to a C [int]. *)
Definition fetchmany (rows : Query) (size : Z) : M Query :=
  if (size <? - 2 ^ 31) || (2 ^ 31 <=? size) then raise OverflowError
  else ret (fetchmany_loop size 0 rows).

(** [fetch or -1] *)
Definition or_minus_one (n : Z) : Z := if n =? 0 then -1 else n.

Definition _fetch (h : Handler) (sql : string) (n : Z) : M Query :=
  closing (__database h) (fun conn =>
    transaction conn (_conn_run conn) ;;;
    rows <- execute conn sql ;;
    fetchmany rows (or_minus_one n)).

(** *** Backups *)

Definition backup_pattern (h : Handler) : string :=
  PathLib.stem (__database h) +:+ "_*" +:+ PathLib.suffix (__database h) +:+ ".bak".

Definition backup_list (h : Handler) : M (list Path) :=
  glob (parent (__database h)) (backup_pattern h).

Definition bck_path (h : Handler) (bck_time : string) : Path :=
  mkPath (parent (__database h))
         (PathLib.stem (__database h) +:+ "_" +:+ bck_time +:+
          PathLib.suffix (__database h) +:+ ".bak").

(** [l[0]] *)
Definition first {A} (l : list A) : M A :=
  match l with
  | x :: _ => ret x
  | [] => raise IndexError
  end.

Definition backup_create (h : Handler) : M unit :=
  bck_time <- (fun w => (Ok (clock w), w)) ;;
  let bck := bck_path h bck_time in
  found <- backup_list h ;;
  let backups := PathLib.sorted found in
  when (__backups h <=? Z.of_nat (length backups))
       (oldest <- first backups ;; unlink oldest) ;;;
  closing (__database h) (fun cur =>
    closing bck (fun bck =>
      transaction cur (transaction bck (backup cur bck)))).

Definition backup_check (h : Handler) (bk : Path) : M Path :=
  isf <- is_file bk ;;
  if negb isf then raise FileNotFoundError
  else
    m1 <- stat_mode bk ;;
    m2 <- stat_mode (__database h) ;;
    if negb (m1 =? m2) then raise PermissionError else ret bk.

Definition backup_set (h : Handler) (bk : Path) : M unit :=
  path <- backup_check h bk ;;
  replace path (__database h).

Definition backup_pop (h : Handler) (bk : Path) : M unit :=
  path <- backup_check h bk ;;
  unlink path.

(** *** Rows, tables and columns *)

Definition is_empty {A} (l : list A) : bool :=
  match l with
  | [] => true
  | _ :: _ => false
  end.

Definition row_insert (h : Handler) (table : string) (data : one_or_many Pair)
    (ignore : bool) : M unit :=
  if String.eqb table "" then ret tt
  else
    let data := as_list data in
    when (threshold h <? Z.of_nat (length data)) (backup_create h) ;;;
    let sqls := map (fun pair => _row_insert pair ignore table)
                    (List.filter (fun pair => negb (is_empty pair)) data) in
    _execute h (Many sqls).

Definition row_update (h : Handler) (table : string) (data : Pair) (where_ : Where)
    : M unit :=
  if negb (negb (String.eqb table "") && negb (is_empty data)) then ret tt
  else _execute h (One (row_update_sql table data where_)).

Definition row_delete (h : Handler) (table : string) (where_ : Where) : M unit :=
  if String.eqb table "" then ret tt
  else _execute h (One (row_delete_sql table where_)).

Definition table_drop (h : Handler) (tables : one_or_many string) : M unit :=
  let tables := as_list tables in
  _execute h (Many (map _table_drop
                        (List.filter (fun t => negb (String.eqb t "")) tables))).

Definition col_create (h : Handler) (table col sql_type : string) (dflt : value)
    : M unit :=
  if negb (negb (String.eqb table "") && negb (String.eqb col "") &&
           negb (String.eqb sql_type "")) then ret tt
  else _execute h (One (col_create_sql table col sql_type dflt)).

Definition fetch_all (h : Handler) (table : string) (n : Z) : M Query :=
  _fetch h ("SELECT * FROM " +:+ table +:+ ";") n.

Definition fetch (h : Handler) (tables : one_or_many string) (select : Select)
    (where_ : Where) (order : Order) (n : Z) : M Query :=
  _fetch h (sql_select tables select where_ order) n.

(** The rows the cursor of [_fetch] holds once its statement has run: the
    connection is opened, the pragmas run, and the statement is executed. *)
Definition cursor_rows (h : Handler) (sql : string) : M Query :=
  conn <- connect (__database h) ;;
  transaction conn (_conn_run conn) ;;;
  execute conn sql.

(** *** Column names

    Subscripting a row has no effect but the [IndexError] of a missing
    column, so the keys of [groupby], which Python computes as the iteration
    advances, are computed here before the runs are read. *)

Fixpoint map_m {A B} (f : A -> M B) (l : list A) : M (list B) :=
  match l with
  | [] => ret []
  | x :: l' => y <- f x ;; ys <- map_m f l' ;; ret (y :: ys)
  end.

Fixpoint fold_m {A B} (f : B -> A -> M B) (l : list A) (b : B) : M B :=
  match l with
  | [] => ret b
  | x :: l' => b' <- f b x ;; fold_m f l' b'
  end.

Definition itemgetter (key : string) (row : Row) : M value :=
  match Rows.getitem row key with
  | Some v => ret v
  | None => raise IndexError
  end.

Definition _col_name (rows : list Row) : M (list value) :=
  map_m (itemgetter "name") rows.

Definition _col_info (h : Handler) (table : string) : M Query :=
  _fetch h ("PRAGMA table_info(" +:+ table +:+ ");") 0.

Definition col_name (h : Handler) (table : string) : M (option (list value)) :=
  query <- _col_info h table ;;
  if is_empty query then ret None
  else names <- _col_name query ;; ret (Some names).

Definition col_name_group (h : Handler) (table mask : string)
    : M (option (Rows.vdict (list value))) :=
  query <- _col_info h table ;;
  if is_empty query then ret None
  else
    keyed <- map_m (fun row => idx <- itemgetter mask row ;; ret (idx, row)) query ;;
    d <- fold_m (fun d run => names <- _col_name (snd run) ;;
                              ret (Rows.setitem d (fst run) names))
                (Rows.groupby keyed) [] ;;
    ret (Some d).

End Operations.

(** The default of the [fetch] parameter of [fetch] and [fetch_all]. *)
Definition fetch_default : Z := 0.

(** *** Readings of a trace *)

Definition is_backup_event (ev : event) : bool :=
  match ev with
  | EvBackup _ _ => true
  | _ => false
  end.

Definition is_execute_event (ev : event) : bool :=
  match ev with
  | EvExecute _ _ => true
  | _ => false
  end.

(** The number of snapshots taken in a run of events. *)
Definition snapshots (evs : list event) : nat :=
  length (List.filter is_backup_event evs).

(** The statements sent to the engine in a run of events. *)
Fixpoint statements (evs : list event) : list string :=
  match evs with
  | [] => []
  | EvExecute _ sql :: evs' => sql :: statements evs'
  | _ :: evs' => statements evs'
  end.

(** The backup files of a handler lying in a world. *)
Definition backup_files {Content} (h : Handler) (w : world Content) : gset Path :=
  filter (fun p => parent p = parent (database h) /\
                   PathLib.fnmatch (backup_pattern h) (name p) = true)
         (dom (fs w)).

(** *** A sample engine and sample worlds

    The engine keeps the journal of the statements run against an image and
    answers every [SELECT] with the same three rows. *)

Module Sample.

Definition rows : Query :=
  [[("x", VInt 1)]; [("x", VInt 2)]; [("x", VInt 3)]].

Definition starts_with (pre s : string) : bool :=
  String.eqb (PathLib.take (String.length pre) s) pre.

Definition engine : Engine (list string) :=
  mkEngine []
           (fun c sql => Some (c ++ [sql], if starts_with "SELECT" sql then rows else []))
           (fun c => c)
           (fun c => c).

Definition db : Path := mkPath "/data" "app.db".

Definition handler (keep : Z) : Handler :=
  mkHandler db (mkPath "/data" "schema.sql") keep 10.

Definition image : file (list string) := mkFile 33188 [].  (* 0o100644 *)
Definition locked : file (list string) := mkFile 33152 [].  (* 0o100600 *)

Definition bak (stamp : string) : Path :=
  mkPath "/data" ("app_" +:+ stamp +:+ ".db.bak").

(** The database alone. *)
Definition fresh : world (list string) :=
  mkWorld (<[db := image]> ∅) 18 "20240101_000000_000004" [].

(** The database and three backups. *)
Definition crowded : world (list string) :=
  mkWorld (<[bak "20240101_000000_000001" := image]>
            (<[bak "20240101_000000_000002" := image]>
              (<[bak "20240101_000000_000003" := image]>
                (<[db := image]> ∅))))
          18 "20240101_000000_000004" [].

(** The database and one backup whose permission bits differ. *)
Definition foreign : world (list string) :=
  mkWorld (<[bak "20240101_000000_000001" := locked]> (<[db := image]> ∅))
          18 "20240101_000000_000004" [].

End Sample.

(** An engine that answers [PRAGMA table_info] with the columns of one
    table, and the database alone in its directory. *)

Module Catalog.

Definition column (cid : Z) (nm ty : string) (pk : Z) : Row :=
  [("cid", VInt cid); ("name", VStr nm); ("type", VStr ty); ("notnull", VInt 0);
   ("dflt_value", VNone); ("pk", VInt pk)].

Definition rows : Query :=
  [column 0 "id" "INTEGER" 1; column 1 "title" "TEXT" 0; column 2 "body" "TEXT" 0;
   column 3 "rank" "INTEGER" 0].

Definition engine : Engine (list string) :=
  mkEngine []
           (fun c sql => Some (c ++ [sql],
                               if Sample.starts_with "PRAGMA table_info(" sql
                               then rows else []))
           (fun c => c)
           (fun c => c).

End Catalog.

(** [not data] for the payload of [row_insert]: the empty mapping or the
    empty sequence. *)
Definition falsy_payload (data : one_or_many Pair) : bool :=
  match data with
  | One row => is_empty row
  | Many batch => is_empty batch
  end.

(** The events of an [_execute] that returns. *)
Definition committed (h : Handler) (sqls : list string) : list event :=
  EvConnect (database h) :: map (EvExecute (database h)) (pragmas ++ sqls) ++
  [EvCommit (database h); EvClose (database h)].

(** *** The two phases of [backup_create]

    [evict] lists the backups and removes the oldest when the retention
    count is reached; [snapshot] writes the new backup. *)

Section Phases.

Context {Content : Type} (engine : Engine Content).

Definition evict (h : Handler) : M (Content := Content) unit :=
  bind (backup_list h) (fun found =>
    let backups := PathLib.sorted found in
    when (__backups h <=? Z.of_nat (length backups))
         (bind (first backups) unlink)).

Definition snapshot (h : Handler) (bck : Path) : M (Content := Content) unit :=
  closing engine (__database h) (fun cur =>
    closing engine bck (fun bck =>
      transaction engine cur (transaction engine bck (backup cur bck)))).

End Phases.

(** *** Judgements on operations

    [runs P Q lo hi m]: whatever the world, [m] extends the trace by events
    that all satisfy [P]; among them are at most [hi] snapshots, and at
    least [lo] when [m] returns; an exception [m] raises satisfies [Q]. *)
Definition runs {Content A} (P : event -> Prop) (Q : exn -> Prop) (lo hi : nat)
    (m : world Content -> result A * world Content) : Prop :=
  forall w, exists evs : list event,
    trace (snd (m w)) = trace w ++ evs /\
    Forall P evs /\
    (snapshots evs <= hi)%nat /\
    (forall a, fst (m w) = Ok a -> (lo <= snapshots evs)%nat) /\
    (forall e, fst (m w) = Raise e -> Q e).

(** [grows S m]: [m] removes no file and creates files at the paths of [S]
    only. *)
Definition grows {Content A} (S : gset Path)
    (m : world Content -> result A * world Content) : Prop :=
  forall w, dom (fs w) ⊆ dom (fs (snd (m w))) /\
            dom (fs (snd (m w))) ⊆ dom (fs w) ∪ S.

(** [frames S m]: [m] leaves every file outside [S] as it was. *)
Definition frames {Content A} (S : gset Path)
    (m : world Content -> result A * world Content) : Prop :=
  forall w p, p ∉ S -> fs (snd (m w)) !! p = fs w !! p.

Definition not_execute (ev : event) : Prop := is_execute_event ev = false.
Definition not_backup (ev : event) : Prop := is_backup_event ev = false.

(** The statements an event may carry, when it carries one. *)
Definition sends (allowed : list string) (ev : event) : Prop :=
  forall p sql, ev = EvExecute p sql -> In sql allowed.

Definition any_exn (e : exn) : Prop := True.

(** * Properties *)

(** ** Rendering *)

Lemma append_assoc (a b c : string) : (a +:+ b) +:+ c = a +:+ (b +:+ c).
Proof.
  induction a as [|x a IH]; [reflexivity|].
  change (String x ((a +:+ b) +:+ c) = String x (a +:+ (b +:+ c))).
  rewrite IH. reflexivity.
Qed.

Lemma repr_char_plain (c : ascii) :
  Py.plain_char c = true -> Py.repr_char Py.squote c = Py.char c.
Proof.
  destruct c as [[] [] [] [] [] [] [] []]; vm_compute; intros H;
    first [reflexivity | discriminate H].
Qed.

Lemma plain_no_squote (s : string) :
  Py.plain s = true -> Py.contains Py.squote s = false.
Proof.
  induction s as [|c s IH]; simpl; [reflexivity|].
  intros [Hc Hs]%andb_prop. rewrite (IH Hs), orb_false_r.
  destruct c as [[] [] [] [] [] [] [] []]; vm_compute in Hc |- *;
    first [reflexivity | discriminate Hc].
Qed.

Lemma repr_chars_plain (s : string) :
  Py.plain s = true -> Py.repr_chars Py.squote s = s.
Proof.
  induction s as [|c s IH]; simpl; [reflexivity|].
  intros [Hc Hs]%andb_prop. rewrite (repr_char_plain c Hc), (IH Hs). reflexivity.
Qed.

(** A plain text is printed between single quotes, unchanged. *)
Lemma repr_str_plain (s : string) :
  Py.plain s = true -> Py.repr_str s = "'" +:+ s +:+ "'".
Proof.
  intros H. unfold Py.repr_str, Py.repr_quote.
  rewrite (plain_no_squote s H). simpl.
  rewrite (repr_chars_plain s H). reflexivity.
Qed.

Lemma repr_tuple_many (x y : string) (l : list string) :
  Py.repr_tuple (x :: y :: l) = "(" +:+ Py.join ", " (x :: y :: l) +:+ ")".
Proof. reflexivity. Qed.

Lemma lookup_keys_values {V} (d : Py.dict V) (i : nat) (k : string) (v : V) :
  d !! i = Some (k, v) -> Py.keys d !! i = Some k /\ Py.values d !! i = Some v.
Proof.
  revert i. induction d as [|[k' v'] d IH]; intros [|i] H; simpl in *;
    try discriminate.
  - injection H as -> ->. split; reflexivity.
  - apply IH, H.
Qed.

Lemma lookup_map {A B} (f : A -> B) (l : list A) (i : nat) (x : A) :
  l !! i = Some x -> map f l !! i = Some (f x).
Proof.
  revert i. induction l as [|y l IH]; intros [|i] H; simpl in *; try discriminate.
  - injection H as ->. reflexivity.
  - apply IH, H.
Qed.

(** ** The select statement *)

(** C1: for tables [t1, t2], select list [t1.x], filter [t1.id: == '5'] and
    order [t1.x: ASC], the statement [fetch] assembles and hands to the
    engine is exactly
    [SELECT t1.x FROM t1 NATURAL JOIN t2 WHERE t1.id == '5' ORDER BY t1.x ASC;]. *)
Theorem C1_fetch_statement :
  sql_select (Many ["t1"; "t2"]) (Some ["t1.x"]) (Some [("t1.id", "== '5'")])
             (Some [("t1.x", ASC)])
  = "SELECT t1.x FROM t1 NATURAL JOIN t2 WHERE t1.id == '5' ORDER BY t1.x ASC;"
  /\ forall Content (engine : Engine Content) (h : Handler) (n : Z),
       fetch engine h (Many ["t1"; "t2"]) (Some ["t1.x"]) (Some [("t1.id", "== '5'")])
             (Some [("t1.x", ASC)]) n
       = _fetch engine h
           "SELECT t1.x FROM t1 NATURAL JOIN t2 WHERE t1.id == '5' ORDER BY t1.x ASC;" n.
Proof.
  split; [reflexivity|]. intros. reflexivity.
Qed.

(** ** The insert statement *)

(** C2, as stated, fails: for the row [{"a": 1, "b": "x"}] the statement is
    [INSERT INTO t ('a', 'b') VALUES (1, 'x');], with the column names
    quoted, not the bare list [(a, b)]. *)
Lemma C2_bare_columns_counterexample :
  let data : Pair := [("a", VInt 1); ("b", VStr "x")] in
  "t" <> "" /\ data <> [] /\
  _row_insert data false "t" = "INSERT INTO t ('a', 'b') VALUES (1, 'x');" /\
  spec_row_insert data false "t" = "INSERT INTO t (a, b) VALUES (1, 'x');" /\
  _row_insert data false "t" <> spec_row_insert data false "t".
Proof.
  cbv zeta. repeat split; try discriminate; reflexivity.
Qed.

(** C2, amended: for every non-empty table name and every row mapping of two
    or more columns, the statement is
    [INSERT [OR IGNORE] INTO table ('col1', 'col2', ...) VALUES (val1, val2, ...);]
    where each column name is printed as a string literal ([repr]; between
    single quotes and unchanged when it is plain) and the i-th column and
    the i-th value come from the i-th item of the mapping. *)
Theorem C2_row_insert_statement (table : string) (data : Pair) (ignore : bool) :
  table <> "" -> (2 <= length data)%nat ->
  _row_insert data ignore table = quoted_row_insert data ignore table
  /\ (forall i k v, data !! i = Some (k, v) ->
        map Py.repr_str (Py.keys data) !! i = Some (Py.repr_str k) /\
        map Py.repr (Py.values data) !! i = Some (Py.repr v))
  /\ (forall k, Py.plain k = true -> Py.repr_str k = "'" +:+ k +:+ "'").
Proof.
  intros _ Hlen. split; [|split].
  - destruct data as [|[k1 v1] [|[k2 v2] rest]]; simpl in Hlen; try lia.
    unfold _row_insert, quoted_row_insert, keys_tuple, values_tuple.
    simpl Py.keys. simpl Py.values. simpl map.
    rewrite !repr_tuple_many, !append_assoc.
    reflexivity.
  - intros i k v H. destruct (lookup_keys_values data i k v H) as [Hk Hv].
    split; apply lookup_map; assumption.
  - apply repr_str_plain.
Qed.

Lemma C2_row_insert_statement_witness :
  let data : Pair := [("a", VInt 1); ("b", VStr "x")] in
  "t" <> "" /\ (2 <= length data)%nat /\
  _row_insert data true "t" = quoted_row_insert data true "t".
Proof.
  cbv zeta. split; [discriminate|]. split; [simpl; lia|].
  exact (proj1 (C2_row_insert_statement "t" [("a", VInt 1); ("b", VStr "x")] true
                  ltac:(discriminate) ltac:(simpl; lia))).
Defined.

(** ** The statement library *)

Lemma val_in_body_many (args : list value) (negate : bool) :
  (2 <= length args)%nat ->
  Statement.val_in_body args negate = Statement.spec_val_in args negate.
Proof.
  intros Hlen. destruct args as [|x [|y l]]; simpl in Hlen; try lia.
  unfold Statement.val_in_body, Statement.spec_val_in. simpl map.
  rewrite repr_tuple_many. reflexivity.
Qed.

(** C7, as stated, fails for a single value: [val_in(5)] is [IN (5,)], the
    one-item tuple with its trailing comma, not [IN (5)]. *)
Lemma C7_single_value_counterexample :
  fst (Statement.val_in [VInt 5] None []) = "IN (5,)" /\
  Statement.spec_val_in [VInt 5] false = "IN (5)" /\
  fst (Statement.val_in [VInt 5] None []) <> Statement.spec_val_in [VInt 5] false.
Proof.
  repeat split; try reflexivity. discriminate.
Qed.

(** C7, amended: for every sequence of two or more values (the [n > 1] of
    the docstring) and every negate flag, a call whose answer is not taken
    from the memo entry of other arguments returns [IN (v1, v2, ...)],
    prefixed with [NOT ] when negate is set, each value printed by [repr]
    and the values separated by a comma and a space. *)
Theorem C7_val_in_many (args : list value) (negate : option bool) (c : Memo.cache) :
  (2 <= length args)%nat ->
  (forall r, Memo.cache_get (Statement.val_in_key args negate) c = Some r ->
             r = Statement.val_in_body args (default false negate)) ->
  fst (Statement.val_in args negate c)
  = Statement.spec_val_in args (default false negate).
Proof.
  intros Hlen Hown. unfold Statement.val_in, Memo.cached.
  destruct (Memo.cache_get _ c) as [r|] eqn:E; simpl.
  - rewrite (Hown r eq_refl). apply val_in_body_many, Hlen.
  - apply val_in_body_many, Hlen.
Qed.

Lemma C7_val_in_many_witness :
  fst (Statement.val_in [VInt 1; VStr "a"] (Some true) []) = "NOT IN (1, 'a')".
Proof.
  exact (C7_val_in_many [VInt 1; VStr "a"] (Some true) []
           ltac:(simpl; lia) ltac:(intros r H; discriminate H)).
Defined.

Lemma eq_refl_value (v : value) : Py.eq v v = true.
Proof.
  destruct v as [|b|z|z|s]; simpl; try reflexivity.
  - destruct b; reflexivity.
  - apply Z.eqb_refl.
  - apply Z.eqb_refl.
  - apply String.eqb_refl.
Qed.

Lemma all2_refl {A} (f : A -> A -> bool) (l : list A) :
  (forall x, f x x = true) -> Memo.all2 f l l = true.
Proof.
  intros Hf. induction l as [|x l IH]; simpl; [reflexivity|].
  rewrite Hf, IH. reflexivity.
Qed.

Lemma key_eq_refl (k : Memo.key) : Memo.key_eq k k = true.
Proof.
  destruct k as [v|args kwds]; simpl.
  - apply eq_refl_value.
  - rewrite (all2_refl Py.eq args eq_refl_value). simpl.
    apply all2_refl. intros [n v]. unfold Memo.kwd_eq. simpl.
    rewrite String.eqb_refl, eq_refl_value. reflexivity.
Qed.

Lemma cache_get_app (k : Memo.key) (c c' : Memo.cache) (r : string) :
  Memo.cache_get k c = Some r -> Memo.cache_get k (c ++ c') = Some r.
Proof.
  induction c as [|[k' r'] c IH]; simpl; [discriminate|].
  destruct (Memo.key_eq k' k); [trivial | exact IH].
Qed.

Lemma cache_get_snoc (k : Memo.key) (c : Memo.cache) (r : string) :
  Memo.cache_get k c = None -> Memo.cache_get k (c ++ [(k, r)]) = Some r.
Proof.
  induction c as [|[k' r'] c IH]; simpl.
  - intros _. rewrite key_eq_refl. reflexivity.
  - destruct (Memo.key_eq k' k); [discriminate | exact IH].
Qed.

(** An answer held by the table is never replaced by a later call. *)
Lemma cached_keeps (k k' : Memo.key) (body : string) (c : Memo.cache) (r : string) :
  Memo.cache_get k c = Some r ->
  Memo.cache_get k (snd (Memo.cached k' body c)) = Some r.
Proof.
  intros H. unfold Memo.cached.
  destruct (Memo.cache_get k' c); simpl; [exact H | apply cache_get_app, H].
Qed.

Lemma run_calls_keeps (k : Memo.key) (calls : list (Memo.key * string))
    (c : Memo.cache) (r : string) :
  Memo.cache_get k c = Some r -> Memo.cache_get k (Memo.run_calls calls c) = Some r.
Proof.
  revert c. induction calls as [|[k' b'] calls IH]; intros c H; simpl; [exact H|].
  apply IH, cached_keeps, H.
Qed.

Lemma cached_records (k : Memo.key) (body : string) (c : Memo.cache) :
  Memo.cache_get k (snd (Memo.cached k body c)) = Some (fst (Memo.cached k body c)).
Proof.
  unfold Memo.cached. destruct (Memo.cache_get k c) as [r|] eqn:E; simpl.
  - exact E.
  - apply cache_get_snoc, E.
Qed.

(** What the memo does guarantee: once a call has been answered, every later
    call with the same key gets the same text, whatever calls come between. *)
Lemma cached_same_answer (k : Memo.key) (body body' : string)
    (calls : list (Memo.key * string)) (c : Memo.cache) :
  fst (Memo.cached k body' (Memo.run_calls calls (snd (Memo.cached k body c))))
  = fst (Memo.cached k body c).
Proof.
  unfold Memo.cached at 1.
  rewrite (run_calls_keeps k calls _ _ (cached_records k body c)). reflexivity.
Qed.

(** C8: the builders are memoised on keys compared with [==], so a call
    changes the result of a later call whose arguments are equal without
    being the same: after [val_eq(True)], [val_eq(1.0)] returns [== 'True'],
    where a first call returns [== '1.0']; after [val_in(1, 2)],
    [val_in(1.0, 2.0)] returns [IN (1, 2)]. *)
Theorem C8_cache_conflates_equal_values :
  fst (Statement.val_eq (VFloat 1) []) = "== '1.0'" /\
  fst (Statement.val_eq (VFloat 1) (snd (Statement.val_eq (VBool true) [])))
  = "== 'True'" /\
  fst (Statement.val_in [VFloat 1; VFloat 2] None []) = "IN (1.0, 2.0)" /\
  fst (Statement.val_in [VFloat 1; VFloat 2] None
         (snd (Statement.val_in [VInt 1; VInt 2] None [])))
  = "IN (1, 2)".
Proof.
  repeat split; reflexivity.
Qed.

(** ** The row limit *)

Lemma fetchmany_loop_all (maxrows counter : Z) (rows : Query) :
  maxrows <= counter -> fetchmany_loop maxrows counter rows = rows.
Proof.
  revert counter. induction rows as [|row rest IH]; intros counter H; simpl;
    [reflexivity|].
  destruct (Z.eqb_spec (counter + 1) maxrows); [lia|].
  rewrite IH by lia. reflexivity.
Qed.

Lemma fetchmany_loop_firstn (maxrows counter : Z) (rows : Query) :
  counter < maxrows ->
  fetchmany_loop maxrows counter rows = firstn (Z.to_nat (maxrows - counter)) rows.
Proof.
  revert counter. induction rows as [|row rest IH]; intros counter H; simpl.
  - destruct (Z.to_nat (maxrows - counter)); reflexivity.
  - replace (Z.to_nat (maxrows - counter))
      with (S (Z.to_nat (maxrows - (counter + 1)))) by lia.
    simpl. f_equal.
    destruct (Z.eqb_spec (counter + 1) maxrows) as [->|Hne].
    + rewrite Z.sub_diag. reflexivity.
    + apply IH. lia.
Qed.

Section Limit.

Context {Content : Type} (engine : Engine Content).

(** The result of [_fetch] is that of [fetchmany] on the rows its cursor
    holds. *)
Lemma _fetch_cursor (h : Handler) (sql : string) (n : Z) (w w1 : world Content)
    (rows : Query) :
  cursor_rows engine h sql w = (Ok rows, w1) ->
  fst (_fetch engine h sql n w)
  = fst (fetchmany (Content := Content) rows (or_minus_one n) w1).
Proof.
  unfold cursor_rows, _fetch, closing, bind, finally. intros H.
  destruct (connect engine (__database h) w) as [[conn|e] w0]; [|discriminate H].
  destruct (transaction engine conn (_conn_run engine conn) w0) as [[[]|e] w2];
    [|discriminate H].
  destruct (execute engine conn sql w2) as [[rows'|e] w3]; [|discriminate H].
  injection H as -> ->.
  destruct (fetchmany rows (or_minus_one n) w1) as [r w4]. reflexivity.
Qed.

Lemma _fetch_limit (h : Handler) (sql : string) (w w1 : world Content) (rows : Query) :
  cursor_rows engine h sql w = (Ok rows, w1) ->
  fst (_fetch engine h sql fetch_default w) = Ok rows /\
  (forall k, 0 < k < 2 ^ 31 ->
     fst (_fetch engine h sql k w) = Ok (firstn (Z.to_nat k) rows)) /\
  (forall k out, 0 < k ->
     fst (_fetch engine h sql k w) = Ok out ->
     out = firstn (Z.to_nat k) rows /\ (length out <= Z.to_nat k)%nat).
Proof.
  intros H. split; [|split].
  - rewrite (_fetch_cursor h sql _ w w1 rows H).
    change (or_minus_one fetch_default) with (-1). unfold fetchmany.
    change ((-1 <? - 2 ^ 31) || (2 ^ 31 <=? -1)) with false. cbv iota.
    rewrite (fetchmany_loop_all (-1) 0 rows) by lia. reflexivity.
  - intros k Hk. rewrite (_fetch_cursor h sql _ w w1 rows H).
    unfold or_minus_one, fetchmany.
    destruct (Z.eqb_spec k 0); [lia|].
    destruct (Z.ltb_spec k (- 2 ^ 31)); [lia|].
    destruct (Z.leb_spec (2 ^ 31) k); [lia|]. simpl.
    rewrite fetchmany_loop_firstn by lia. rewrite Z.sub_0_r. reflexivity.
  - intros k out Hk. rewrite (_fetch_cursor h sql _ w w1 rows H).
    unfold or_minus_one, fetchmany.
    destruct (Z.eqb_spec k 0); [lia|].
    destruct ((k <? - 2 ^ 31) || (2 ^ 31 <=? k)); simpl; [discriminate|].
    rewrite fetchmany_loop_firstn by lia. rewrite Z.sub_0_r.
    intros [= <-]. split; [reflexivity|]. apply firstn_le_length.
Qed.

(** C9: with the default limit of 0, [fetch_all] and [fetch] return every row
    their statement yields; with a positive limit [k] they return the first
    [k] rows, hence at most [k]. *)
Theorem C9_fetch_limit (h : Handler) (w : world Content) :
  (forall table w1 rows,
     cursor_rows engine h ("SELECT * FROM " +:+ table +:+ ";") w = (Ok rows, w1) ->
     fst (fetch_all engine h table fetch_default w) = Ok rows /\
     (forall k, 0 < k < 2 ^ 31 ->
        fst (fetch_all engine h table k w) = Ok (firstn (Z.to_nat k) rows)) /\
     (forall k out, 0 < k -> fst (fetch_all engine h table k w) = Ok out ->
        out = firstn (Z.to_nat k) rows /\ (length out <= Z.to_nat k)%nat)) /\
  (forall tables select where_ order w1 rows,
     cursor_rows engine h (sql_select tables select where_ order) w = (Ok rows, w1) ->
     fst (fetch engine h tables select where_ order fetch_default w) = Ok rows /\
     (forall k, 0 < k < 2 ^ 31 ->
        fst (fetch engine h tables select where_ order k w)
        = Ok (firstn (Z.to_nat k) rows)) /\
     (forall k out, 0 < k ->
        fst (fetch engine h tables select where_ order k w) = Ok out ->
        out = firstn (Z.to_nat k) rows /\ (length out <= Z.to_nat k)%nat)).
Proof.
  split.
  - intros table w1 rows H. exact (_fetch_limit h _ w w1 rows H).
  - intros tables select where_ order w1 rows H. exact (_fetch_limit h _ w w1 rows H).
Qed.

End Limit.

Lemma C9_fetch_limit_witness :
  fst (cursor_rows Sample.engine (Sample.handler 3) "SELECT * FROM t;" Sample.fresh)
  = Ok Sample.rows /\
  fst (fetch_all Sample.engine (Sample.handler 3) "t" 0 Sample.fresh)
  = Ok Sample.rows /\
  fst (fetch_all Sample.engine (Sample.handler 3) "t" 2 Sample.fresh)
  = Ok (firstn 2 Sample.rows).
Proof.
  assert (H : cursor_rows Sample.engine (Sample.handler 3) "SELECT * FROM t;" Sample.fresh
              = (Ok Sample.rows,
                 snd (cursor_rows Sample.engine (Sample.handler 3) "SELECT * FROM t;"
                                  Sample.fresh))) by (vm_compute; reflexivity).
  split; [rewrite H; reflexivity|].
  destruct (proj1 (C9_fetch_limit Sample.engine (Sample.handler 3) Sample.fresh)
              "t" _ Sample.rows H) as (H0 & Hk & _).
  split; [exact H0|]. exact (Hk 2 ltac:(lia)).
Defined.

(** ** Restoring and deleting a backup *)

Section Check.

Context {Content : Type}.

Lemma backup_check_missing (h : Handler) (bk : Path) (w : world Content) :
  fs w !! bk = None -> backup_check h bk w = (Raise FileNotFoundError, w).
Proof.
  intros H.
  cbv beta iota zeta delta [backup_check bind is_file get_fs ret raise].
  rewrite H. reflexivity.
Qed.

Lemma backup_check_mode (h : Handler) (bk : Path) (w : world Content)
    (fb fd : file Content) :
  fs w !! bk = Some fb -> S_ISREG (st_mode fb) = true ->
  fs w !! database h = Some fd -> st_mode fb <> st_mode fd ->
  backup_check h bk w = (Raise PermissionError, w).
Proof.
  intros Hb Hreg Hd Hne.
  cbv beta iota zeta delta [backup_check bind is_file stat_mode get_fs ret raise __database].
  rewrite Hb, Hreg. cbv beta iota zeta delta [negb].
  rewrite Hb. cbv beta iota. rewrite Hd. cbv beta iota.
  destruct (Z.eqb_spec (st_mode fb) (st_mode fd)); [contradiction | reflexivity].
Qed.

(** C6: restoring or deleting a backup path that does not exist raises
    [FileNotFoundError]; when the path is a file whose permission bits
    differ from those of the live database file, it raises
    [PermissionError]; in both cases the file system, and with it the live
    database and the backup file, is as it was. *)
Theorem C6_backup_check_failures (h : Handler) (bk : Path) (w : world Content) :
  (fs w !! bk = None ->
   backup_set h bk w = (Raise FileNotFoundError, w) /\
   backup_pop h bk w = (Raise FileNotFoundError, w)) /\
  (forall fb fd,
     fs w !! bk = Some fb -> S_ISREG (st_mode fb) = true ->
     fs w !! database h = Some fd ->
     S_IMODE (st_mode fb) <> S_IMODE (st_mode fd) ->
     backup_set h bk w = (Raise PermissionError, w) /\
     backup_pop h bk w = (Raise PermissionError, w)).
Proof.
  split.
  - intros H. unfold backup_set, backup_pop, bind.
    rewrite (backup_check_missing h bk w H). split; reflexivity.
  - intros fb fd Hb Hreg Hd Hne.
    assert (Hmode : st_mode fb <> st_mode fd) by (intros E; apply Hne; rewrite E; reflexivity).
    unfold backup_set, backup_pop, bind.
    rewrite (backup_check_mode h bk w fb fd Hb Hreg Hd Hmode). split; reflexivity.
Qed.

End Check.

Lemma C6_backup_check_failures_witness :
  let h := Sample.handler 3 in
  (fs Sample.fresh !! Sample.bak "20240101_000000_000001" = None /\
   backup_set h (Sample.bak "20240101_000000_000001") Sample.fresh
   = (Raise FileNotFoundError, Sample.fresh)) /\
  (fs Sample.foreign !! Sample.bak "20240101_000000_000001" = Some Sample.locked /\
   S_ISREG (st_mode Sample.locked) = true /\
   fs Sample.foreign !! database h = Some Sample.image /\
   S_IMODE (st_mode Sample.locked) <> S_IMODE (st_mode Sample.image) /\
   backup_set h (Sample.bak "20240101_000000_000001") Sample.foreign
   = (Raise PermissionError, Sample.foreign) /\
   backup_pop h (Sample.bak "20240101_000000_000001") Sample.foreign
   = (Raise PermissionError, Sample.foreign)).
Proof.
  cbv zeta.
  assert (H1 : fs Sample.fresh !! Sample.bak "20240101_000000_000001" = None)
    by (vm_compute; reflexivity).
  assert (H2 : fs Sample.foreign !! Sample.bak "20240101_000000_000001"
               = Some Sample.locked) by (vm_compute; reflexivity).
  assert (H3 : S_ISREG (st_mode Sample.locked) = true) by reflexivity.
  assert (H4 : fs Sample.foreign !! database (Sample.handler 3) = Some Sample.image)
    by (vm_compute; reflexivity).
  assert (H5 : S_IMODE (st_mode Sample.locked) <> S_IMODE (st_mode Sample.image))
    by (vm_compute; discriminate).
  split.
  - split; [exact H1|].
    exact (proj1 (proj1 (C6_backup_check_failures (Sample.handler 3) _ Sample.fresh) H1)).
  - destruct (proj2 (C6_backup_check_failures (Sample.handler 3) _ Sample.foreign)
                _ _ H2 H3 H4 H5) as [Hs Hp].
    repeat split; assumption.
Defined.

(** ** Traces of operations *)

Lemma snapshots_app (l1 l2 : list event) :
  snapshots (l1 ++ l2) = (snapshots l1 + snapshots l2)%nat.
Proof. unfold snapshots. rewrite List.filter_app, length_app. reflexivity. Qed.

Lemma statements_app (l1 l2 : list event) :
  statements (l1 ++ l2) = statements l1 ++ statements l2.
Proof.
  induction l1 as [|ev l1 IH]; [reflexivity|].
  destruct ev; simpl; rewrite IH; reflexivity.
Qed.

Lemma not_execute_statements (evs : list event) :
  Forall not_execute evs -> statements evs = [].
Proof.
  induction 1 as [|ev evs Hev _ IH]; [reflexivity|].
  destruct ev; simpl; try exact IH. discriminate Hev.
Qed.

Lemma not_backup_snapshots (evs : list event) :
  Forall not_backup evs -> snapshots evs = 0%nat.
Proof.
  induction 1 as [|ev evs Hev _ IH]; [reflexivity|].
  unfold snapshots in *. simpl. rewrite Hev. exact IH.
Qed.

Lemma sends_statements (allowed : list string) (evs : list event) :
  Forall (sends allowed) evs -> forall sql, In sql (statements evs) -> In sql allowed.
Proof.
  induction 1 as [|ev evs Hev _ IH]; intros sql Hin; [destruct Hin|].
  destruct ev; simpl in Hin; try (apply IH, Hin).
  destruct Hin as [<-|Hin]; [exact (Hev _ _ eq_refl) | apply IH, Hin].
Qed.

Section Runs.

Context {Content : Type} (engine : Engine Content).
Context (P : event -> Prop) (Q : exn -> Prop).

Local Abbreviation M := (@M Content).

Lemma runs_weaken {A} (P' : event -> Prop) (Q' : exn -> Prop) (lo lo' hi hi' : nat)
    (m : M A) :
  runs P' Q' lo' hi' m ->
  (forall ev, P' ev -> P ev) -> (forall e, Q' e -> Q e) ->
  (lo <= lo')%nat -> (hi' <= hi)%nat ->
  runs P Q lo hi m.
Proof.
  intros Hm HP HQ Hlo Hhi w. destruct (Hm w) as (evs & Ht & Hall & Hmax & Hmin & Hexn).
  exists evs. repeat split.
  - exact Ht.
  - eapply List.Forall_impl; [exact HP | exact Hall].
  - lia.
  - intros a Ha. specialize (Hmin a Ha). lia.
  - intros e He. apply HQ, (Hexn e He).
Qed.

(** An operation that leaves the trace alone and does not raise. *)
Lemma runs_silent {A} (m : M A) :
  (forall w, trace (snd (m w)) = trace w) ->
  (forall w e, fst (m w) <> Raise e) ->
  runs P Q 0 0 m.
Proof.
  intros Ht Hr w. exists []. change (snapshots []) with 0%nat.
  split; [rewrite Ht, app_nil_r; reflexivity|].
  split; [constructor|]. split; [lia|]. split; [intros; lia|].
  intros e He. destruct (Hr w e He).
Qed.

Lemma runs_ret {A} (a : A) : runs P Q 0 0 (ret (Content := Content) a).
Proof. apply runs_silent; [reflexivity | discriminate]. Qed.

Lemma runs_raise {A} (e : exn) (lo : nat) :
  Q e -> runs P Q lo 0 (raise (Content := Content) (A := A) e).
Proof.
  intros He w. exists []. change (snapshots []) with 0%nat. simpl.
  split; [rewrite app_nil_r; reflexivity|].
  split; [constructor|]. split; [lia|]. split; [discriminate|].
  intros e' [= <-]. exact He.
Qed.

Lemma runs_bind {A B} (lo1 hi1 lo2 hi2 : nat) (m : M A) (k : A -> M B) :
  runs P Q lo1 hi1 m -> (forall a, runs P Q lo2 hi2 (k a)) ->
  runs P Q (lo1 + lo2) (hi1 + hi2) (bind m k).
Proof.
  intros Hm Hk w. unfold bind.
  destruct (Hm w) as (ev1 & Ht1 & Hall1 & Hmax1 & Hmin1 & Hexn1).
  destruct (m w) as [[a|e] w1]; simpl in *.
  - destruct (Hk a w1) as (ev2 & Ht2 & Hall2 & Hmax2 & Hmin2 & Hexn2).
    exists (ev1 ++ ev2). rewrite snapshots_app.
    split; [rewrite Ht2, Ht1, app_assoc; reflexivity|].
    split; [apply Forall_app; split; assumption|].
    split; [lia|].
    split; [|exact Hexn2].
    intros b Hb. specialize (Hmin1 a eq_refl). specialize (Hmin2 b Hb). lia.
  - exists ev1. split; [exact Ht1|]. split; [exact Hall1|].
    split; [lia|]. split; [discriminate|].
    intros e' [= <-]. apply Hexn1. reflexivity.
Qed.

Lemma runs_seq {A B} (lo hi : nat) (m : M A) (k : A -> M B) :
  runs P Q 0 0 m -> (forall a, runs P Q lo hi (k a)) -> runs P Q lo hi (bind m k).
Proof. intros Hm Hk. exact (runs_bind 0 0 lo hi m k Hm Hk). Qed.

Lemma runs_finally {A} (lo hi : nat) (body : M A) (cleanup : M unit) :
  runs P Q lo hi body -> runs P Q 0 0 cleanup -> runs P Q lo hi (finally body cleanup).
Proof.
  intros Hb Hc w. unfold finally.
  destruct (Hb w) as (ev1 & Ht1 & Hall1 & Hmax1 & Hmin1 & Hexn1).
  destruct (body w) as [r w1]; simpl in *.
  destruct (Hc w1) as (ev2 & Ht2 & Hall2 & Hmax2 & Hmin2 & Hexn2).
  exists (ev1 ++ ev2). rewrite snapshots_app.
  destruct (cleanup w1) as [[[]|e] w2]; simpl in *;
    (split; [rewrite Ht2, Ht1, app_assoc; reflexivity|]);
    (split; [apply Forall_app; split; assumption|]);
    (split; [lia|]).
  - split; [|exact Hexn1]. intros a Ha. specialize (Hmin1 a Ha). lia.
  - split; [discriminate|]. intros e' [= <-]. apply Hexn2. reflexivity.
Qed.

Lemma runs_when (lo hi : nat) (b : bool) (m : M unit) :
  runs P Q lo hi m -> runs P Q 0 hi (when b m).
Proof.
  intros Hm. destruct b; simpl.
  - apply (runs_weaken P Q 0 lo hi hi m Hm); auto; lia.
  - apply (runs_weaken P Q 0 0 hi 0 _ (runs_ret tt)); auto; lia.
Qed.

Lemma runs_for_each {A} (l : list A) (body : A -> M unit) :
  (forall x, runs P Q 0 0 (body x)) -> runs P Q 0 0 (for_each l body).
Proof.
  intros Hb. induction l as [|x l IH]; simpl.
  - apply runs_ret.
  - apply runs_seq; [apply Hb | intros _; exact IH].
Qed.

Lemma runs_log (ev : event) :
  P ev -> is_backup_event ev = false -> runs P Q 0 0 (log (Content := Content) ev).
Proof.
  intros Hev Hnb w. exists [ev].
  assert (Hs : snapshots [ev] = 0%nat) by (unfold snapshots; simpl; rewrite Hnb; reflexivity).
  rewrite Hs. simpl.
  split; [reflexivity|]. split; [repeat constructor; exact Hev|].
  split; [lia|]. split; [intros; lia | discriminate].
Qed.

Lemma runs_update_data (conn : Path) (g : Content -> Content) :
  runs P Q 0 0 (update_data conn g).
Proof.
  apply runs_silent; intros w; unfold update_data, bind, get_fs, set_fs, ret; simpl;
    destruct (fs w !! conn); simpl; try reflexivity; discriminate.
Qed.

Lemma runs_connect (p : Path) :
  P (EvConnect p) -> Q OperationalError -> runs P Q 0 0 (connect engine p).
Proof.
  intros Hev He. unfold connect. apply runs_seq; [apply runs_log; auto|].
  intros _ w. exists []. rewrite app_nil_r. change (snapshots []) with 0%nat.
  destruct (fs w !! p) as [f|]; [destruct (S_ISDIR (st_mode f))|]; simpl;
    (split; [reflexivity|]); (split; [constructor|]); (split; [lia|]);
    (split; [intros; lia|]); try discriminate.
  intros e [= <-]. exact He.
Qed.

Lemma runs_close (conn : Path) : P (EvClose conn) -> runs P Q 0 0 (close (Content := Content) conn).
Proof. intros Hev. apply runs_log; auto. Qed.

Lemma runs_commit (conn : Path) : P (EvCommit conn) -> runs P Q 0 0 (commit engine conn).
Proof.
  intros Hev. apply runs_seq; [apply runs_log; auto | intros _; apply runs_update_data].
Qed.

Lemma runs_rollback (conn : Path) :
  P (EvRollback conn) -> runs P Q 0 0 (rollback engine conn).
Proof.
  intros Hev. apply runs_seq; [apply runs_log; auto | intros _; apply runs_update_data].
Qed.

Lemma runs_get_fs : runs P Q 0 0 (get_fs (Content := Content)).
Proof. apply runs_silent; [reflexivity | discriminate]. Qed.

Lemma runs_execute (conn : Path) (sql : string) :
  P (EvExecute conn sql) -> Q OperationalError -> runs P Q 0 0 (execute engine conn sql).
Proof.
  intros Hev He. unfold execute. apply runs_seq; [apply runs_log; auto|]. intros _.
  apply runs_seq; [apply runs_get_fs|]. intros f.
  destruct (f !! conn) as [e|]; [|apply runs_raise, He].
  destruct (eng_exec engine (data e) sql) as [[c rows]|]; [|apply runs_raise, He].
  apply runs_seq; [apply runs_update_data | intros _; apply runs_ret].
Qed.

Lemma commit_returns (conn : Path) (w : world Content) :
  fst (commit engine conn w) = Ok tt.
Proof.
  unfold commit, update_data, log, bind, get_fs, set_fs, ret. simpl.
  destruct (fs w !! conn); reflexivity.
Qed.

Lemma rollback_returns (conn : Path) (w : world Content) :
  fst (rollback engine conn w) = Ok tt.
Proof.
  unfold rollback, update_data, log, bind, get_fs, set_fs, ret. simpl.
  destruct (fs w !! conn); reflexivity.
Qed.

Lemma runs_transaction {A} (lo hi : nat) (conn : Path) (body : M A) :
  P (EvCommit conn) -> P (EvRollback conn) ->
  runs P Q lo hi body -> runs P Q lo hi (transaction engine conn body).
Proof.
  intros Hc Hr Hb w. unfold transaction.
  destruct (Hb w) as (ev1 & Ht1 & Hall1 & Hmax1 & Hmin1 & Hexn1).
  destruct (body w) as [[a|e] w1]; simpl in *.
  - destruct (runs_commit conn Hc w1) as (ev2 & Ht2 & Hall2 & Hmax2 & _ & _).
    pose proof (commit_returns conn w1) as Hok. unfold bind.
    destruct (commit engine conn w1) as [[[]|e] w2]; simpl in *; [|discriminate Hok].
    exists (ev1 ++ ev2). rewrite snapshots_app.
    split; [rewrite Ht2, Ht1, app_assoc; reflexivity|].
    split; [apply Forall_app; split; assumption|].
    split; [lia|]. split; [|discriminate].
    intros b _. specialize (Hmin1 a eq_refl). lia.
  - destruct (runs_rollback conn Hr w1) as (ev2 & Ht2 & Hall2 & Hmax2 & _ & _).
    pose proof (rollback_returns conn w1) as Hok. unfold bind.
    destruct (rollback engine conn w1) as [[[]|e'] w2]; simpl in *; [|discriminate Hok].
    exists (ev1 ++ ev2). rewrite snapshots_app.
    split; [rewrite Ht2, Ht1, app_assoc; reflexivity|].
    split; [apply Forall_app; split; assumption|].
    split; [lia|]. split; [discriminate|].
    intros e' [= <-]. apply Hexn1. reflexivity.
Qed.

Lemma runs_closing {A} (lo hi : nat) (p : Path) (body : Path -> M A) :
  P (EvConnect p) -> (forall c, P (EvClose c)) -> Q OperationalError ->
  (forall c, runs P Q lo hi (body c)) -> runs P Q lo hi (closing engine p body).
Proof.
  intros Hc Hcl He Hb. unfold closing.
  apply runs_seq; [apply runs_connect; assumption|]. intros conn.
  apply runs_finally; [apply Hb | apply runs_close, Hcl].
Qed.

End Runs.

(** ** Traces of the handler's operations *)

Section Programs.

Context {Content : Type} (engine : Engine Content).
Context (P : event -> Prop) (Q : exn -> Prop).

Lemma backup_create_phases (h : Handler) (w : world Content) :
  backup_create engine h w
  = bind (evict h) (fun _ => snapshot engine h (bck_path h (clock w))) w.
Proof.
  reflexivity.
Qed.

Lemma runs_statements (conn : Path) (sqls : list string) :
  (forall sql, In sql sqls -> P (EvExecute conn sql)) -> Q OperationalError ->
  runs P Q 0 0 (for_each sqls (fun sql => bind (execute engine conn sql)
                                               (fun _ => ret tt))).
Proof.
  intros Hl He. induction sqls as [|sql l IH]; simpl.
  - apply runs_ret.
  - apply runs_seq.
    + apply runs_seq; [|intros _; apply runs_ret].
      apply runs_execute; [apply Hl; left; reflexivity | exact He].
    + intros _. apply IH. intros s Hs. apply Hl. right. exact Hs.
Qed.

Lemma runs_conn_run (conn : Path) :
  (forall sql, In sql pragmas -> P (EvExecute conn sql)) -> Q OperationalError ->
  runs P Q 0 0 (_conn_run engine conn).
Proof. intros Hp He. unfold _conn_run. apply runs_statements; assumption. Qed.

(** [_execute] sends the pragmas and its statements, and takes no
    snapshot. *)
Lemma runs__execute (h : Handler) (sqls : one_or_many string) :
  (forall ev, is_execute_event ev = false -> is_backup_event ev = false -> P ev) ->
  (forall c sql, In sql (pragmas ++ as_list sqls) -> P (EvExecute c sql)) ->
  Q OperationalError ->
  runs P Q 0 0 (_execute engine h sqls).
Proof.
  intros Hadm Hsql He. unfold _execute.
  apply runs_closing; try (intros; apply Hadm; reflexivity); [exact He|].
  intros conn. apply runs_transaction; try (apply Hadm; reflexivity).
  apply runs_seq.
  - apply runs_conn_run; [|exact He].
    intros sql Hin. apply Hsql, in_or_app. left. exact Hin.
  - intros _. apply runs_statements; [|exact He].
    intros sql Hin. apply Hsql, in_or_app. right. exact Hin.
Qed.

Lemma runs_unlink (p : Path) :
  Q FileNotFoundError -> Q IsADirectoryError ->
  runs P Q 0 0 (unlink (Content := Content) p).
Proof.
  intros H1 H2. unfold unlink. apply runs_seq; [apply runs_get_fs|]. intros f.
  destruct (f !! p) as [e|]; [|apply runs_raise, H1].
  destruct (S_ISDIR (st_mode e)); [apply runs_raise, H2|].
  apply runs_silent; [reflexivity | discriminate].
Qed.

Lemma runs_evict (h : Handler) :
  Q IndexError -> Q FileNotFoundError -> Q IsADirectoryError ->
  runs P Q 0 0 (evict (Content := Content) h).
Proof.
  intros H0 H1 H2. unfold evict, backup_list, glob.
  apply runs_seq.
  - apply runs_seq; [apply runs_get_fs | intros f; apply runs_ret].
  - intros found. apply (runs_when P Q 0 0).
    apply runs_seq; [|intros p; apply runs_unlink; assumption].
    unfold first. destruct (PathLib.sorted found); [apply runs_raise, H0 | apply runs_ret].
Qed.

Lemma runs_backup (src dst : Path) :
  P (EvBackup src dst) -> Q OperationalError ->
  runs P Q 1 1 (backup (Content := Content) src dst).
Proof.
  intros Hev He. unfold backup.
  apply (runs_bind P Q 1 1 0 0).
  - intros w. exists [EvBackup src dst]. simpl.
    split; [reflexivity|]. split; [repeat constructor; exact Hev|].
    split; [reflexivity|]. split; [intros; reflexivity | discriminate].
  - intros _. apply runs_seq; [apply runs_get_fs|]. intros f.
    destruct (f !! src); [apply runs_update_data | apply runs_raise, He].
Qed.

(** [snapshot] takes exactly one snapshot when it returns, at most one
    otherwise, and executes no statement. *)
Lemma runs_snapshot (h : Handler) (bck : Path) :
  (forall ev, is_execute_event ev = false -> P ev) -> Q OperationalError ->
  runs P Q 1 1 (snapshot engine h bck).
Proof.
  intros Hadm He. unfold snapshot.
  apply runs_closing; try (intros; apply Hadm; reflexivity); [exact He|]. intros cur.
  apply runs_closing; try (intros; apply Hadm; reflexivity); [exact He|]. intros b.
  apply runs_transaction; try (apply Hadm; reflexivity).
  apply runs_transaction; try (apply Hadm; reflexivity).
  apply runs_backup; [apply Hadm; reflexivity | exact He].
Qed.

Lemma runs_backup_create (h : Handler) :
  (forall ev, is_execute_event ev = false -> P ev) ->
  Q OperationalError -> Q IndexError -> Q FileNotFoundError -> Q IsADirectoryError ->
  runs P Q 1 1 (backup_create engine h).
Proof.
  intros Hadm He H0 H1 H2 w. rewrite backup_create_phases.
  apply (runs_seq P Q 1 1 (evict h)
           (fun _ => snapshot engine h (bck_path h (clock w)))).
  - apply runs_evict; assumption.
  - intros _. apply runs_snapshot; assumption.
Qed.

End Programs.

(** ** Inserts and the backup threshold *)

Section Inserts.

Context {Content : Type} (engine : Engine Content).

Lemma not_execute_sends (allowed : list string) (ev : event) :
  is_execute_event ev = false -> sends allowed ev.
Proof. intros H p sql ->. discriminate H. Qed.

Lemma runs_row_insert_tail (h : Handler) (sqls : list string) :
  runs not_backup any_exn 0 0 (_execute engine h (Many sqls)).
Proof.
  apply runs__execute.
  - intros ev _ H. exact H.
  - intros c sql _. reflexivity.
  - exact I.
Qed.

(** C3: a batch of [threshold + 1] rows makes [row_insert] run
    [backup_create] once, before [_execute]: the events of that run come
    first and hold no statement, those that follow hold no snapshot, and
    there is exactly one snapshot when [backup_create] returns, as it has
    when the insert returns (at most one otherwise).  A batch of exactly
    [threshold] rows takes no snapshot. *)
Theorem C3_backup_threshold (h : Handler) (table : string) (data : one_or_many Pair)
    (ignore : bool) (w : world Content) :
  table <> "" ->
  (Z.of_nat (length (as_list data)) = threshold h + 1 ->
   exists pre post : list event,
     trace (snd (backup_create engine h w)) = trace w ++ pre /\
     trace (snd (row_insert engine h table data ignore w)) = trace w ++ pre ++ post /\
     statements pre = [] /\ snapshots post = 0%nat /\ (snapshots pre <= 1)%nat /\
     (fst (backup_create engine h w) = Ok tt -> snapshots pre = 1%nat) /\
     (fst (row_insert engine h table data ignore w) = Ok tt ->
      fst (backup_create engine h w) = Ok tt))
  /\
  (Z.of_nat (length (as_list data)) = threshold h ->
   exists evs : list event,
     trace (snd (row_insert engine h table data ignore w)) = trace w ++ evs /\
     snapshots evs = 0%nat).
Proof.
  intros Htable. apply String.eqb_neq in Htable.
  unfold row_insert. rewrite Htable. split; intros Hlen.
  - replace (threshold h <? Z.of_nat (length (as_list data))) with true
      by (symmetry; apply Z.ltb_lt; lia).
    unfold when, bind.
    destruct (runs_backup_create engine not_execute any_exn h
                (fun ev H => H) I I I I w) as (pre & Ht & Hall & Hmax & Hmin & _).
    destruct (backup_create engine h w) as [[[]|e] wb]; simpl in Ht, Hmin.
    + match goal with
      | |- context [_execute engine h (Many ?sqls) wb] =>
          destruct (runs_row_insert_tail h sqls wb) as (post & Ht' & Hall' & _)
      end.
      exists pre, post. simpl.
      split; [exact Ht|]. split; [rewrite Ht', Ht, app_assoc; reflexivity|].
      split; [apply not_execute_statements, Hall|].
      split; [apply not_backup_snapshots, Hall'|].
      split; [exact Hmax|]. split; [|reflexivity].
      intros _. specialize (Hmin tt eq_refl). lia.
    + exists pre, []. simpl. rewrite app_nil_r.
      split; [exact Ht|]. split; [exact Ht|].
      split; [apply not_execute_statements, Hall|].
      split; [reflexivity|]. split; [exact Hmax|]. split; discriminate.
  - replace (threshold h <? Z.of_nat (length (as_list data))) with false
      by (symmetry; apply Z.ltb_ge; lia).
    unfold when, bind, ret.
    match goal with
    | |- context [_execute engine h (Many ?sqls) w] =>
        destruct (runs_row_insert_tail h sqls w) as (post & Ht' & Hall' & _)
    end.
    exists post. split; [exact Ht' | apply not_backup_snapshots, Hall'].
Qed.

(** C5, amended: [row_insert], [row_update], [row_delete] and [col_create]
    called with an empty table name, and [row_update] called with an empty
    mapping, return normally and leave the world as it was: no connection
    is opened and no statement is executed.  [row_insert] called with an
    empty mapping or an empty batch sends no statement other than the
    connection pragmas, hence no [INSERT]. *)
Theorem C5_silent_no_op (h : Handler) (w : world Content) :
  (forall data ignore, row_insert engine h "" data ignore w = (Ok tt, w)) /\
  (forall data where_, row_update engine h "" data where_ w = (Ok tt, w)) /\
  (forall table where_, row_update engine h table [] where_ w = (Ok tt, w)) /\
  (forall where_, row_delete engine h "" where_ w = (Ok tt, w)) /\
  (forall col sql_type dflt, col_create engine h "" col sql_type dflt w = (Ok tt, w)) /\
  (forall table data ignore, falsy_payload data = true ->
     exists evs : list event,
       trace (snd (row_insert engine h table data ignore w)) = trace w ++ evs /\
       forall sql, In sql (statements evs) -> In sql pragmas).
Proof.
  split; [reflexivity|]. split; [reflexivity|].
  split; [intros table where_; unfold row_update; destruct (String.eqb table ""); reflexivity|].
  split; [reflexivity|]. split; [reflexivity|].
  intros table data ignore Hfalsy.
  assert (Hruns : runs (sends pragmas) any_exn 0 1 (row_insert engine h table data ignore)).
  { unfold row_insert. destruct (String.eqb table "").
    - apply (runs_weaken (sends pragmas) any_exn (sends pragmas) any_exn 0 0 1 0);
        [apply runs_ret | auto | auto | lia | lia].
    - cbv zeta.
      match goal with
      | |- context [List.filter ?f (as_list data)] =>
          replace (List.filter f (as_list data)) with (@nil Pair)
            by (destruct data as [[|]|[|]]; try discriminate Hfalsy; reflexivity)
      end.
      simpl map.
      apply (runs_bind _ _ 0 1 0 0).
      + apply (runs_when _ _ 1 1).
        apply runs_backup_create; try exact I. apply not_execute_sends.
      + intros _. apply runs__execute; try exact I.
        * intros ev H _. apply not_execute_sends, H.
        * intros c sql Hin p sql' [= _ <-]. rewrite app_nil_r in Hin. exact Hin. }
  destruct (Hruns w) as (evs & Ht & Hall & _).
  exists evs. split; [exact Ht | apply sends_statements, Hall].
Qed.

End Inserts.

(** C5, as stated, fails for [row_insert] with a falsy payload: with the
    empty mapping as data, a connection is opened and the three pragmas are
    executed. *)
Lemma C5_empty_payload_counterexample :
  let run := row_insert Sample.engine (Sample.handler 3) "t" (One []) false Sample.fresh in
  "t" <> "" /\ falsy_payload (One []) = true /\
  fst run = Ok tt /\
  trace (snd run)
  = [EvConnect Sample.db;
     EvExecute Sample.db "PRAGMA foreign_keys = ON;";
     EvExecute Sample.db "PRAGMA journal_mode = WAL;";
     EvExecute Sample.db "PRAGMA synchronous = NORMAL;";
     EvCommit Sample.db; EvClose Sample.db] /\
  trace (snd run) <> trace Sample.fresh.
Proof.
  cbv zeta. split; [discriminate|]. split; [reflexivity|].
  split; [vm_compute; reflexivity|].
  assert (H : trace (snd (row_insert Sample.engine (Sample.handler 3) "t" (One []) false
                                     Sample.fresh))
              = [EvConnect Sample.db;
                 EvExecute Sample.db "PRAGMA foreign_keys = ON;";
                 EvExecute Sample.db "PRAGMA journal_mode = WAL;";
                 EvExecute Sample.db "PRAGMA synchronous = NORMAL;";
                 EvCommit Sample.db; EvClose Sample.db]) by (vm_compute; reflexivity).
  split; [exact H|]. rewrite H. discriminate.
Qed.

Lemma C3_backup_threshold_witness :
  let h := Sample.handler 3 in
  let batch n : one_or_many Pair := Many (repeat [("a", VInt 1); ("b", VInt 2)] n) in
  "t" <> "" /\
  Z.of_nat (length (as_list (batch 11%nat))) = threshold h + 1 /\
  Z.of_nat (length (as_list (batch 10%nat))) = threshold h /\
  (exists pre post : list event,
     trace (snd (row_insert Sample.engine h "t" (batch 11%nat) false Sample.fresh))
     = trace Sample.fresh ++ pre ++ post /\
     statements pre = [] /\ snapshots post = 0%nat /\ snapshots pre = 1%nat) /\
  (exists evs : list event,
     trace (snd (row_insert Sample.engine h "t" (batch 10%nat) false Sample.fresh))
     = trace Sample.fresh ++ evs /\ snapshots evs = 0%nat).
Proof.
  cbv zeta.
  assert (Ht : "t" <> "") by discriminate.
  split; [exact Ht|]. split; [reflexivity|]. split; [reflexivity|]. split.
  - destruct (proj1 (C3_backup_threshold Sample.engine (Sample.handler 3) "t"
                       (Many (repeat [("a", VInt 1); ("b", VInt 2)] 11)) false
                       Sample.fresh Ht) eq_refl)
      as (pre & post & _ & Hrun & Hpre & Hpost & _ & Hone & _).
    exists pre, post. repeat split; try assumption.
    apply Hone. vm_compute. reflexivity.
  - exact (proj2 (C3_backup_threshold Sample.engine (Sample.handler 3) "t"
                    (Many (repeat [("a", VInt 1); ("b", VInt 2)] 10)) false
                    Sample.fresh Ht) eq_refl).
Defined.

Lemma C5_silent_no_op_witness :
  falsy_payload (One []) = true /\
  row_update Sample.engine (Sample.handler 3) "t" [] None Sample.fresh
  = (Ok tt, Sample.fresh) /\
  exists evs : list event,
    trace (snd (row_insert Sample.engine (Sample.handler 3) "t" (One []) false
                           Sample.fresh))
    = trace Sample.fresh ++ evs /\
    forall sql, In sql (statements evs) -> In sql pragmas.
Proof.
  split; [reflexivity|].
  destruct (C5_silent_no_op Sample.engine (Sample.handler 3) Sample.fresh)
    as (_ & _ & Hupd & _ & _ & Hins).
  split; [apply Hupd|]. apply Hins. reflexivity.
Defined.

(** ** Sorting the backups *)

Lemma string_compare_refl (s : string) : String.compare s s = Eq.
Proof.
  induction s as [|c s IH]; simpl; [reflexivity|].
  unfold Ascii.compare. rewrite N.compare_refl. exact IH.
Qed.

Lemma string_leb_trans (a b c : string) :
  String.leb a b = true -> String.leb b c = true -> String.leb a c = true.
Proof.
  unfold String.leb. revert b c.
  induction a as [|x a IH]; intros [|y b] [|z c]; simpl; try (intros; congruence).
  unfold Ascii.compare.
  destruct (N.compare_spec (N_of_ascii x) (N_of_ascii y)) as [Exy|Lxy|Gxy];
    destruct (N.compare_spec (N_of_ascii y) (N_of_ascii z)) as [Eyz|Lyz|Gyz];
    destruct (N.compare_spec (N_of_ascii x) (N_of_ascii z)) as [Exz|Lxz|Gxz];
    intros H1 H2; try reflexivity; try congruence; try lia.
  apply (IH b c); assumption.
Qed.

Lemma path_leb_refl (p : Path) : PathLib.leb p p = true.
Proof. unfold PathLib.leb, String.leb. rewrite string_compare_refl. reflexivity. Qed.

Lemma path_leb_total (p q : Path) : PathLib.leb p q = false -> PathLib.leb q p = true.
Proof.
  unfold PathLib.leb. intros H.
  destruct (String.leb_total (name p) (name q)) as [H'|H']; congruence.
Qed.

Lemma insert_sorted_length (p : Path) (l : list Path) :
  length (PathLib.insert_sorted p l) = S (length l).
Proof.
  induction l as [|q l IH]; simpl; [reflexivity|].
  destruct (PathLib.leb p q); simpl; [reflexivity | rewrite IH; reflexivity].
Qed.

Lemma sorted_length (l : list Path) : length (PathLib.sorted l) = length l.
Proof.
  induction l as [|p l IH]; simpl; [reflexivity|].
  rewrite insert_sorted_length, IH. reflexivity.
Qed.

Lemma insert_sorted_In (p q : Path) (l : list Path) :
  In q (PathLib.insert_sorted p l) <-> q = p \/ In q l.
Proof.
  induction l as [|r l IH]; simpl; [intuition congruence|].
  destruct (PathLib.leb p r); simpl; [intuition congruence|].
  rewrite IH. intuition congruence.
Qed.

Lemma sorted_In (q : Path) (l : list Path) : In q (PathLib.sorted l) <-> In q l.
Proof.
  induction l as [|p l IH]; simpl; [reflexivity|].
  rewrite insert_sorted_In, IH. intuition congruence.
Qed.

(** The first path of the sorted list is below every listed path. *)
Lemma sorted_first_least (l : list Path) (p : Path) (rest : list Path) :
  PathLib.sorted l = p :: rest -> forall q, In q l -> PathLib.leb p q = true.
Proof.
  revert p rest. induction l as [|x l IH]; intros p rest H q Hq; [destruct Hq|].
  simpl in H. destruct (PathLib.sorted l) as [|y ys] eqn:E.
  - pose proof (sorted_length l) as HL. rewrite E in HL.
    destruct l; [|discriminate HL].
    simpl in H. injection H as <- <-. destruct Hq as [<-|[]]. apply path_leb_refl.
  - simpl in H. destruct (PathLib.leb x y) eqn:Exy.
    + injection H as <- <-. destruct Hq as [<-|Hq]; [apply path_leb_refl|].
      unfold PathLib.leb in *.
      apply (string_leb_trans _ (name y)); [exact Exy|].
      exact (IH y ys eq_refl q Hq).
    + injection H as <- <-. destruct Hq as [<-|Hq].
      * apply path_leb_total, Exy.
      * exact (IH y ys eq_refl q Hq).
Qed.

(** ** The database file is not one of its backups *)

Lemma take_drop (i : nat) (s : string) : PathLib.take i s +:+ PathLib.drop i s = s.
Proof.
  revert i. induction s as [|c s IH]; intros [|i]; try reflexivity.
  change (String c (PathLib.take i s +:+ PathLib.drop i s) = String c s).
  rewrite IH. reflexivity.
Qed.

Lemma stem_suffix (p : Path) : PathLib.stem p +:+ PathLib.suffix p = name p.
Proof.
  unfold PathLib.stem, PathLib.suffix. destruct (PathLib.suffix_at (name p)) as [i|].
  - apply take_drop.
  - induction (name p) as [|c s IH]; [reflexivity|].
    change (String c (s +:+ "") = String c s). rewrite IH. reflexivity.
Qed.

Lemma count_char_app (c : ascii) (a b : string) :
  PathLib.count_char c (a +:+ b)
  = (PathLib.count_char c a + PathLib.count_char c b)%nat.
Proof.
  induction a as [|x a IH]; [reflexivity|].
  change (((if Ascii.eqb c x then 1 else 0) + PathLib.count_char c (a +:+ b))%nat
          = ((if Ascii.eqb c x then 1 else 0) + PathLib.count_char c a
             + PathLib.count_char c b)%nat).
  rewrite IH. lia.
Qed.

Lemma fnmatch_star (pat nm : string) :
  PathLib.fnmatch (String "*" pat) nm
  = PathLib.fnmatch pat nm ||
    match nm with
    | EmptyString => false
    | String _ nm' => PathLib.fnmatch (String "*" pat) nm'
    end.
Proof. destruct nm; reflexivity. Qed.

(** A character that is no wildcard occurs in a matching name at least as
    often as in the pattern. *)
Lemma fnmatch_count (c : ascii) (pat nm : string) :
  Ascii.eqb c "*" = false -> Ascii.eqb c "?" = false ->
  PathLib.fnmatch pat nm = true ->
  (PathLib.count_char c pat <= PathLib.count_char c nm)%nat.
Proof.
  intros Hs Hq. revert nm. induction pat as [|a pat IH]; intros nm H.
  - simpl. lia.
  - destruct (Ascii.eqb_spec a "*") as [->|Hne].
    + change (PathLib.count_char c (String "*" pat))
        with ((if Ascii.eqb c "*" then 1 else 0) + PathLib.count_char c pat)%nat.
      rewrite Hs. simpl Nat.add.
      induction nm as [|d nm IHnm]; rewrite fnmatch_star in H;
        apply orb_prop in H; destruct H as [H|H]; try discriminate H.
      * apply IH, H.
      * apply IH, H.
      * specialize (IHnm H). simpl. lia.
    + simpl in H. apply Ascii.eqb_neq in Hne. rewrite Hne in H.
      destruct nm as [|d nm]; [discriminate H|].
      apply andb_prop in H. destruct H as [Hc H]. specialize (IH nm H).
      simpl. apply orb_prop in Hc. destruct Hc as [Hc|Hc].
      * apply Ascii.eqb_eq in Hc. subst a. rewrite Hq. simpl. lia.
      * apply Ascii.eqb_eq in Hc. subst d. destruct (Ascii.eqb c a); simpl; lia.
Qed.

Lemma database_not_backup (h : Handler) :
  PathLib.fnmatch (backup_pattern h) (name (database h)) = false.
Proof.
  destruct (PathLib.fnmatch (backup_pattern h) (name (database h))) eqn:E;
    [|reflexivity].
  apply (fnmatch_count "_") in E; try reflexivity.
  revert E. unfold backup_pattern, __database.
  rewrite <- (stem_suffix (database h)).
  rewrite !count_char_app. simpl. lia.
Qed.

(** ** What the operations do to the directory *)

Section Grows.

Context {Content : Type} (engine : Engine Content) (S : gset Path).

Local Abbreviation M := (@M Content).

Lemma grows_silent {A} (m : M A) :
  (forall w, fs (snd (m w)) = fs w) -> grows S m.
Proof. intros H w. rewrite H. split; set_solver. Qed.

Lemma grows_bind {A B} (m : M A) (k : A -> M B) :
  grows S m -> (forall a, grows S (k a)) -> grows S (bind m k).
Proof.
  intros Hm Hk w. unfold bind. destruct (Hm w) as [H1 H2].
  destruct (m w) as [[a|e] w1]; simpl in *.
  - destruct (Hk a w1) as [H3 H4]. split; set_solver.
  - split; assumption.
Qed.

Lemma grows_finally {A} (body : M A) (cleanup : M unit) :
  grows S body -> grows S cleanup -> grows S (finally body cleanup).
Proof.
  intros Hb Hc w. unfold finally. destruct (Hb w) as [H1 H2].
  destruct (body w) as [r w1]; simpl in *. destruct (Hc w1) as [H3 H4].
  destruct (cleanup w1) as [[[]|e] w2]; simpl in *; split; set_solver.
Qed.

Lemma grows_log (ev : event) : grows S (log (Content := Content) ev).
Proof. apply grows_silent. reflexivity. Qed.

Lemma grows_update_data (conn : Path) (g : Content -> Content) :
  grows S (update_data conn g).
Proof.
  intros w. unfold update_data, bind, get_fs, set_fs, ret. simpl.
  destruct (fs w !! conn) as [e|] eqn:E; simpl.
  - rewrite dom_insert_L.
    assert (conn ∈ dom (fs w)) by (apply elem_of_dom; eauto).
    split; set_solver.
  - split; set_solver.
Qed.

Lemma grows_connect (p : Path) : p ∈ S -> grows S (connect engine p).
Proof.
  intros Hp w. unfold connect, bind, log. simpl.
  destruct (fs w !! p) as [e|]; [destruct (S_ISDIR (st_mode e))|]; simpl;
    rewrite ?dom_insert_L; split; set_solver.
Qed.

Lemma grows_commit (conn : Path) : grows S (commit engine conn).
Proof. apply grows_bind; [apply grows_log | intros _; apply grows_update_data]. Qed.

Lemma grows_rollback (conn : Path) : grows S (rollback engine conn).
Proof. apply grows_bind; [apply grows_log | intros _; apply grows_update_data]. Qed.

Lemma grows_transaction {A} (conn : Path) (body : M A) :
  grows S body -> grows S (transaction engine conn body).
Proof.
  intros Hb w. unfold transaction. destruct (Hb w) as [H1 H2].
  destruct (body w) as [[a|e] w1]; simpl in *.
  - destruct (grows_bind _ (fun _ => ret a) (grows_commit conn)
                (fun _ => grows_silent (ret a) (fun _ => eq_refl)) w1) as [H3 H4].
    split; set_solver.
  - destruct (grows_bind _ (fun _ => raise (A := A) e) (grows_rollback conn)
                (fun _ => grows_silent (raise e) (fun _ => eq_refl)) w1) as [H3 H4].
    split; set_solver.
Qed.

Lemma grows_closing {A} (p : Path) (body : Path -> M A) :
  p ∈ S -> (forall c, grows S (body c)) -> grows S (closing engine p body).
Proof.
  intros Hp Hb. unfold closing. apply grows_bind; [apply grows_connect, Hp|].
  intros conn. apply grows_finally; [apply Hb | apply grows_log].
Qed.

Lemma grows_backup (src dst : Path) : grows S (backup (Content := Content) src dst).
Proof.
  unfold backup. apply grows_bind; [apply grows_log|]. intros _.
  apply grows_bind; [apply grows_silent; reflexivity|]. intros f.
  destruct (f !! src); [apply grows_update_data | apply grows_silent; reflexivity].
Qed.

End Grows.

(** [snapshot] creates no file but the database, when it is missing, and the
    new backup, and removes none. *)
Lemma grows_snapshot {Content} (engine : Engine Content) (h : Handler) (bck : Path) :
  grows {[database h; bck]} (snapshot engine h bck).
Proof.
  unfold snapshot, __database.
  apply grows_closing; [set_solver|]. intros cur.
  apply grows_closing; [set_solver|]. intros b.
  apply grows_transaction, grows_transaction, grows_backup.
Qed.

Section Evict.

Context {Content : Type}.

Lemma evict_unfold (h : Handler) (w : world Content) :
  evict h w
  = when (__backups h <=? Z.of_nat (size (backup_files h w)))
         (bind (first (PathLib.sorted (elements (backup_files h w)))) unlink) w.
Proof.
  unfold evict, backup_list, glob, bind, get_fs, ret. simpl.
  rewrite sorted_length. reflexivity.
Qed.

(** Below the retention count nothing is removed. *)
Lemma evict_keep (h : Handler) (w : world Content) :
  Z.of_nat (size (backup_files h w)) < __backups h -> evict h w = (Ok tt, w).
Proof.
  intros H. rewrite evict_unfold.
  replace (__backups h <=? Z.of_nat (size (backup_files h w))) with false
    by (symmetry; apply Z.leb_gt; lia).
  reflexivity.
Qed.

(** At or above the retention count, the backup that is first by name is
    the one removed. *)
Lemma evict_oldest (h : Handler) (w w' : world Content) :
  __backups h <= Z.of_nat (size (backup_files h w)) ->
  evict h w = (Ok tt, w') ->
  exists oldest,
    oldest ∈ backup_files h w /\
    (forall q, q ∈ backup_files h w -> PathLib.leb oldest q = true) /\
    w' = mkWorld (delete oldest (fs w)) (umask w) (clock w) (trace w).
Proof.
  intros H. rewrite evict_unfold.
  replace (__backups h <=? Z.of_nat (size (backup_files h w))) with true
    by (symmetry; apply Z.leb_le; lia).
  unfold when, bind, first.
  destruct (PathLib.sorted (elements (backup_files h w))) as [|p rest] eqn:E;
    [discriminate|].
  unfold ret, unlink, bind, get_fs, set_fs, raise. simpl.
  destruct (fs w !! p) as [e|]; [|discriminate].
  destruct (S_ISDIR (st_mode e)); [discriminate|].
  intros [= <-]. exists p. split; [|split; [|reflexivity]].
  - apply elem_of_elements, list_elem_of_In, sorted_In. rewrite E. left. reflexivity.
  - intros q Hq. apply (sorted_first_least _ _ _ E).
    apply list_elem_of_In, elem_of_elements, Hq.
Qed.

Lemma evict_not_index_error (h : Handler) (w : world Content) :
  1 <= __backups h -> fst (evict h w) <> Raise IndexError.
Proof.
  intros H. rewrite evict_unfold. unfold when.
  destruct (Z.leb_spec (__backups h) (Z.of_nat (size (backup_files h w)))) as [Hle|Hgt];
     [|discriminate].
  unfold bind, first.
  destruct (PathLib.sorted (elements (backup_files h w))) as [|p rest] eqn:E.
  - pose proof (sorted_length (elements (backup_files h w))) as HL.
    rewrite E in HL. unfold size, set_size in Hle. simpl in Hle, HL.
    rewrite <- HL in Hle. simpl in Hle. lia.
  - unfold ret, unlink, bind, get_fs, set_fs, raise. simpl.
    destruct (fs w !! p) as [e|]; [|discriminate].
    destruct (S_ISDIR (st_mode e)); discriminate.
Qed.

Lemma evict_empty (h : Handler) (w : world Content) :
  __backups h = 0 -> backup_files h w = ∅ -> evict h w = (Raise IndexError, w).
Proof.
  intros HN He. rewrite evict_unfold, He, HN. reflexivity.
Qed.

End Evict.

(** ** Retention *)

Section Retention.

Context {Content : Type} (engine : Engine Content).

Lemma backup_create_not_index_error (h : Handler) (w : world Content) :
  1 <= __backups h -> fst (backup_create engine h w) <> Raise IndexError.
Proof.
  intros HN. rewrite backup_create_phases. unfold bind.
  pose proof (evict_not_index_error h w HN) as He.
  destruct (evict h w) as [[[]|e] w1]; simpl in *.
  - destruct (runs_snapshot engine (fun _ => True) (fun e => e <> IndexError) h
                (bck_path h (clock w)) (fun _ _ => I) ltac:(discriminate) w1)
      as (_ & _ & _ & _ & _ & Hexn).
    intros E. exact (Hexn IndexError E eq_refl).
  - exact He.
Qed.

(** C10: for a database whose file name holds no glob metacharacter, with a
    retention count of 0 and no backup file in the directory,
    [backup_create] raises [IndexError] and leaves the world as it was, so
    no snapshot is written; and [backups[0]] is in bounds in every state of
    the directory exactly when the effective retention count is at least
    1. *)
Theorem C10_retention_zero (h : Handler) (w : world Content) :
  PathLib.glob_literal (name (database h)) = true ->
  (backups h = 0 -> backup_files h w = ∅ ->
   backup_create engine h w = (Raise IndexError, w)) /\
  ((forall w' : world Content, fst (backup_create engine h w') <> Raise IndexError)
   <-> 1 <= __backups h).
Proof.
  intros _.
  assert (Hraise : forall w0 : world Content,
             __backups h = 0 -> backup_files h w0 = ∅ ->
             backup_create engine h w0 = (Raise IndexError, w0)).
  { intros w0 HN He. rewrite backup_create_phases. unfold bind.
    rewrite (evict_empty h w0 HN He). reflexivity. }
  split.
  - intros Hb He. apply Hraise; [unfold __backups; rewrite Hb; reflexivity | exact He].
  - split.
    + intros Hall. destruct (Z_lt_le_dec (__backups h) 1) as [Hlt|Hge]; [|exact Hge].
      exfalso. assert (HN : __backups h = 0) by (unfold __backups in *; lia).
      apply (Hall (mkWorld ∅ 0 "" [])).
      rewrite (Hraise (mkWorld ∅ 0 "" []) HN); [reflexivity|].
      unfold backup_files. simpl. rewrite dom_empty_L. set_solver.
    + intros HN w'. apply backup_create_not_index_error, HN.
Qed.

Lemma backup_files_spec (h : Handler) (w : world Content) (p : Path) :
  p ∈ backup_files h w <->
  (parent p = parent (database h) /\
   PathLib.fnmatch (backup_pattern h) (name p) = true) /\ p ∈ dom (fs w).
Proof. unfold backup_files. rewrite elem_of_filter. reflexivity. Qed.

Lemma database_not_in_backups (h : Handler) (w : world Content) :
  database h ∉ backup_files h w.
Proof.
  rewrite backup_files_spec. intros [[_ H] _].
  rewrite database_not_backup in H. discriminate H.
Qed.

(** C4, amended: for a database whose file name holds no glob
    metacharacter, when at most N backup files exist before [backup_create]
    (N the absolute value of the retention argument) and it returns, at most
    N exist after it.  When the count has reached N, the backup removed is
    the first in ascending order of file names, and it is the only one
    removed; below N none is removed. *)
Theorem C4_retention (h : Handler) (w w' : world Content) :
  PathLib.glob_literal (name (database h)) = true ->
  backup_create engine h w = (Ok tt, w') ->
  (Z.of_nat (size (backup_files h w)) <= __backups h ->
   Z.of_nat (size (backup_files h w')) <= __backups h) /\
  (__backups h <= Z.of_nat (size (backup_files h w)) ->
   exists oldest,
     oldest ∈ backup_files h w /\
     (forall q, q ∈ backup_files h w -> String.leb (name oldest) (name q) = true) /\
     (oldest <> bck_path h (clock w) -> oldest ∉ dom (fs w')) /\
     (forall q, q ∈ backup_files h w -> q <> oldest -> q ∈ backup_files h w')) /\
  (Z.of_nat (size (backup_files h w)) < __backups h ->
   backup_files h w ⊆ backup_files h w').
Proof.
  intros _ Hrun. rewrite backup_create_phases in Hrun. unfold bind in Hrun.
  destruct (evict h w) as [[[]|e] w1] eqn:Ev; [|discriminate Hrun].
  pose proof (grows_snapshot engine h (bck_path h (clock w)) w1) as [Hsub Hsup].
  rewrite Hrun in Hsub, Hsup. simpl in Hsub, Hsup.
  pose proof (database_not_in_backups h w') as Hdb.
  assert (Hnew : backup_files h w' ⊆ backup_files h w1 ∪ {[bck_path h (clock w)]}).
  { intros p Hp. destruct (decide (p = bck_path h (clock w))) as [->|Hne];
      [set_solver|].
    destruct (decide (p = database h)) as [->|Hnd]; [destruct (Hdb Hp)|].
    apply elem_of_union_l. apply backup_files_spec in Hp as [HB Hd].
    apply backup_files_spec. split; [exact HB|].
    apply Hsup in Hd. set_solver. }
  assert (Hold : forall p, p ∈ backup_files h w1 -> p ∈ backup_files h w').
  { intros p Hp. apply backup_files_spec in Hp as [HB Hd].
    apply backup_files_spec. split; [exact HB | apply Hsub, Hd]. }
  assert (Hsize : (size (backup_files h w') <= size (backup_files h w1) + 1)%nat).
  { pose proof (subseteq_size _ _ Hnew) as Hs. rewrite size_union_alt in Hs.
    assert (Hone : (size ({[bck_path h (clock w)]} ∖ backup_files h w1) <= 1)%nat).
    { rewrite <- (size_singleton (C := gset Path) (bck_path h (clock w))).
      apply subseteq_size. set_solver. }
    lia. }
  split; [|split].
  - intros Hle.
    destruct (Z_lt_le_dec (Z.of_nat (size (backup_files h w))) (__backups h)) as [Hlt|Hge].
    + rewrite (evict_keep h w Hlt) in Ev. injection Ev as <-. lia.
    + destruct (evict_oldest h w w1 Hge Ev) as (oldest & Hin & _ & ->).
      assert (Hdel : backup_files h (mkWorld (delete oldest (fs w)) (umask w) (clock w)
                                             (trace w))
                     = backup_files h w ∖ {[oldest]}).
      { apply set_eq. intros p. rewrite elem_of_difference, !backup_files_spec. simpl.
        rewrite dom_delete_L. set_solver. }
      rewrite Hdel in Hsize.
      rewrite size_difference in Hsize by set_solver.
      rewrite size_singleton in Hsize.
      assert (size (backup_files h w) <> 0%nat).
      { intros Hz. apply size_empty_inv in Hz. set_solver. }
      lia.
  - intros Hge. destruct (evict_oldest h w w1 Hge Ev) as (oldest & Hin & Hmin & ->).
    exists oldest. split; [exact Hin|]. split; [exact Hmin|]. split.
    + intros Hne Hd. apply Hsup in Hd. simpl in Hd. rewrite dom_delete_L in Hd.
      assert (oldest <> database h).
      { intros ->. exact (database_not_in_backups h w Hin). }
      set_solver.
    + intros q Hq Hne. apply Hold. apply backup_files_spec in Hq as [HB Hd].
      apply backup_files_spec. split; [exact HB|]. simpl. rewrite dom_delete_L.
      set_solver.
  - intros Hlt. rewrite (evict_keep h w Hlt) in Ev. injection Ev as <-.
    intros p Hp. apply Hold, Hp.
Qed.

End Retention.

(** C4, as stated, fails in a directory that already holds more than N
    backups: with a retention count of 1 and three backups present,
    [backup_create] removes one, writes one and returns with three. *)
Lemma C4_crowded_counterexample :
  let h := Sample.handler 1 in
  let run := backup_create Sample.engine h Sample.crowded in
  fst run = Ok tt /\ __backups h = 1 /\
  size (backup_files h Sample.crowded) = 3%nat /\
  size (backup_files h (snd run)) = 3%nat /\
  ~ (Z.of_nat (size (backup_files h (snd run))) <= __backups h).
Proof.
  cbv zeta.
  assert (H : size (backup_files (Sample.handler 1)
                      (snd (backup_create Sample.engine (Sample.handler 1) Sample.crowded)))
              = 3%nat) by (vm_compute; reflexivity).
  split; [vm_compute; reflexivity|]. split; [reflexivity|].
  split; [vm_compute; reflexivity|]. split; [exact H|].
  rewrite H. vm_compute. intros Hle. apply Hle. reflexivity.
Qed.

Lemma C4_retention_witness :
  let h := Sample.handler 3 in
  let w' := snd (backup_create Sample.engine h Sample.crowded) in
  PathLib.glob_literal (name (database h)) = true /\
  backup_create Sample.engine h Sample.crowded = (Ok tt, w') /\
  Z.of_nat (size (backup_files h Sample.crowded)) <= __backups h /\
  __backups h <= Z.of_nat (size (backup_files h Sample.crowded)) /\
  Z.of_nat (size (backup_files h w')) <= __backups h /\
  exists oldest,
    oldest ∈ backup_files h Sample.crowded /\
    (forall q, q ∈ backup_files h Sample.crowded ->
               String.leb (name oldest) (name q) = true) /\
    (oldest <> bck_path h (clock Sample.crowded) -> oldest ∉ dom (fs w')) /\
    (forall q, q ∈ backup_files h Sample.crowded -> q <> oldest ->
               q ∈ backup_files h w').
Proof.
  cbv zeta.
  assert (Hrun : backup_create Sample.engine (Sample.handler 3) Sample.crowded
                 = (Ok tt, snd (backup_create Sample.engine (Sample.handler 3)
                                              Sample.crowded)))
    by (vm_compute; reflexivity).
  assert (Hle : Z.of_nat (size (backup_files (Sample.handler 3) Sample.crowded))
                <= __backups (Sample.handler 3)) by (vm_compute; discriminate).
  assert (Hge : __backups (Sample.handler 3)
                <= Z.of_nat (size (backup_files (Sample.handler 3) Sample.crowded)))
    by (vm_compute; discriminate).
  destruct (C4_retention Sample.engine (Sample.handler 3) Sample.crowded _ eq_refl Hrun)
    as (Hcount & Hevict & _).
  split; [reflexivity|]. split; [exact Hrun|]. split; [exact Hle|]. split; [exact Hge|].
  split; [exact (Hcount Hle) | exact (Hevict Hge)].
Defined.

Lemma C10_retention_zero_witness :
  let h := Sample.handler 0 in
  PathLib.glob_literal (name (database h)) = true /\
  backups h = 0 /\ backup_files h Sample.fresh = ∅ /\
  backup_create Sample.engine h Sample.fresh = (Raise IndexError, Sample.fresh).
Proof.
  cbv zeta.
  assert (He : backup_files (Sample.handler 0) Sample.fresh = ∅)
    by (vm_compute; reflexivity).
  split; [reflexivity|]. split; [reflexivity|]. split; [exact He|].
  exact (proj1 (C10_retention_zero Sample.engine (Sample.handler 0) Sample.fresh eq_refl)
           eq_refl He).
Defined.

(** * Further properties *)

(** ** The connection discipline *)

Ltac world_simpl :=
  repeat match goal with
         | |- context [fs (mkWorld ?a ?b ?c ?d)] => change (fs (mkWorld a b c d)) with a
         | |- context [trace (mkWorld ?a ?b ?c ?d)] =>
             change (trace (mkWorld a b c d)) with d
         | |- context [umask (mkWorld ?a ?b ?c ?d)] =>
             change (umask (mkWorld a b c d)) with b
         | |- context [clock (mkWorld ?a ?b ?c ?d)] =>
             change (clock (mkWorld a b c d)) with c
         end.

Section Discipline.

Context {Content : Type} (engine : Engine Content).

Lemma connect_cases (p : Path) (w : world Content) :
  exists w1 : world Content,
    trace w1 = trace w ++ [EvConnect p] /\
    (connect engine p w = (Ok p, w1) \/
     (connect engine p w = (Raise OperationalError, w1) /\
      exists e, fs w !! p = Some e /\ S_ISDIR (st_mode e) = true)).
Proof.
  unfold connect, bind, log. simpl.
  destruct (fs w !! p) as [e|] eqn:E; [destruct (S_ISDIR (st_mode e)) eqn:D|].
  - eexists. split; [|right; split; [reflexivity|exists e; split; [reflexivity|exact D]]].
    reflexivity.
  - eexists. split; [|left; reflexivity]. reflexivity.
  - eexists. split; [|left; reflexivity]. reflexivity.
Qed.

Lemma execute_cases (conn : Path) (sql : string) (w : world Content) :
  exists w1 : world Content,
    trace w1 = trace w ++ [EvExecute conn sql] /\
    ((exists rows, execute engine conn sql w = (Ok rows, w1)) \/
     execute engine conn sql w = (Raise OperationalError, w1)).
Proof.
  cbv beta iota zeta delta [execute bind log get_fs update_data set_fs ret raise].
  world_simpl.
  destruct (fs w !! conn) as [e|] eqn:E;
    [destruct (eng_exec engine (data e) sql) as [[c rows]|]|];
    cbv beta iota; world_simpl; rewrite ?E; cbv beta iota.
  - eexists. split; [|left; eexists; reflexivity]. reflexivity.
  - eexists. split; [|right; reflexivity]. reflexivity.
  - eexists. split; [|right; reflexivity]. reflexivity.
Qed.

Lemma commit_spec (conn : Path) (w : world Content) :
  exists w1 : world Content,
    commit engine conn w = (Ok tt, w1) /\ trace w1 = trace w ++ [EvCommit conn].
Proof.
  cbv beta iota zeta delta [commit bind log get_fs update_data set_fs ret].
  world_simpl.
  destruct (fs w !! conn); cbv beta iota; eexists; split; reflexivity.
Qed.

Lemma rollback_spec (conn : Path) (w : world Content) :
  exists w1 : world Content,
    rollback engine conn w = (Ok tt, w1) /\ trace w1 = trace w ++ [EvRollback conn].
Proof.
  cbv beta iota zeta delta [rollback bind log get_fs update_data set_fs ret].
  world_simpl.
  destruct (fs w !! conn); cbv beta iota; eexists; split; reflexivity.
Qed.

Lemma statements_cons_ok (conn : Path) (sql : string) (l : list string)
    (w w1 : world Content) (rows : Query) :
  execute engine conn sql w = (Ok rows, w1) ->
  for_each (sql :: l) (fun sql => bind (execute engine conn sql) (fun _ => ret tt)) w
  = for_each l (fun sql => bind (execute engine conn sql) (fun _ => ret tt)) w1.
Proof. intros H. simpl. unfold bind at 1 2. rewrite H. reflexivity. Qed.

Lemma statements_cons_raise (conn : Path) (sql : string) (l : list string)
    (w w1 : world Content) (e : exn) :
  execute engine conn sql w = (Raise e, w1) ->
  for_each (sql :: l) (fun sql => bind (execute engine conn sql) (fun _ => ret tt)) w
  = (Raise e, w1).
Proof. intros H. simpl. unfold bind at 1 2. rewrite H. reflexivity. Qed.

(** A run of statements stops at the first one the engine refuses. *)
Lemma statements_run (conn : Path) (l : list string) (w : world Content) :
  exists (sent rest : list string) (w1 : world Content),
    l = sent ++ rest /\
    trace w1 = trace w ++ map (EvExecute conn) sent /\
    ((for_each l (fun sql => bind (execute engine conn sql) (fun _ => ret tt)) w
      = (Ok tt, w1) /\ rest = []) \/
     (for_each l (fun sql => bind (execute engine conn sql) (fun _ => ret tt)) w
      = (Raise OperationalError, w1) /\ sent <> [])).
Proof.
  revert w. induction l as [|sql l IH]; intros w.
  - exists [], [], w. simpl. rewrite app_nil_r. repeat split. left. split; reflexivity.
  - destruct (execute_cases conn sql w) as (w1 & Ht & [[rows Hx]|Hx]).
    + rewrite (statements_cons_ok conn sql l w w1 rows Hx).
      destruct (IH w1) as (sent & rest & w2 & Hl & Ht2 & Hcase).
      exists (sql :: sent), rest, w2. split; [rewrite Hl; reflexivity|]. split.
      * rewrite Ht2, Ht, <- app_assoc. reflexivity.
      * destruct Hcase as [[H Hr]|[H _]]; [left | right]; (split; [exact H|]);
          [exact Hr | discriminate].
    + rewrite (statements_cons_raise conn sql l w w1 _ Hx).
      exists [sql], l, w1. split; [reflexivity|]. split; [exact Ht|].
      right. split; [reflexivity | discriminate].
Qed.

Lemma for_each_app {A} (l1 l2 : list A) (body : A -> M (Content := Content) unit)
    (w : world Content) :
  bind (for_each l1 body) (fun _ => for_each l2 body) w = for_each (l1 ++ l2) body w.
Proof.
  revert w. induction l1 as [|x l1 IH]; intros w; simpl.
  - reflexivity.
  - unfold bind at 1 2 3.
    destruct (body x w) as [[[]|e] w1]; [|reflexivity]. apply IH.
Qed.

Lemma _execute_cases (h : Handler) (sqls : one_or_many string) (w : world Content) :
  exists (r : result unit) (w' : world Content),
    _execute engine h sqls w = (r, w') /\
    ((r = Raise OperationalError /\
      trace w' = trace w ++ [EvConnect (database h)] /\
      exists e, fs w !! database h = Some e /\ S_ISDIR (st_mode e) = true)
     \/
     exists sent rest : list string,
       pragmas ++ as_list sqls = sent ++ rest /\
       ((r = Ok tt /\ rest = [] /\
         trace w' = trace w ++ EvConnect (database h) ::
                    map (EvExecute (database h)) sent ++
                    [EvCommit (database h); EvClose (database h)])
        \/
        (r = Raise OperationalError /\ sent <> [] /\
         trace w' = trace w ++ EvConnect (database h) ::
                    map (EvExecute (database h)) sent ++
                    [EvRollback (database h); EvClose (database h)]))).
Proof.
  unfold _execute, closing, __database. cbv zeta. unfold bind at 1.
  destruct (connect_cases (database h) w) as (w1 & Ht1 & [Hc|[Hc (e & He & Hd)]]);
    rewrite Hc; cbv beta iota.
  - unfold finally, transaction, _conn_run.
    rewrite (for_each_app pragmas (as_list sqls)
               (fun sql => bind (execute engine (database h) sql) (fun _ => ret tt)) w1).
    destruct (statements_run (database h) (pragmas ++ as_list sqls) w1)
      as (sent & rest & w2 & Hl & Ht2 & [[Hr Hrest]|[Hr Hne]]); rewrite Hr; cbv iota;
      unfold bind.
    + destruct (commit_spec (database h) w2) as (w3 & Hcm & Ht3). rewrite Hcm.
      eexists. eexists. split; [reflexivity|]. right.
      exists sent, rest. split; [exact Hl|]. left.
      split; [reflexivity|]. split; [exact Hrest|]. simpl.
      rewrite Ht3, Ht2, Ht1, <- !app_assoc. reflexivity.
    + destruct (rollback_spec (database h) w2) as (w3 & Hrb & Ht3). rewrite Hrb.
      eexists. eexists. split; [reflexivity|]. right.
      exists sent, rest. split; [exact Hl|]. right.
      split; [reflexivity|]. split; [exact Hne|]. simpl.
      rewrite Ht3, Ht2, Ht1, <- !app_assoc. reflexivity.
  - eexists. eexists. split; [reflexivity|]. left.
    split; [reflexivity|]. split; [exact Ht1|]. exists e. split; assumption.
Qed.


End Discipline.

Section Queries.

Context {Content : Type} (engine : Engine Content).

Lemma _fetch_cases (h : Handler) (sql : string) (n : Z) (w : world Content) :
  let db := database h in
  let full := trace w ++ EvConnect db :: map (EvExecute db) pragmas ++
              [EvCommit db; EvExecute db sql; EvClose db] in
  exists (r : result Query) (w' : world Content),
    _fetch engine h sql n w = (r, w') /\
    ((r = Raise OperationalError /\ trace w' = trace w ++ [EvConnect db] /\
      exists e, fs w !! db = Some e /\ S_ISDIR (st_mode e) = true)
     \/
     (exists sent rest : list string,
        pragmas = sent ++ rest /\ sent <> [] /\ r = Raise OperationalError /\
        trace w' = trace w ++ EvConnect db :: map (EvExecute db) sent ++
                   [EvRollback db; EvClose db])
     \/
     (r = Raise OperationalError /\ trace w' = full)
     \/
     (r = Raise OverflowError /\ trace w' = full /\
      ((or_minus_one n <? - 2 ^ 31) || (2 ^ 31 <=? or_minus_one n)) = true)
     \/
     (exists rows, r = Ok (fetchmany_loop (or_minus_one n) 0 rows) /\ trace w' = full /\
      ((or_minus_one n <? - 2 ^ 31) || (2 ^ 31 <=? or_minus_one n)) = false)).
Proof.
  cbv zeta. unfold _fetch, closing, __database. unfold bind at 1.
  destruct (connect_cases engine (database h) w) as (w1 & Ht1 & [Hc|[Hc (e & He & Hd)]]);
    rewrite Hc; cbv beta iota.
  - unfold finally, transaction, _conn_run. unfold bind at 1.
    destruct (statements_run engine (database h) pragmas w1)
      as (sent & rest & w2 & Hl & Ht2 & [[Hr Hrest]|[Hr Hne]]); rewrite Hr; cbv iota.
    + subst rest. rewrite app_nil_r in Hl. subst sent. unfold bind at 1.
      destruct (commit_spec engine (database h) w2) as (w3 & Hcm & Ht3). rewrite Hcm.
      unfold ret at 1. cbv beta iota. unfold bind at 1.
      destruct (execute_cases engine (database h) sql w3) as (w4 & Ht4 & [[rows Hx]|Hx]);
        rewrite Hx; cbv beta iota.
      * unfold fetchmany.
        destruct ((or_minus_one n <? - 2 ^ 31) || (2 ^ 31 <=? or_minus_one n)) eqn:En;
          simpl; eexists; eexists; (split; [reflexivity|]); right; right; right.
        -- left. split; [reflexivity|]. split; [|reflexivity].
           simpl. rewrite Ht4, Ht3, Ht2, Ht1, <- !app_assoc. reflexivity.
        -- right. exists rows. split; [reflexivity|]. split; [|reflexivity].
           simpl. rewrite Ht4, Ht3, Ht2, Ht1, <- !app_assoc. reflexivity.
      * simpl. eexists. eexists. split; [reflexivity|]. right. right. left.
        split; [reflexivity|].
        simpl. rewrite Ht4, Ht3, Ht2, Ht1, <- !app_assoc. reflexivity.
    + unfold bind at 1.
      destruct (rollback_spec engine (database h) w2) as (w3 & Hrb & Ht3). rewrite Hrb.
      unfold raise at 1. cbv beta iota. simpl.
      eexists. eexists. split; [reflexivity|]. right. left.
      exists sent, rest. split; [exact Hl|]. split; [exact Hne|].
      split; [reflexivity|].
      simpl. rewrite Ht3, Ht2, Ht1, <- !app_assoc. reflexivity.
  - eexists. eexists. split; [reflexivity|]. left.
    split; [reflexivity|]. split; [exact Ht1|]. exists e. split; assumption.
Qed.

(** [_fetch]: a query that returns rows has sent, in this order, the three
    pragmas, the commit of their scope, the statement, and the close of the
    connection; nothing is committed after the statement.  A limit that does
    not fit a C [int] raises [OverflowError] only after the statement has
    been executed.  Whenever the connection was opened it is closed. *)
Theorem _fetch_discipline (h : Handler) (sql : string) (n : Z) (w : world Content) :
  let run := _fetch engine h sql n w in
  let db := database h in
  let full := trace w ++ EvConnect db :: map (EvExecute db) pragmas ++
              [EvCommit db; EvExecute db sql; EvClose db] in
  (forall out, fst run = Ok out -> trace (snd run) = full) /\
  (fst run = Raise OverflowError ->
   trace (snd run) = full /\ ~ (- 2 ^ 31 <= or_minus_one n < 2 ^ 31)) /\
  ((trace (snd run) = trace w ++ [EvConnect db] /\
    exists e, fs w !! db = Some e /\ S_ISDIR (st_mode e) = true)
   \/ exists mid, trace (snd run) = trace w ++ EvConnect db :: mid ++ [EvClose db]).
Proof.
  cbv zeta. destruct (_fetch_cases h sql n w) as (r & w' & Hrun & Hcases).
  cbv zeta in Hcases. rewrite Hrun. simpl.
  destruct Hcases as [(-> & Ht & Hd)|[(sent & rest & Hl & Hne & -> & Ht)
                     |[(-> & Ht)|[(-> & Ht & Hn)|(rows & -> & Ht & Hn)]]]].
  - split; [discriminate|]. split; [discriminate|]. left. split; assumption.
  - split; [discriminate|]. split; [discriminate|]. right.
    exists (map (EvExecute (database h)) sent ++ [EvRollback (database h)]).
    rewrite Ht, <- app_assoc. reflexivity.
  - split; [discriminate|]. split; [discriminate|]. right.
    exists (map (EvExecute (database h)) pragmas ++
            [EvCommit (database h); EvExecute (database h) sql]).
    rewrite Ht, <- app_assoc. reflexivity.
  - split; [discriminate|]. split.
    + intros _. split; [exact Ht|]. intros [H1 H2].
      apply orb_prop in Hn. destruct Hn as [Hn|Hn]; [apply Z.ltb_lt in Hn | apply Z.leb_le in Hn]; lia.
    + right.
      exists (map (EvExecute (database h)) pragmas ++
              [EvCommit (database h); EvExecute (database h) sql]).
      rewrite Ht, <- app_assoc. reflexivity.
  - split; [intros _ _; exact Ht|]. split; [discriminate|]. right.
    exists (map (EvExecute (database h)) pragmas ++
            [EvCommit (database h); EvExecute (database h) sql]).
    rewrite Ht, <- app_assoc. reflexivity.
Qed.

(** [_fetch]: every negative limit that fits a C [int] returns all the rows
    of the cursor, as the limit 0 does; a limit outside the range of a C
    [int] raises [OverflowError]. *)
Theorem _fetch_other_limits (h : Handler) (sql : string) (w w1 : world Content)
    (rows : Query) :
  cursor_rows engine h sql w = (Ok rows, w1) ->
  (forall n, - 2 ^ 31 <= n < 0 -> fst (_fetch engine h sql n w) = Ok rows) /\
  (forall n, n < - 2 ^ 31 \/ 2 ^ 31 <= n ->
             fst (_fetch engine h sql n w) = Raise OverflowError).
Proof.
  intros H. split; intros n Hn; rewrite (_fetch_cursor engine h sql n w w1 rows H);
    unfold or_minus_one, fetchmany; destruct (Z.eqb_spec n 0); try lia.
  - destruct (Z.ltb_spec n (- 2 ^ 31)); [lia|].
    destruct (Z.leb_spec (2 ^ 31) n); [lia|]. simpl.
    rewrite fetchmany_loop_all by lia. reflexivity.
  - destruct (Z.ltb_spec n (- 2 ^ 31)); [reflexivity|].
    destruct (Z.leb_spec (2 ^ 31) n); [reflexivity | lia].
Qed.

End Queries.

Lemma _fetch_other_limits_witness :
  fst (cursor_rows Sample.engine (Sample.handler 3) "SELECT * FROM t;" Sample.fresh)
  = Ok Sample.rows /\
  fst (_fetch Sample.engine (Sample.handler 3) "SELECT * FROM t;" (-5) Sample.fresh)
  = Ok Sample.rows /\
  fst (_fetch Sample.engine (Sample.handler 3) "SELECT * FROM t;" (2 ^ 31) Sample.fresh)
  = Raise OverflowError.
Proof.
  assert (H : cursor_rows Sample.engine (Sample.handler 3) "SELECT * FROM t;" Sample.fresh
              = (Ok Sample.rows,
                 snd (cursor_rows Sample.engine (Sample.handler 3) "SELECT * FROM t;"
                                  Sample.fresh))) by (vm_compute; reflexivity).
  split; [rewrite H; reflexivity|].
  destruct (_fetch_other_limits Sample.engine (Sample.handler 3) _ Sample.fresh _
              Sample.rows H) as [Hneg Hbig].
  split; [apply Hneg; lia | apply Hbig; lia].
Defined.

(** ** The statements the mutators send *)

Lemma statements_executes (p : Path) (l : list string) :
  statements (map (EvExecute p) l) = l.
Proof. induction l as [|sql l IH]; simpl; [reflexivity | rewrite IH; reflexivity]. Qed.

Section Mutators.

Context {Content : Type} (engine : Engine Content).

Lemma _execute_returns (h : Handler) (sqls : one_or_many string) (w w' : world Content) :
  _execute engine h sqls w = (Ok tt, w') ->
  trace w' = trace w ++ committed h (as_list sqls).
Proof.
  intros Hrun. destruct (_execute_cases engine h sqls w) as (r & w0 & Hrun' & Hcases).
  rewrite Hrun in Hrun'. injection Hrun' as <- <-.
  destruct Hcases as [(Hr & _)|(sent & rest & Hl & [(_ & -> & Ht)|(Hr & _)])];
    try discriminate Hr.
  rewrite app_nil_r in Hl. unfold committed. rewrite Ht, Hl. reflexivity.
Qed.

Lemma statements_committed (h : Handler) (sqls : list string) :
  statements (committed h sqls) = pragmas ++ sqls.
Proof.
  unfold committed.
  change (statements (map (EvExecute (database h)) (pragmas ++ sqls) ++
                      [EvCommit (database h); EvClose (database h)]) = pragmas ++ sqls).
  rewrite statements_app, statements_executes.
  change (statements [EvCommit (database h); EvClose (database h)]) with (@nil string).
  apply app_nil_r.
Qed.

(** [row_update], [row_delete] and [col_create], given non-empty
    arguments, send one statement after the pragmas when they return:
    connect, three pragmas, the statement, commit, close; for [col_create]
    the type name is taken to be ASCII, where [upper] is [str.upper].
    [col_create] does nothing when the column name or the type is empty. *)
Theorem single_statement_mutators (h : Handler) (w w' : world Content) :
  (forall table data where_,
     table <> "" -> data <> [] ->
     row_update engine h table data where_ w = (Ok tt, w') ->
     trace w' = trace w ++ committed h [row_update_sql table data where_]) /\
  (forall table where_,
     table <> "" ->
     row_delete engine h table where_ w = (Ok tt, w') ->
     trace w' = trace w ++ committed h [row_delete_sql table where_]) /\
  (forall table col sql_type dflt,
     table <> "" -> col <> "" -> sql_type <> "" -> Rows.isascii sql_type = true ->
     col_create engine h table col sql_type dflt w = (Ok tt, w') ->
     trace w' = trace w ++ committed h [col_create_sql table col sql_type dflt]) /\
  (forall table col sql_type dflt,
     col = "" \/ sql_type = "" ->
     col_create engine h table col sql_type dflt w = (Ok tt, w)).
Proof.
  split; [|split; [|split]].
  - intros table data where_ Ht Hd. apply String.eqb_neq in Ht.
    unfold row_update. rewrite Ht. destruct data; [contradiction|]. simpl.
    apply _execute_returns.
  - intros table where_ Ht. apply String.eqb_neq in Ht.
    unfold row_delete. rewrite Ht. apply _execute_returns.
  - intros table col sql_type dflt Ht Hc Hs _.
    apply String.eqb_neq in Ht. apply String.eqb_neq in Hc. apply String.eqb_neq in Hs.
    unfold col_create. rewrite Ht, Hc, Hs. simpl. apply _execute_returns.
  - intros table col sql_type dflt [-> | ->]; unfold col_create.
    + rewrite andb_false_r. reflexivity.
    + rewrite andb_false_r. reflexivity.
Qed.

(** [row_insert], when it returns, has sent after the pragmas one [INSERT]
    for each non-empty row of the batch, in the order of the batch, and no
    other statement; empty rows are skipped. *)
Theorem row_insert_statements (h : Handler) (table : string) (data : one_or_many Pair)
    (ignore : bool) (w w' : world Content) :
  table <> "" ->
  row_insert engine h table data ignore w = (Ok tt, w') ->
  exists evs : list event,
    trace w' = trace w ++ evs /\
    statements evs
    = pragmas ++ map (fun row => _row_insert row ignore table)
                     (List.filter (fun row => negb (is_empty row)) (as_list data)).
Proof.
  intros Ht. apply String.eqb_neq in Ht. unfold row_insert. rewrite Ht. cbv zeta.
  unfold bind at 1.
  destruct (threshold h <? Z.of_nat (length (as_list data))); unfold when.
  - destruct (runs_backup_create engine not_execute any_exn h (fun ev H => H) I I I I w)
      as (pre & Hpre & Hall & _).
    destruct (backup_create engine h w) as [[[]|e] wb]; [|discriminate].
    simpl in Hpre. intros Hrun. apply _execute_returns in Hrun.
    eexists. split; [rewrite Hrun, Hpre, <- app_assoc; reflexivity|].
    rewrite statements_app, (not_execute_statements pre Hall), statements_committed.
    reflexivity.
  - unfold ret. intros Hrun. apply _execute_returns in Hrun.
    eexists. split; [exact Hrun|]. apply statements_committed.
Qed.

(** [table_drop] has no early return: it always attempts a connection, even
    when every name is empty.  When it returns it has sent after the pragmas
    one [DROP TABLE IF EXISTS] for each non-empty name, in order. *)
Theorem table_drop_statements (h : Handler) (tables : one_or_many string)
    (w : world Content) :
  (exists evs : list event,
     trace (snd (table_drop engine h tables w)) = trace w ++ EvConnect (database h) :: evs)
  /\
  (forall w', table_drop engine h tables w = (Ok tt, w') ->
     trace w' = trace w ++
       committed h (map _table_drop
                        (List.filter (fun t => negb (String.eqb t "")) (as_list tables)))).
Proof.
  unfold table_drop. cbv zeta. split.
  - match goal with
    | |- context [_execute engine h ?sqls w] =>
        destruct (_execute_cases engine h sqls w) as (r & w0 & Hrun & Hcases)
    end.
    rewrite Hrun. simpl.
    destruct Hcases as [(_ & Ht & _)|(sent & rest & _ & [(_ & _ & Ht)|(_ & _ & Ht)])];
      rewrite Ht; eexists; reflexivity.
  - intros w' Hrun. apply _execute_returns in Hrun. exact Hrun.
Qed.

End Mutators.

Lemma single_statement_mutators_witness :
  let h := Sample.handler 3 in
  "t" <> "" /\
  trace (snd (row_delete Sample.engine h "t" None Sample.fresh))
  = trace Sample.fresh ++ committed h ["DELETE FROM t ;"] /\
  col_create Sample.engine h "t" "" "integer" VNone Sample.fresh = (Ok tt, Sample.fresh) /\
  Rows.isascii "integer" = true /\
  trace (snd (col_create Sample.engine h "t" "c" "integer" VNone Sample.fresh))
  = trace Sample.fresh ++ committed h ["ALTER TABLE t ADD COLUMN c INTEGER ;"].
Proof.
  cbv zeta.
  assert (Ht : "t" <> "") by discriminate.
  assert (Hrun : row_delete Sample.engine (Sample.handler 3) "t" None Sample.fresh
                 = (Ok tt, snd (row_delete Sample.engine (Sample.handler 3) "t" None
                                           Sample.fresh))) by (vm_compute; reflexivity).
  destruct (single_statement_mutators Sample.engine (Sample.handler 3) Sample.fresh
              (snd (row_delete Sample.engine (Sample.handler 3) "t" None Sample.fresh)))
    as (_ & Hdel & _ & Hcol).
  split; [exact Ht|]. split; [exact (Hdel "t" None Ht Hrun)|].
  split; [apply Hcol; left; reflexivity|]. split; [reflexivity|].
  assert (Hadd : col_create Sample.engine (Sample.handler 3) "t" "c" "integer" VNone
                            Sample.fresh
                 = (Ok tt, snd (col_create Sample.engine (Sample.handler 3) "t" "c"
                                           "integer" VNone Sample.fresh)))
    by (vm_compute; reflexivity).
  destruct (single_statement_mutators Sample.engine (Sample.handler 3) Sample.fresh
              (snd (col_create Sample.engine (Sample.handler 3) "t" "c" "integer" VNone
                               Sample.fresh)))
    as (_ & _ & Hadd' & _).
  exact (Hadd' "t" "c" "integer" VNone Ht ltac:(discriminate) ltac:(discriminate)
               eq_refl Hadd).
Defined.

Lemma row_insert_statements_witness :
  let h := Sample.handler 3 in
  let data : one_or_many Pair := Many [[("a", VInt 1); ("b", VInt 2)]; []] in
  "t" <> "" /\
  exists evs : list event,
    trace (snd (row_insert Sample.engine h "t" data false Sample.fresh))
    = trace Sample.fresh ++ evs /\
    statements evs = pragmas ++ ["INSERT INTO t ('a', 'b') VALUES (1, 2);"].
Proof.
  cbv zeta.
  assert (Ht : "t" <> "") by discriminate.
  split; [exact Ht|].
  apply (row_insert_statements Sample.engine (Sample.handler 3) "t"
           (Many [[("a", VInt 1); ("b", VInt 2)]; []]) false Sample.fresh _ Ht).
  vm_compute. reflexivity.
Defined.

Lemma table_drop_statements_witness :
  let h := Sample.handler 3 in
  trace (snd (table_drop Sample.engine h (Many ["a"; ""; "b"]) Sample.fresh))
  = trace Sample.fresh ++
    committed h ["DROP TABLE IF EXISTS a;"; "DROP TABLE IF EXISTS b;"].
Proof.
  cbv zeta.
  apply (proj2 (table_drop_statements Sample.engine (Sample.handler 3)
                  (Many ["a"; ""; "b"]) Sample.fresh)).
  vm_compute. reflexivity.
Defined.

(** ** The files an operation leaves alone *)

Section Frames.

Context {Content : Type} (engine : Engine Content) (S : gset Path).

Local Abbreviation M := (@M Content).

Lemma frames_silent {A} (m : M A) :
  (forall w, fs (snd (m w)) = fs w) -> frames S m.
Proof. intros H w p _. rewrite H. reflexivity. Qed.

Lemma frames_bind {A B} (m : M A) (k : A -> M B) :
  frames S m -> (forall a, frames S (k a)) -> frames S (bind m k).
Proof.
  intros Hm Hk w p Hp. unfold bind. specialize (Hm w p Hp).
  destruct (m w) as [[a|e] w1]; simpl in *; [|exact Hm].
  rewrite (Hk a w1 p Hp). exact Hm.
Qed.

Lemma frames_finally {A} (body : M A) (cleanup : M unit) :
  frames S body -> frames S cleanup -> frames S (finally body cleanup).
Proof.
  intros Hb Hc w p Hp. unfold finally. specialize (Hb w p Hp).
  destruct (body w) as [r w1]; simpl in *. specialize (Hc w1 p Hp).
  destruct (cleanup w1) as [[[]|e] w2]; simpl in *; rewrite Hc; exact Hb.
Qed.

Lemma frames_log (ev : event) : frames S (log (Content := Content) ev).
Proof. apply frames_silent. reflexivity. Qed.

Lemma frames_update_data (conn : Path) (g : Content -> Content) :
  conn ∈ S -> frames S (update_data conn g).
Proof.
  intros Hc w p Hp. unfold update_data, bind, get_fs, set_fs, ret. simpl.
  destruct (fs w !! conn) as [e|]; simpl; [|reflexivity].
  apply lookup_insert_ne. intros ->. exact (Hp Hc).
Qed.

Lemma frames_connect (p : Path) : p ∈ S -> frames S (connect engine p).
Proof.
  intros Hin w q Hq. unfold connect, bind, log. simpl.
  destruct (fs w !! p) as [e|]; [destruct (S_ISDIR (st_mode e))|]; simpl;
    try reflexivity.
  apply lookup_insert_ne. intros ->. exact (Hq Hin).
Qed.

Lemma connect_returns (p c : Path) (w w1 : world Content) :
  connect engine p w = (Ok c, w1) -> c = p.
Proof.
  unfold connect, bind, log. simpl.
  destruct (fs w !! p) as [e|]; [destruct (S_ISDIR (st_mode e))|]; simpl;
    intros [= <- _]; reflexivity.
Qed.

Lemma frames_commit (conn : Path) : conn ∈ S -> frames S (commit engine conn).
Proof.
  intros Hc. apply frames_bind; [apply frames_log|]. intros _.
  apply frames_update_data, Hc.
Qed.

Lemma frames_rollback (conn : Path) : conn ∈ S -> frames S (rollback engine conn).
Proof.
  intros Hc. apply frames_bind; [apply frames_log|]. intros _.
  apply frames_update_data, Hc.
Qed.

Lemma frames_transaction {A} (conn : Path) (body : M A) :
  conn ∈ S -> frames S body -> frames S (transaction engine conn body).
Proof.
  intros Hc Hb w p Hp. unfold transaction. specialize (Hb w p Hp).
  destruct (body w) as [[a|e] w1]; simpl in *.
  - rewrite (frames_bind _ (fun _ => ret a) (frames_commit conn Hc)
               (fun _ => frames_silent (ret a) (fun _ => eq_refl)) w1 p Hp).
    exact Hb.
  - rewrite (frames_bind _ (fun _ => raise (A := A) e) (frames_rollback conn Hc)
               (fun _ => frames_silent (raise e) (fun _ => eq_refl)) w1 p Hp).
    exact Hb.
Qed.

Lemma frames_closing {A} (p : Path) (body : Path -> M A) :
  p ∈ S -> frames S (body p) -> frames S (closing engine p body).
Proof.
  intros Hin Hb w q Hq. unfold closing, bind.
  pose proof (frames_connect p Hin w q Hq) as Hc.
  destruct (connect engine p w) as [[c|e] w1] eqn:E; simpl in *; [|exact Hc].
  apply connect_returns in E. subst c.
  transitivity (fs w1 !! q); [|exact Hc].
  exact (frames_finally (body p) (close p) Hb (frames_log (EvClose p)) w1 q Hq).
Qed.

Lemma frames_backup (src dst : Path) :
  dst ∈ S -> frames S (backup (Content := Content) src dst).
Proof.
  intros Hd. unfold backup. apply frames_bind; [apply frames_log|]. intros _.
  apply frames_bind; [apply frames_silent; reflexivity|]. intros f.
  destruct (f !! src); [apply frames_update_data, Hd | apply frames_silent; reflexivity].
Qed.

End Frames.

(** ** What a backup holds *)

Ltac fs_step E1 E2 :=
  repeat first
    [ rewrite lookup_insert_eq
    | rewrite lookup_insert_ne by congruence
    | rewrite E1
    | rewrite E2
    | progress cbv beta iota
    | progress world_simpl ].

Lemma fnmatch_refl (s : string) : PathLib.fnmatch s s = true.
Proof.
  induction s as [|c s IH]; [reflexivity|].
  destruct (Ascii.eqb_spec c "*") as [->|Hne].
  - rewrite fnmatch_star. apply orb_true_intro. right.
    rewrite fnmatch_star, IH. reflexivity.
  - simpl. apply Ascii.eqb_neq in Hne. rewrite Hne, Ascii.eqb_refl, orb_true_r. exact IH.
Qed.

Lemma fnmatch_prefix (a pat nm : string) :
  PathLib.fnmatch pat nm = true -> PathLib.fnmatch (a +:+ pat) (a +:+ nm) = true.
Proof.
  intros H. induction a as [|c a IH]; [exact H|].
  change (PathLib.fnmatch (String c (a +:+ pat)) (String c (a +:+ nm)) = true).
  destruct (Ascii.eqb_spec c "*") as [->|Hne].
  - rewrite fnmatch_star. apply orb_true_intro. right.
    rewrite fnmatch_star, IH. reflexivity.
  - simpl. apply Ascii.eqb_neq in Hne. rewrite Hne, Ascii.eqb_refl, orb_true_r. exact IH.
Qed.

Lemma fnmatch_star_skip (t pat nm : string) :
  PathLib.fnmatch pat nm = true -> PathLib.fnmatch (String "*" pat) (t +:+ nm) = true.
Proof.
  intros H. induction t as [|c t IH].
  - change (PathLib.fnmatch (String "*" pat) nm = true).
    rewrite fnmatch_star, H. reflexivity.
  - change (PathLib.fnmatch (String "*" pat) (String c (t +:+ nm)) = true).
    rewrite fnmatch_star, IH. apply orb_true_r.
Qed.

(** The name [backup_create] gives a snapshot matches the pattern
    [backup_list] looks for. *)
Lemma bck_path_matches (h : Handler) (bck_time : string) :
  PathLib.fnmatch (backup_pattern h) (name (bck_path h bck_time)) = true.
Proof.
  unfold backup_pattern, bck_path. simpl name.
  apply fnmatch_prefix.
  change (PathLib.fnmatch
            (String "_" (String "*" (PathLib.suffix (__database h) +:+ ".bak")))
            (String "_" (bck_time +:+ PathLib.suffix (__database h) +:+ ".bak")) = true).
  simpl. apply fnmatch_star_skip, fnmatch_refl.
Qed.

Lemma bck_path_not_database (h : Handler) (bck_time : string) :
  bck_path h bck_time <> database h.
Proof.
  intros E. pose proof (bck_path_matches h bck_time) as Hm. rewrite E in Hm.
  rewrite database_not_backup in Hm. discriminate Hm.
Qed.

Lemma regular_not_directory (mode : Z) : S_ISREG mode = true -> S_ISDIR mode = false.
Proof.
  unfold S_ISREG, S_ISDIR. intros H. apply Z.eqb_eq in H. rewrite H. reflexivity.
Qed.

Lemma created_mode_regular (mask : Z) : S_ISREG (created_mode mask) = true.
Proof.
  unfold S_ISREG, created_mode. apply Z.eqb_eq.
  rewrite Z.land_lor_distr_l.
  rewrite (Z.land_comm 420), <- Z.land_assoc.
  change (Z.land 420 S_IFMT) with 0. rewrite Z.land_0_r. reflexivity.
Qed.

Section Snapshots.

Context {Content : Type} (engine : Engine Content).

(** What [snapshot] leaves at the two paths when it returns. *)
Lemma snapshot_spec (h : Handler) (bck : Path) (w1 w' : world Content) :
  bck <> database h ->
  snapshot engine h bck w1 = (Ok tt, w') ->
  exists fb fd,
    fs w' !! bck = Some fb /\ fs w' !! database h = Some fd /\ data fb = data fd /\
    (fs w1 !! bck = None -> st_mode fb = created_mode (umask w1)) /\
    (forall fb0, fs w1 !! bck = Some fb0 -> st_mode fb = st_mode fb0) /\
    (forall fd0, fs w1 !! database h = Some fd0 ->
       fd = mkFile (st_mode fd0) (eng_commit engine (data fd0))) /\
    (fs w1 !! database h = None ->
       fd = mkFile (created_mode (umask w1)) (eng_commit engine (eng_empty engine))).
Proof.
  intros Hne.
  cbv beta iota zeta delta [snapshot closing __database finally transaction backup commit
    rollback close connect update_data bind log get_fs set_fs ret raise].
  world_simpl.
  destruct (fs w1 !! database h) as [fd0|] eqn:Ed;
    [destruct (S_ISDIR (st_mode fd0)) eqn:Dd|]; fs_step Ed Ed; try discriminate.
  - destruct (fs w1 !! bck) as [fb0|] eqn:Eb;
      [destruct (S_ISDIR (st_mode fb0)) eqn:Db|]; fs_step Ed Eb; try discriminate;
      intros [= <-]; world_simpl; eexists; eexists;
      (split; [rewrite lookup_insert_ne by congruence; rewrite lookup_insert_eq;
               reflexivity|]);
      (split; [rewrite lookup_insert_eq; reflexivity|]);
      (split; [reflexivity|]);
      (split; [intros; try discriminate; reflexivity|]);
      (split; [intros ? [= <-]; reflexivity|]);
      (split; [intros ? [= <-]; reflexivity|]); discriminate.
  - destruct (fs w1 !! bck) as [fb0|] eqn:Eb;
      [destruct (S_ISDIR (st_mode fb0)) eqn:Db|]; fs_step Ed Eb; try discriminate;
      intros [= <-]; world_simpl; eexists; eexists;
      (split; [rewrite lookup_insert_ne by congruence; rewrite lookup_insert_eq;
               reflexivity|]);
      (split; [rewrite lookup_insert_eq; reflexivity|]);
      (split; [reflexivity|]);
      (split; [intros; try discriminate; reflexivity|]);
      (split; [intros ? [= <-]; reflexivity|]);
      (split; [intros ? [=]|]); reflexivity.
Qed.

Lemma frames_snapshot (h : Handler) (bck : Path) :
  frames {[database h; bck]} (snapshot engine h bck).
Proof.
  unfold snapshot, __database.
  apply frames_closing; [set_solver|].
  apply frames_closing; [set_solver|].
  apply frames_transaction; [set_solver|].
  apply frames_transaction; [set_solver|].
  apply frames_backup. set_solver.
Qed.

(** The two outcomes of an [evict] that returns. *)
Lemma evict_cases (h : Handler) (w w1 : world Content) :
  evict h w = (Ok tt, w1) ->
  (Z.of_nat (size (backup_files h w)) < __backups h /\ w1 = w) \/
  (__backups h <= Z.of_nat (size (backup_files h w)) /\
   exists oldest,
     oldest ∈ backup_files h w /\
     (forall q, q ∈ backup_files h w -> PathLib.leb oldest q = true) /\
     w1 = mkWorld (delete oldest (fs w)) (umask w) (clock w) (trace w)).
Proof.
  intros Ev.
  destruct (Z_lt_le_dec (Z.of_nat (size (backup_files h w))) (__backups h)) as [Hlt|Hge].
  - left. split; [exact Hlt|]. rewrite (evict_keep h w Hlt) in Ev. congruence.
  - right. split; [exact Hge|]. exact (evict_oldest h w w1 Hge Ev).
Qed.

Lemma backup_create_steps (h : Handler) (w w' : world Content) :
  backup_create engine h w = (Ok tt, w') ->
  exists w1, evict h w = (Ok tt, w1) /\
             snapshot engine h (bck_path h (clock w)) w1 = (Ok tt, w').
Proof.
  rewrite backup_create_phases. unfold bind.
  destruct (evict h w) as [[[]|e] w1]; [|discriminate].
  intros H. exists w1. split; [reflexivity | exact H].
Qed.

Lemma backup_create_written (h : Handler) (w w' : world Content) :
  backup_create engine h w = (Ok tt, w') ->
  let bck := bck_path h (clock w) in
  exists fb fd,
    fs w' !! bck = Some fb /\ fs w' !! database h = Some fd /\
    data fb = data fd /\
    (fs w !! bck = None -> st_mode fb = created_mode (umask w) /\
                           S_ISREG (st_mode fb) = true) /\
    (forall fd0, fs w !! database h = Some fd0 ->
       fd = mkFile (st_mode fd0) (eng_commit engine (data fd0))).
Proof.
  intros Hrun. cbv zeta.
  destruct (backup_create_steps h w w' Hrun) as (w1 & Ev & Hs).
  pose proof (bck_path_not_database h (clock w)) as Hne.
  destruct (snapshot_spec h _ w1 w' Hne Hs) as (fb & fd & Hb & Hd & Heq & Hnew & _ & Hold & _).
  assert (Hw1 : umask w1 = umask w /\
                fs w1 !! database h = fs w !! database h /\
                (fs w !! bck_path h (clock w) = None ->
                 fs w1 !! bck_path h (clock w) = None)).
  { destruct (evict_cases h w w1 Ev) as [[_ ->]|(_ & oldest & Hin & _ & ->)].
    - repeat split; trivial.
    - simpl. split; [reflexivity|]. split.
      + apply lookup_delete_ne. intros ->. exact (database_not_in_backups h w Hin).
      + intros Hn. destruct (decide (oldest = bck_path h (clock w))) as [->|Hd'].
        * apply lookup_delete_eq.
        * rewrite lookup_delete_ne by exact Hd'. exact Hn. }
  destruct Hw1 as (Hu & Hdb & Hbk).
  exists fb, fd. split; [exact Hb|]. split; [exact Hd|]. split; [exact Heq|]. split.
  - intros Hn. rewrite <- Hu. rewrite (Hnew (Hbk Hn)). split; [reflexivity|].
    apply created_mode_regular.
  - intros fd0 Hfd0. apply Hold. rewrite Hdb. exact Hfd0.
Qed.

Lemma bck_path_listed (h : Handler) (w : world Content) (bck_time : string)
    (fb : file Content) :
  fs w !! bck_path h bck_time = Some fb -> bck_path h bck_time ∈ backup_files h w.
Proof.
  intros Hb. apply backup_files_spec. split; [split|].
  - reflexivity.
  - apply bck_path_matches.
  - apply elem_of_dom. eauto.
Qed.


(** [backup_create], when it returns, has changed no file other than the
    database, the new backup and the backup it evicted: every other file,
    every retained backup among them, has its mode and content as
    before, and the file that is gone was the first by name among the
    backups, removed because the retention count was reached.  The name of
    the database holds no glob metacharacter. *)
Theorem backup_create_retains (h : Handler) (w w' : world Content) :
  PathLib.glob_literal (name (database h)) = true ->
  backup_create engine h w = (Ok tt, w') ->
  forall p, p <> database h -> p <> bck_path h (clock w) ->
    fs w' !! p = fs w !! p \/
    (fs w' !! p = None /\ p ∈ backup_files h w /\
     (forall q, q ∈ backup_files h w -> String.leb (name p) (name q) = true) /\
     __backups h <= Z.of_nat (size (backup_files h w))).
Proof.
  intros _ Hrun p Hpd Hpb.
  destruct (backup_create_steps h w w' Hrun) as (w1 & Ev & Hs).
  assert (Hfr : fs w' !! p = fs w1 !! p).
  { pose proof (frames_snapshot h (bck_path h (clock w)) w1 p) as H.
    rewrite Hs in H. apply H. set_solver. }
  destruct (evict_cases h w w1 Ev) as [[_ ->]|(Hge & oldest & Hin & Hmin & ->)].
  - left. exact Hfr.
  - simpl in Hfr. destruct (decide (p = oldest)) as [->|Hpo].
    + right. rewrite lookup_delete_eq in Hfr. repeat split; assumption.
    + left. rewrite lookup_delete_ne in Hfr by congruence. exact Hfr.
Qed.

(** [backup_create], when it returns: below the retention count the
    backups are those there were and the new one; at or above it they are
    those there were, less the first by name, and the new one.  So a
    directory holding exactly N backups, none carrying the new name, holds
    exactly N afterwards.  The name of the database holds no glob
    metacharacter. *)
Theorem backup_create_rotation (h : Handler) (w w' : world Content) :
  PathLib.glob_literal (name (database h)) = true ->
  backup_create engine h w = (Ok tt, w') ->
  let bck := bck_path h (clock w) in
  (Z.of_nat (size (backup_files h w)) < __backups h ->
   backup_files h w' = backup_files h w ∪ {[bck]}) /\
  (__backups h <= Z.of_nat (size (backup_files h w)) ->
   exists oldest,
     oldest ∈ backup_files h w /\
     (forall q, q ∈ backup_files h w -> String.leb (name oldest) (name q) = true) /\
     backup_files h w' = (backup_files h w ∖ {[oldest]}) ∪ {[bck]}) /\
  (bck ∉ backup_files h w ->
   Z.of_nat (size (backup_files h w)) = __backups h ->
   size (backup_files h w') = size (backup_files h w)).
Proof.
  intros _ Hrun. cbv zeta.
  destruct (backup_create_steps h w w' Hrun) as (w1 & Ev & Hs).
  destruct (backup_create_written h w w' Hrun) as (fb & fd & Hfb & _).
  pose proof (bck_path_listed h w' _ fb Hfb) as Hbck.
  assert (Hset : backup_files h w' = backup_files h w1 ∪ {[bck_path h (clock w)]}).
  { apply set_eq. intros p. rewrite elem_of_union, elem_of_singleton.
    destruct (decide (p = bck_path h (clock w))) as [->|Hpb]; [tauto|].
    destruct (decide (p = database h)) as [->|Hpd].
    - split; [intros H; destruct (database_not_in_backups h w' H)|].
      intros [H|H]; [destruct (database_not_in_backups h w1 H) | contradiction].
    - assert (Hfr : fs w' !! p = fs w1 !! p).
      { pose proof (frames_snapshot h (bck_path h (clock w)) w1 p) as H.
        rewrite Hs in H. apply H. set_solver. }
      rewrite !backup_files_spec, !elem_of_dom, Hfr. tauto. }
  assert (Hdel : forall oldest,
             backup_files h (mkWorld (delete oldest (fs w)) (umask w) (clock w) (trace w))
             = backup_files h w ∖ {[oldest]}).
  { intros oldest. apply set_eq. intros p.
    rewrite elem_of_difference, !backup_files_spec. simpl.
    rewrite dom_delete_L. set_solver. }
  split; [|split].
  - intros Hlt. destruct (evict_cases h w w1 Ev) as [[_ ->]|(Hge & _)]; [exact Hset | lia].
  - intros Hge. destruct (evict_cases h w w1 Ev) as [[Hlt _]|(_ & oldest & Hin & Hmin & ->)];
      [lia|].
    exists oldest. split; [exact Hin|]. split; [exact Hmin|].
    rewrite Hset, Hdel. reflexivity.
  - intros Hfresh Hsize.
    destruct (evict_cases h w w1 Ev) as [[Hlt _]|(_ & oldest & Hin & Hmin & ->)]; [lia|].
    rewrite Hset, Hdel.
    rewrite size_union by set_solver.
    rewrite size_difference by set_solver.
    rewrite !size_singleton.
    assert (size (backup_files h w) <> 0%nat).
    { intros Hz. apply size_empty_inv in Hz. set_solver. }
    lia.
Qed.

End Snapshots.

(** ** Checking, restoring and deleting a backup *)

Lemma contains_app (c : ascii) (a b : string) :
  Py.contains c (a +:+ b) = Py.contains c a || Py.contains c b.
Proof.
  induction a as [|d a IH]; [reflexivity|].
  change (Py.contains c (String d (a +:+ b))
          = Py.contains c (String d a) || Py.contains c b).
  simpl. rewrite IH. apply orb_assoc.
Qed.

Lemma glob_literal_app (a b : string) :
  PathLib.glob_literal (a +:+ b) = PathLib.glob_literal a && PathLib.glob_literal b.
Proof.
  unfold PathLib.glob_literal. rewrite !contains_app.
  destruct (Py.contains "*" a), (Py.contains "?" a), (Py.contains "[" a),
    (Py.contains "*" b), (Py.contains "?" b), (Py.contains "[" b); reflexivity.
Qed.

Lemma glob_literal_cons (c : ascii) (s : string) :
  PathLib.glob_literal (String c s) = true ->
  Ascii.eqb c "*" = false /\ Ascii.eqb c "?" = false /\ PathLib.glob_literal s = true.
Proof.
  unfold PathLib.glob_literal. cbn [Py.contains].
  rewrite (Ascii.eqb_sym "*" c), (Ascii.eqb_sym "?" c).
  rewrite !andb_true_iff, !negb_true_iff, !orb_false_iff.
  intros [[[Hs Hcs] [Hq Hcq]] [_ Hcb]].
  repeat split; assumption.
Qed.

Lemma append_empty_r (s : string) : s +:+ "" = s.
Proof.
  induction s as [|c s IH]; [reflexivity|].
  change (String c (s +:+ "") = String c s). rewrite IH. reflexivity.
Qed.

(** A pattern that starts with literal text matches the names that start
    with that text and go on with a match of the rest. *)
Lemma fnmatch_literal (lit pat nm : string) :
  PathLib.glob_literal lit = true ->
  PathLib.fnmatch (lit +:+ pat) nm = true <->
  exists rest, nm = lit +:+ rest /\ PathLib.fnmatch pat rest = true.
Proof.
  revert nm. induction lit as [|c lit IH]; intros nm Hlit.
  - change ("" +:+ pat) with pat. split.
    + intros H. exists nm. split; [reflexivity|exact H].
    + intros (rest & -> & H). exact H.
  - destruct (glob_literal_cons c lit Hlit) as (Hs & Hq & Hl).
    change (String c lit +:+ pat) with (String c (lit +:+ pat)).
    destruct nm as [|d nm]; simpl; rewrite Hs.
    + split; [discriminate|]. intros (rest & Hrest & _). discriminate Hrest.
    + rewrite Hq. simpl. rewrite andb_true_iff, Ascii.eqb_eq, (IH nm Hl). split.
      * intros (-> & rest & -> & H). exists rest. split; [reflexivity|exact H].
      * intros (rest & Hrest & H).
        change (String c lit +:+ rest) with (String c (lit +:+ rest)) in Hrest.
        injection Hrest as -> ->. split; [reflexivity|]. exists rest.
        split; [reflexivity|exact H].
Qed.

Lemma fnmatch_star_iff (pat nm : string) :
  PathLib.fnmatch (String "*" pat) nm = true <->
  exists a b, nm = a +:+ b /\ PathLib.fnmatch pat b = true.
Proof.
  induction nm as [|d nm IH]; rewrite fnmatch_star, orb_true_iff.
  - split.
    + intros [H|H]; [|discriminate H]. exists "", "". split; [reflexivity|exact H].
    + intros (a & b & Hab & H). left. destruct a; [|discriminate Hab].
      change ("" = b) in Hab. subst b. exact H.
  - rewrite IH. split.
    + intros [H|(a & b & -> & H)].
      * exists "", (String d nm). split; [reflexivity|exact H].
      * exists (String d a), b. split; [reflexivity|exact H].
    + intros (a & b & Hab & H). destruct a as [|c a].
      * change (String d nm = b) in Hab. subst b. left. exact H.
      * change (String d nm = String c (a +:+ b)) in Hab. injection Hab as -> ->.
        right. exists a, b. split; [reflexivity|exact H].
Qed.

(** What the backup pattern matches when the name of the database is
    literal text. *)
Lemma backup_pattern_spec (h : Handler) (nm : string) :
  PathLib.glob_literal (name (database h)) = true ->
  PathLib.fnmatch (backup_pattern h) nm = true <->
  exists mid, nm = PathLib.stem (database h) +:+ "_" +:+ mid +:+
                   PathLib.suffix (database h) +:+ ".bak".
Proof.
  intros Hname. rewrite <- (stem_suffix (database h)), glob_literal_app in Hname.
  apply andb_prop in Hname. destruct Hname as [Hstem Hsuf].
  assert (Htail : PathLib.glob_literal (PathLib.suffix (database h) +:+ ".bak") = true)
    by (rewrite glob_literal_app, Hsuf; reflexivity).
  unfold backup_pattern, __database.
  rewrite (fnmatch_literal _ _ nm Hstem).
  change ("_*" +:+ PathLib.suffix (database h) +:+ ".bak")
    with ("_" +:+ String "*" (PathLib.suffix (database h) +:+ ".bak")).
  split.
  - intros (rest & -> & H).
    apply (fnmatch_literal "_" _ rest eq_refl) in H. destruct H as (rest2 & -> & H).
    apply fnmatch_star_iff in H. destruct H as (mid & b & -> & H).
    rewrite <- (append_empty_r (PathLib.suffix (database h) +:+ ".bak")) in H.
    apply (fnmatch_literal _ "" b Htail) in H. destruct H as (rest3 & -> & H).
    destruct rest3; [|discriminate H]. rewrite append_empty_r.
    exists mid. reflexivity.
  - intros (mid & ->). eexists. split; [reflexivity|].
    apply (fnmatch_literal "_" _ _ eq_refl). eexists. split; [reflexivity|].
    apply fnmatch_star_iff. exists mid, (PathLib.suffix (database h) +:+ ".bak").
    split; [reflexivity|apply fnmatch_refl].
Qed.

Section Restore.

Context {Content : Type}.

Lemma backup_check_value (h : Handler) (bk : Path) (w : world Content) :
  backup_check h bk w
  = match fs w !! bk with
    | Some fb =>
        if S_ISREG (st_mode fb) then
          match fs w !! database h with
          | Some fd => if st_mode fb =? st_mode fd then (Ok bk, w)
                       else (Raise PermissionError, w)
          | None => (Raise FileNotFoundError, w)
          end
        else (Raise FileNotFoundError, w)
    | None => (Raise FileNotFoundError, w)
    end.
Proof.
  cbv beta iota zeta delta [backup_check bind is_file stat_mode get_fs ret raise __database].
  destruct (fs w !! bk) as [fb|] eqn:Eb; [|reflexivity].
  destruct (S_ISREG (st_mode fb)); cbv beta iota zeta delta [negb]; [|reflexivity].
  rewrite Eb. cbv beta iota.
  destruct (fs w !! database h) as [fd|]; [|reflexivity]. cbv beta iota.
  destruct (st_mode fb =? st_mode fd); reflexivity.
Qed.

(** [backup_check] never changes the world.  It accepts a path exactly when
    the path is a regular file and the database file exists with the same
    [st_mode]; it raises [FileNotFoundError] exactly when the path is not a
    regular file (missing, or a directory) or the database file is missing,
    and [PermissionError] exactly when both exist and the modes differ. *)
Theorem backup_check_outcomes (h : Handler) (bk : Path) (w : world Content) :
  snd (backup_check h bk w) = w /\
  (fst (backup_check h bk w) = Ok bk <->
   exists fb fd, fs w !! bk = Some fb /\ S_ISREG (st_mode fb) = true /\
                 fs w !! database h = Some fd /\ st_mode fb = st_mode fd) /\
  (fst (backup_check h bk w) = Raise FileNotFoundError <->
   (forall fb, fs w !! bk = Some fb -> S_ISREG (st_mode fb) = false) \/
   fs w !! database h = None) /\
  (fst (backup_check h bk w) = Raise PermissionError <->
   exists fb fd, fs w !! bk = Some fb /\ S_ISREG (st_mode fb) = true /\
                 fs w !! database h = Some fd /\ st_mode fb <> st_mode fd).
Proof.
  rewrite backup_check_value.
  destruct (fs w !! bk) as [fb|];
    [destruct (S_ISREG (st_mode fb)) eqn:Er;
     [destruct (fs w !! database h) as [fd|];
      [destruct (Z.eqb_spec (st_mode fb) (st_mode fd)) as [Em|Em]|]|]|];
    simpl; (split; [reflexivity|]); (split; [|split]); split; intros H;
    try discriminate H; try reflexivity.
  - exists fb, fd. repeat split; assumption.
  - destruct H as [H|H]; [specialize (H fb eq_refl); congruence | discriminate H].
  - destruct H as (fb' & fd' & [= <-] & _ & [= <-] & Hne). contradiction.
  - destruct H as (fb' & fd' & [= <-] & _ & [= <-] & He). contradiction.
  - destruct H as [H|H]; [specialize (H fb eq_refl); congruence | discriminate H].
  - exists fb, fd. repeat split; assumption.
  - destruct H as (fb' & fd' & _ & _ & [=] & _).
  - right. reflexivity.
  - destruct H as (fb' & fd' & _ & _ & [=] & _).
  - destruct H as (fb' & fd' & [= <-] & Hr & _). congruence.
  - left. intros fb' [= <-]. exact Er.
  - destruct H as (fb' & fd' & [= <-] & Hr & _). congruence.
  - destruct H as (fb' & fd' & [=] & _).
  - left. intros fb' [=].
  - destruct H as (fb' & fd' & [=] & _).
Qed.

Lemma backup_set_moves (h : Handler) (bk : Path) (w : world Content)
    (fb fd : file Content) :
  fs w !! bk = Some fb -> S_ISREG (st_mode fb) = true ->
  fs w !! database h = Some fd -> st_mode fb = st_mode fd ->
  exists w' : world Content,
    backup_set h bk w = (Ok tt, w') /\
    fs w' = <[database h := fb]> (delete bk (fs w)) /\
    trace w' = trace w.
Proof.
  intros Hb Hr Hd Hm.
  assert (Hdir : S_ISDIR (st_mode fb) = false) by (apply regular_not_directory, Hr).
  unfold backup_set, bind. rewrite backup_check_value, Hb, Hr, Hd, Hm, Z.eqb_refl.
  cbv beta iota zeta delta [replace bind get_fs set_fs ret raise __database].
  rewrite Hb, Hd. cbv beta iota. rewrite <- Hm, Hdir. simpl.
  eexists. split; [reflexivity|]. simpl. split; reflexivity.
Qed.

(** [backup_set] on an accepted path moves the backup over the database:
    the database path then holds the backup file, mode and content, the
    backup path no longer exists, no other file changes and the engine is
    not called. *)
Theorem backup_set_restores (h : Handler) (bk : Path) (w : world Content)
    (fb fd : file Content) :
  fs w !! bk = Some fb -> S_ISREG (st_mode fb) = true ->
  fs w !! database h = Some fd -> st_mode fb = st_mode fd ->
  exists w' : world Content,
    backup_set h bk w = (Ok tt, w') /\
    fs w' !! database h = Some fb /\
    (bk <> database h -> fs w' !! bk = None) /\
    (forall p, p <> database h -> p <> bk -> fs w' !! p = fs w !! p) /\
    trace w' = trace w.
Proof.
  intros Hb Hr Hd Hm.
  destruct (backup_set_moves h bk w fb fd Hb Hr Hd Hm) as (w' & Hrun & Hfs & Ht).
  exists w'. split; [exact Hrun|]. rewrite Hfs.
  split; [apply lookup_insert_eq|]. split; [|split].
  - intros Hne. rewrite lookup_insert_ne by congruence. apply lookup_delete_eq.
  - intros p Hpd Hpb. rewrite lookup_insert_ne by congruence.
    apply lookup_delete_ne. congruence.
  - exact Ht.
Qed.

(** [backup_pop] on an accepted path removes the file at that path and
    nothing else; the path is not required to be a backup, so the database
    path itself, which always passes the check, is removed as well. *)
Theorem backup_pop_removes (h : Handler) (bk : Path) (w : world Content)
    (fb fd : file Content) :
  fs w !! bk = Some fb -> S_ISREG (st_mode fb) = true ->
  fs w !! database h = Some fd -> st_mode fb = st_mode fd ->
  exists w' : world Content,
    backup_pop h bk w = (Ok tt, w') /\
    fs w' !! bk = None /\
    (forall p, p <> bk -> fs w' !! p = fs w !! p) /\
    trace w' = trace w.
Proof.
  intros Hb Hr Hd Hm.
  assert (Hdir : S_ISDIR (st_mode fb) = false) by (apply regular_not_directory, Hr).
  unfold backup_pop, bind. rewrite backup_check_value, Hb, Hr, Hd, Hm, Z.eqb_refl.
  cbv beta iota zeta delta [unlink bind get_fs set_fs ret raise].
  rewrite Hb. cbv beta iota. rewrite Hdir. simpl.
  eexists. split; [reflexivity|]. simpl. split; [apply lookup_delete_eq|]. split.
  - intros p Hp. apply lookup_delete_ne. congruence.
  - reflexivity.
Qed.

(** [backup_list], for a database whose file name holds no glob
    metacharacter, changes nothing and lists, each once, exactly the
    existing entries of the directory of the database whose name is the
    stem, an underscore, any text, the suffix and [.bak]; the database file
    is never one of them. *)
Theorem backup_list_lists (h : Handler) (w : world Content) :
  PathLib.glob_literal (name (database h)) = true ->
  exists l : list Path,
    backup_list h w = (Ok l, w) /\ NoDup l /\
    (forall p, p ∈ l <->
       is_Some (fs w !! p) /\ parent p = parent (database h) /\
       exists mid, name p = PathLib.stem (database h) +:+ "_" +:+ mid +:+
                            PathLib.suffix (database h) +:+ ".bak") /\
    (database h ∉ l).
Proof.
  intros Hname.
  exists (elements (backup_files h w)). split; [reflexivity|].
  split; [apply NoDup_elements|]. split.
  - intros p. rewrite elem_of_elements, backup_files_spec, elem_of_dom.
    rewrite (backup_pattern_spec h (name p) Hname). tauto.
  - rewrite elem_of_elements. apply database_not_in_backups.
Qed.

End Restore.

Section RoundTrip.

Context {Content : Type} (engine : Engine Content).

(** Round trip: a backup written by [backup_create] next to a database file
    of the engine's mode passes the check later on, whatever has happened to
    the content of the database meanwhile, and [backup_set] then gives the
    database the image it had when the backup was taken; the backup file is
    used up by the restore. *)
Theorem backup_restore_round_trip (h : Handler) (w w1 w2 : world Content)
    (fd0 fd2 : file Content) :
  let bck := bck_path h (clock w) in
  backup_create engine h w = (Ok tt, w1) ->
  fs w !! database h = Some fd0 -> st_mode fd0 = created_mode (umask w) ->
  fs w !! bck = None ->
  fs w2 !! bck = fs w1 !! bck ->
  fs w2 !! database h = Some fd2 -> st_mode fd2 = st_mode fd0 ->
  exists w3 : world Content,
    backup_set h bck w2 = (Ok tt, w3) /\
    data <$> (fs w3 !! database h) = Some (eng_commit engine (data fd0)) /\
    fs w3 !! bck = None.
Proof.
  cbv zeta. intros Hrun Hd0 Hm0 Hnew Hsame Hd2 Hm2.
  destruct (backup_create_written engine h w w1 Hrun)
    as (fb & fd & Hb & Hd & Heq & Hmode & Hold).
  destruct (Hmode Hnew) as [Hmb Hreg].
  pose proof (Hold fd0 Hd0) as Hfd. rewrite Hfd in Heq. simpl in Heq.
  rewrite <- Hsame in Hb.
  destruct (backup_set_moves h (bck_path h (clock w)) w2 fb fd2 Hb Hreg Hd2)
    as (w3 & Hset & Hfs & _).
  { rewrite Hmb, Hm2, Hm0. reflexivity. }
  exists w3. split; [exact Hset|]. rewrite Hfs. split.
  - rewrite lookup_insert_eq. simpl. rewrite Heq. reflexivity.
  - rewrite lookup_insert_ne by (apply not_eq_sym, bck_path_not_database).
    apply lookup_delete_eq.
Qed.

End RoundTrip.

(** ** Where the memo is transparent *)

Lemma exact_eq (u v : value) :
  Memo.exact_int_or_str u = true -> Memo.exact_int_or_str v = true ->
  Py.eq u v = true -> u = v.
Proof.
  destruct v as [|b|z|z|s]; try discriminate;
    destruct u as [|b'|z'|z'|s']; try discriminate; intros _ _; simpl;
    try discriminate.
  - intros H. apply Z.eqb_eq in H. congruence.
  - intros H. apply String.eqb_eq in H. congruence.
Qed.

Lemma cache_get_In (k : Memo.key) (c : Memo.cache) (r : string) :
  Memo.cache_get k c = Some r ->
  exists k', In (k', r) c /\ Memo.key_eq k' k = true.
Proof.
  induction c as [|[k' r'] c IH]; simpl; [discriminate|].
  destruct (Memo.key_eq k' k) eqn:E.
  - intros [= <-]. exists k'. split; [left; reflexivity | exact E].
  - intros H. destruct (IH H) as (k'' & Hin & Hk). exists k''. split; [right|]; assumption.
Qed.

Section OneOperand.

Context (body : value -> string).

Lemma made_by_call (c : Memo.cache) (v : value) :
  Statement.made_by body c -> Statement.made_by body (snd (Statement.one_operand body v c)).
Proof.
  intros Hc. unfold Statement.one_operand, Memo.cached.
  destruct (Memo.cache_get _ c); simpl; [exact Hc|].
  intros k r Hin. apply in_app_or in Hin. destruct Hin as [Hin|[[= <- <-]|[]]].
  - apply Hc, Hin.
  - exists v. split; reflexivity.
Qed.

Lemma made_by_calls (vals : list value) (c : Memo.cache) :
  Statement.made_by body c ->
  Statement.made_by body (Statement.calls_from (Statement.one_operand body) c vals).
Proof.
  revert c. induction vals as [|v vals IH]; intros c Hc; simpl; [exact Hc|].
  apply IH, made_by_call, Hc.
Qed.

Lemma one_operand_transparent (vals : list value) (v : value) :
  Memo.exact_int_or_str v = true ->
  fst (Statement.one_operand body v
         (Statement.calls_from (Statement.one_operand body) [] vals))
  = body v.
Proof.
  intros Hv. pose proof (made_by_calls vals [] (fun k r H => match H with end)) as Hc.
  unfold Statement.one_operand at 1, Memo.cached.
  destruct (Memo.cache_get _ _) as [r|] eqn:E; simpl; [|reflexivity].
  apply cache_get_In in E. destruct E as (k & Hin & Hk).
  destruct (Hc k r Hin) as (u & -> & ->).
  unfold Memo.make_key in Hk. rewrite Hv in Hk.
  destruct (Memo.exact_int_or_str u) eqn:Hu; simpl in Hk; [|discriminate Hk].
  rewrite (exact_eq u v Hu Hv Hk). reflexivity.
Qed.

Lemma calls_from_run (vals : list value) (c : Memo.cache) :
  Statement.calls_from (Statement.one_operand body) c vals
  = Memo.run_calls (map (fun v => (Memo.make_key [v] [], body v)) vals) c.
Proof.
  revert c. induction vals as [|v vals IH]; intros c; simpl; [reflexivity|]. apply IH.
Qed.

Lemma one_operand_repeat (vals : list value) (v : value) (c : Memo.cache) :
  fst (Statement.one_operand body v
         (Statement.calls_from (Statement.one_operand body)
                               (snd (Statement.one_operand body v c)) vals))
  = fst (Statement.one_operand body v c).
Proof.
  rewrite calls_from_run. unfold Statement.one_operand. apply cached_same_answer.
Qed.

End OneOperand.

(** The six one-operand builders always return their own text for an
    operand that is a string or an integer (not a boolean, not a float),
    whatever calls were made before: for such operands the memo never
    answers with the text of another call. *)
Theorem one_operand_builders_transparent (vals : list value) (v : value) :
  Memo.exact_int_or_str v = true ->
  fst (Statement.val_eq v (Statement.calls_from Statement.val_eq [] vals))
  = "== '" +:+ Py.str v +:+ "'" /\
  fst (Statement.val_neq v (Statement.calls_from Statement.val_neq [] vals))
  = "!= '" +:+ Py.str v +:+ "'" /\
  fst (Statement.val_lt v (Statement.calls_from Statement.val_lt [] vals))
  = "< '" +:+ Py.str v +:+ "'" /\
  fst (Statement.val_gt v (Statement.calls_from Statement.val_gt [] vals))
  = "> '" +:+ Py.str v +:+ "'" /\
  fst (Statement.val_lte v (Statement.calls_from Statement.val_lte [] vals))
  = "<= '" +:+ Py.str v +:+ "'" /\
  fst (Statement.val_gte v (Statement.calls_from Statement.val_gte [] vals))
  = ">= '" +:+ Py.str v +:+ "'".
Proof.
  intros Hv. repeat split.
  - exact (one_operand_transparent Statement.val_eq_body vals v Hv).
  - exact (one_operand_transparent Statement.val_neq_body vals v Hv).
  - exact (one_operand_transparent Statement.val_lt_body vals v Hv).
  - exact (one_operand_transparent Statement.val_gt_body vals v Hv).
  - exact (one_operand_transparent Statement.val_lte_body vals v Hv).
  - exact (one_operand_transparent Statement.val_gte_body vals v Hv).
Qed.

Lemma one_operand_builders_transparent_witness :
  Memo.exact_int_or_str (VInt 1) = true /\
  fst (Statement.val_eq (VInt 1)
         (Statement.calls_from Statement.val_eq [] [VBool true; VFloat 1; VStr "1"]))
  = "== '1'".
Proof.
  split; [reflexivity|].
  exact (proj1 (one_operand_builders_transparent [VBool true; VFloat 1; VStr "1"]
                  (VInt 1) eq_refl)).
Defined.

(** A one-operand builder called again with the operand of an earlier call
    returns what that call returned, whatever the table held before and
    whatever calls of the builder came between. *)
Theorem one_operand_builders_repeat (vals : list value) (v : value) (c : Memo.cache) :
  fst (Statement.val_eq v
         (Statement.calls_from Statement.val_eq (snd (Statement.val_eq v c)) vals))
  = fst (Statement.val_eq v c) /\
  fst (Statement.val_neq v
         (Statement.calls_from Statement.val_neq (snd (Statement.val_neq v c)) vals))
  = fst (Statement.val_neq v c) /\
  fst (Statement.val_lt v
         (Statement.calls_from Statement.val_lt (snd (Statement.val_lt v c)) vals))
  = fst (Statement.val_lt v c) /\
  fst (Statement.val_gt v
         (Statement.calls_from Statement.val_gt (snd (Statement.val_gt v c)) vals))
  = fst (Statement.val_gt v c) /\
  fst (Statement.val_lte v
         (Statement.calls_from Statement.val_lte (snd (Statement.val_lte v c)) vals))
  = fst (Statement.val_lte v c) /\
  fst (Statement.val_gte v
         (Statement.calls_from Statement.val_gte (snd (Statement.val_gte v c)) vals))
  = fst (Statement.val_gte v c).
Proof.
  repeat split.
  - exact (one_operand_repeat Statement.val_eq_body vals v c).
  - exact (one_operand_repeat Statement.val_neq_body vals v c).
  - exact (one_operand_repeat Statement.val_lt_body vals v c).
  - exact (one_operand_repeat Statement.val_gt_body vals v c).
  - exact (one_operand_repeat Statement.val_lte_body vals v c).
  - exact (one_operand_repeat Statement.val_gte_body vals v c).
Qed.

Lemma all2_eq_str (a args : list value) :
  forallb Statement.is_str args = true -> Memo.all2 Py.eq a args = true -> a = args.
Proof.
  revert a. induction args as [|v args IH]; intros [|u a]; simpl; try discriminate;
    [reflexivity|].
  intros [Hv Hs]%andb_prop [Hu Ha]%andb_prop.
  rewrite (IH a Hs Ha). f_equal.
  destruct v; try discriminate Hv. destruct u; try discriminate Hu.
  simpl in Hu. apply String.eqb_eq in Hu. congruence.
Qed.

Lemma make_key_form (a : list value) (kw : list (string * value)) :
  (exists v, a = [v] /\ kw = [] /\ Memo.exact_int_or_str v = true /\
             Memo.make_key a kw = Memo.KScalar v) \/
  Memo.make_key a kw = Memo.KArgs a kw.
Proof.
  unfold Memo.make_key. destruct kw as [|e kw]; [|right; reflexivity].
  destruct a as [|v [|v' a]]; try (right; reflexivity).
  destruct (Memo.exact_int_or_str v) eqn:E; [|right; reflexivity].
  left. exists v. repeat split. exact E.
Qed.

Lemma val_in_key_str (a args : list value) (n negate : option bool) :
  forallb Statement.is_str args = true ->
  Memo.key_eq (Statement.val_in_key a n) (Statement.val_in_key args negate) = true ->
  a = args /\ n = negate.
Proof.
  intros Hs. unfold Statement.val_in_key.
  destruct (make_key_form a (match n with Some b => [("negate", VBool b)] | None => [] end))
    as [(u & -> & Hn & Hu & ->)| ->];
  destruct (make_key_form args
              (match negate with Some b => [("negate", VBool b)] | None => [] end))
    as [(v & -> & Hm & Hv & ->)| ->]; try discriminate.
  - intros H. destruct n; [discriminate Hn|]. destruct negate; [discriminate Hm|].
    split; [|reflexivity]. f_equal. apply (exact_eq u v Hu Hv H).
  - intros H. apply andb_prop in H. destruct H as [H1 H2].
    split; [exact (all2_eq_str _ _ Hs H1)|].
    destruct n as [[]|], negate as [[]|]; try discriminate H2; reflexivity.
Qed.

Lemma made_by_val_in_calls (calls : list (list value * option bool)) (c : Memo.cache) :
  Statement.made_by_val_in c ->
  Statement.made_by_val_in (Statement.val_in_calls_from c calls).
Proof.
  revert c. induction calls as [|[a n] calls IH]; intros c Hc; simpl; [exact Hc|].
  apply IH. unfold Statement.val_in, Memo.cached.
  destruct (Memo.cache_get _ c); simpl; [exact Hc|].
  intros k r Hin. apply in_app_or in Hin. destruct Hin as [Hin|[[= <- <-]|[]]].
  - apply Hc, Hin.
  - exists a, n. split; reflexivity.
Qed.

(** [val_in] always returns its own text when all its operands are strings,
    whatever calls of [val_in] were made before. *)
Theorem val_in_transparent_on_str (calls : list (list value * option bool))
    (args : list value) (negate : option bool) :
  forallb Statement.is_str args = true ->
  fst (Statement.val_in args negate (Statement.val_in_calls_from [] calls))
  = Statement.not_ (default false negate) +:+ "IN " +:+
    Py.repr_tuple (map Py.repr args).
Proof.
  intros Hs.
  pose proof (made_by_val_in_calls calls [] (fun k r H => match H with end)) as Hc.
  unfold Statement.val_in at 1, Memo.cached.
  destruct (Memo.cache_get _ _) as [r|] eqn:E; simpl; [|reflexivity].
  apply cache_get_In in E. destruct E as (k & Hin & Hk).
  destruct (Hc k r Hin) as (a & n & -> & ->).
  destruct (val_in_key_str a args n negate Hs Hk) as [-> ->]. reflexivity.
Qed.

Lemma val_in_transparent_on_str_witness :
  forallb Statement.is_str [VStr "a"; VStr "b"] = true /\
  fst (Statement.val_in [VStr "a"; VStr "b"] None
         (Statement.val_in_calls_from [] [([VInt 1; VInt 2], None);
                                          ([VStr "a"; VStr "b"], Some true)]))
  = "IN ('a', 'b')".
Proof.
  split; [reflexivity|].
  exact (val_in_transparent_on_str [([VInt 1; VInt 2], None);
                                    ([VStr "a"; VStr "b"], Some true)]
           [VStr "a"; VStr "b"] None eq_refl).
Defined.

(** ** Column names *)

Lemma eq_sym_value (a b : value) : Py.eq a b = Py.eq b a.
Proof.
  destruct a, b; unfold Py.eq, Py.number; try reflexivity;
    try apply Z.eqb_sym; apply String.eqb_sym.
Qed.

Lemma eq_trans_value (a b c : value) :
  Py.eq a b = true -> Py.eq b c = true -> Py.eq a c = true.
Proof.
  destruct a, b, c; unfold Py.eq, Py.number;
    try discriminate; try reflexivity;
    rewrite ?Z.eqb_eq, ?String.eqb_eq; congruence.
Qed.

Lemma eq_left_false (a b c : value) :
  Py.eq a b = true -> Py.eq a c = false -> Py.eq b c = false.
Proof.
  intros Hab Hac. destruct (Py.eq b c) eqn:E; [|reflexivity].
  rewrite (eq_trans_value a b c Hab E) in Hac. discriminate.
Qed.

Lemma setitem_fresh {V} (d : Rows.vdict V) (k k0 : value) (v : V) :
  Rows.fresh_key k0 d -> Py.eq k k0 = false -> Rows.fresh_key k0 (Rows.setitem d k v).
Proof.
  unfold Rows.fresh_key. intros Hd Hk.
  induction d as [|[k' v'] d IH]; simpl.
  - constructor; [exact Hk|constructor].
  - inversion Hd as [|? ? H1 H2]; subst. destruct (Py.eq k' k).
    + constructor; [exact H1|exact H2].
    + constructor; [exact H1|exact (IH H2)].
Qed.

Lemma setitem_distinct {V} (d : Rows.vdict V) (k : value) (v : V) :
  Rows.distinct_keys d -> Rows.distinct_keys (Rows.setitem d k v).
Proof.
  induction 1 as [|k' v' d Hf Hd IH]; simpl.
  - constructor; [constructor|constructor].
  - destruct (Py.eq k' k) eqn:E.
    + constructor; assumption.
    + constructor; [|exact IH].
      apply setitem_fresh; [exact Hf|]. rewrite eq_sym_value. exact E.
Qed.

Lemma setitem_In {V} (d : Rows.vdict V) (k k0 : value) (v v0 : V) :
  Rows.distinct_keys d -> In (k0, v0) (Rows.setitem d k v) ->
  (In (k0, v0) d /\ Py.eq k0 k = false) \/ (Py.eq k0 k = true /\ v0 = v).
Proof.
  induction 1 as [|k' v' d Hf Hd IH]; simpl.
  - intros [[= <- <-]|[]]. right. split; [apply eq_refl_value|reflexivity].
  - destruct (Py.eq k' k) eqn:E; simpl.
    + intros [[= <- <-]|Hin]; [right; split; [exact E|reflexivity]|].
      left. split; [right; exact Hin|].
      unfold Rows.fresh_key in Hf. rewrite List.Forall_forall in Hf.
      specialize (Hf _ Hin). simpl in Hf.
      rewrite eq_sym_value. apply (eq_left_false k' k k0 E).
      rewrite eq_sym_value. exact Hf.
    + intros [[= <- <-]|Hin]; [left; split; [left; reflexivity|exact E]|].
      destruct (IH Hin) as [[H1 H2]|H]; [left; split; [right; exact H1|exact H2]|].
      right. exact H.
Qed.

(** What a dictionary filled run by run holds: an entry is the value of the
    last run whose key equals its key. *)
Lemma filled_In {V} (gs : list (value * V)) (d0 : Rows.vdict V) (k : value) (v : V) :
  Rows.distinct_keys d0 ->
  In (k, v) (fold_left (fun d run => Rows.setitem d (fst run) (snd run)) gs d0) ->
  (In (k, v) d0 /\ Forall (fun run => Py.eq k (fst run) = false) gs) \/
  (exists gs1 k' gs2, gs = gs1 ++ (k', v) :: gs2 /\ Py.eq k k' = true /\
                      Forall (fun run => Py.eq k (fst run) = false) gs2).
Proof.
  revert d0. induction gs as [|[k1 v1] gs IH]; intros d0 Hd; simpl.
  - intros Hin. left. split; [exact Hin|constructor].
  - intros Hin.
    destruct (IH _ (setitem_distinct d0 k1 v1 Hd) Hin) as [[H1 H2]|(gs1 & k' & gs2 & -> & Hk & Hg)].
    + destruct (setitem_In d0 k1 k v1 v Hd H1) as [[H3 H4]|[H3 ->]].
      * left. split; [exact H3|]. constructor; [exact H4|exact H2].
      * right. exists [], k1, gs. split; [reflexivity|]. split; [exact H3|exact H2].
    + right. exists ((k1, v1) :: gs1), k', gs2. split; [reflexivity|].
      split; [exact Hk|exact Hg].
Qed.

Lemma filled_distinct {V} (gs : list (value * V)) (d0 : Rows.vdict V) :
  Rows.distinct_keys d0 ->
  Rows.distinct_keys (fold_left (fun d run => Rows.setitem d (fst run) (snd run)) gs d0).
Proof.
  revert d0. induction gs as [|[k1 v1] gs IH]; intros d0 Hd; simpl; [exact Hd|].
  apply IH, setitem_distinct, Hd.
Qed.

Lemma setitem_covers {V} (d : Rows.vdict V) (k : value) (v : V) :
  exists k', In (k', v) (Rows.setitem d k v) /\ Py.eq k' k = true.
Proof.
  induction d as [|[k1 v1] d IH]; simpl.
  - exists k. split; [left; reflexivity|apply eq_refl_value].
  - destruct (Py.eq k1 k) eqn:E.
    + exists k1. split; [left; reflexivity|exact E].
    + destruct IH as (k' & H1 & H2). exists k'. split; [right; exact H1|exact H2].
Qed.

Lemma setitem_keeps {V} (d : Rows.vdict V) (k k0 : value) (v v0 : V) :
  In (k0, v0) d -> exists v', In (k0, v') (Rows.setitem d k v).
Proof.
  induction d as [|[k1 v1] d IH]; simpl; [intros []|].
  intros [[= -> ->]|Hin]; destruct (Py.eq _ k).
  - exists v. left. reflexivity.
  - exists v0. left. reflexivity.
  - exists v0. right. exact Hin.
  - destruct (IH Hin) as (v' & H). exists v'. right. exact H.
Qed.

Lemma filled_keeps {V} (gs : list (value * V)) (d0 : Rows.vdict V) (k0 : value) (v0 : V) :
  In (k0, v0) d0 ->
  exists v', In (k0, v') (fold_left (fun d run => Rows.setitem d (fst run) (snd run)) gs d0).
Proof.
  revert d0 v0. induction gs as [|[k1 v1] gs IH]; intros d0 v0 Hin; simpl.
  - exists v0. exact Hin.
  - destruct (setitem_keeps d0 k1 k0 v1 v0 Hin) as (v' & H). apply (IH _ v' H).
Qed.

(** Every run has its key among the keys of the dictionary. *)
Lemma filled_covers {V} (gs : list (value * V)) (d0 : Rows.vdict V) (run : value * V) :
  In run gs ->
  exists k v, In (k, v) (fold_left (fun d run => Rows.setitem d (fst run) (snd run)) gs d0)
              /\ Py.eq k (fst run) = true.
Proof.
  revert d0. induction gs as [|[k1 v1] gs IH]; intros d0; simpl; [intros []|].
  intros [<-|Hin]; [|apply IH, Hin].
  destruct (setitem_covers d0 k1 v1) as (k' & H1 & H2).
  destruct (filled_keeps gs _ k' v1 H1) as (v' & H). exists k', v'. split; [exact H|exact H2].
Qed.

Lemma groupby_from_head {A} (items : list (value * A)) (tgt : value) (group : list A) :
  exists g gs, Rows.groupby_from tgt group items = (tgt, g) :: gs.
Proof.
  revert group. induction items as [|[ck x] rest IH]; intros group; simpl.
  - exists group, []. reflexivity.
  - destruct (Py.eq tgt ck); [apply IH|]. exists group, (Rows.groupby_from ck [x] rest).
    reflexivity.
Qed.

(** Every item's key equals the key of some run. *)
Lemma groupby_from_covers {A} (items : list (value * A)) (tgt : value) (group : list A)
    (p : value * A) :
  In p items ->
  exists run, In run (Rows.groupby_from tgt group items) /\ Py.eq (fst run) (fst p) = true.
Proof.
  revert tgt group. induction items as [|[ck x] rest IH]; intros tgt group; simpl;
    [intros []|].
  intros [<-|Hin]; destruct (Py.eq tgt ck) eqn:E.
  - destruct (groupby_from_head rest tgt (group ++ [x])) as (g & gs & ->).
    exists (tgt, g). split; [left; reflexivity|exact E].
  - destruct (groupby_from_head rest ck [x]) as (g & gs & ->).
    exists (ck, g). split; [right; left; reflexivity|apply eq_refl_value].
  - apply IH, Hin.
  - destruct (IH ck [x] Hin) as (run & H1 & H2). exists run. split; [right; exact H1|exact H2].
Qed.

Lemma groupby_covers {A} (items : list (value * A)) (p : value * A) :
  In p items ->
  exists run, In run (Rows.groupby items) /\ Py.eq (fst run) (fst p) = true.
Proof.
  destruct items as [|[ck x] rest]; simpl; [intros []|].
  intros [<-|Hin]; [|apply groupby_from_covers, Hin].
  destruct (groupby_from_head rest ck [x]) as (g & gs & ->).
  exists (ck, g). split; [left; reflexivity|apply eq_refl_value].
Qed.

(** The runs, one after the other, are the items. *)
Lemma groupby_from_concat {A} (items : list (value * A)) (tgt : value) (group : list A) :
  concat (map snd (Rows.groupby_from tgt group items)) = group ++ map snd items.
Proof.
  revert tgt group. induction items as [|[ck x] rest IH]; intros tgt group; simpl.
  - rewrite !app_nil_r. reflexivity.
  - destruct (Py.eq tgt ck); simpl; rewrite IH.
    + rewrite <- app_assoc. reflexivity.
    + reflexivity.
Qed.

Lemma groupby_concat {A} (items : list (value * A)) :
  concat (map snd (Rows.groupby items)) = map snd items.
Proof.
  destruct items as [|[ck x] rest]; simpl; [reflexivity|].
  rewrite groupby_from_concat. reflexivity.
Qed.

(** Where a run lies among the items. *)
Lemma groupby_from_decomp {A} (items : list (value * A)) :
  forall (tgt : value) (group : list A) gs1 k g gs2,
  Rows.groupby_from tgt group items = gs1 ++ (k, g) :: gs2 ->
  exists pre run post,
    items = pre ++ run ++ post /\
    Forall (fun p => Py.eq k (fst p) = true) run /\
    Rows.groupby post = gs2 /\
    (forall p, head post = Some p -> Py.eq k (fst p) = false) /\
    match gs1 with
    | [] => pre = [] /\ k = tgt /\ g = group ++ map snd run
    | _ :: _ => g = map snd run /\ run <> [] /\
                (pre = [] -> Py.eq tgt k = false) /\
                (forall pre' p, pre = pre' ++ [p] -> Py.eq (fst p) k = false)
    end.
Proof.
  induction items as [|[ck x] rest IH]; intros tgt group gs1 k g gs2; simpl.
  - destruct gs1 as [|r [|r' gs1]]; simpl; intros H; try discriminate H.
    injection H as <- <- <-.
    exists [], [], []. repeat split; try constructor. intros p [=].
    rewrite app_nil_r. reflexivity.
  - destruct (Py.eq tgt ck) eqn:E.
    + intros H. destruct (IH _ _ _ _ _ _ H) as (pre & run & post & -> & Hrun & Hpost & Hhd & Hm).
      destruct gs1 as [|r gs1].
      * destruct Hm as (-> & -> & ->). exists [], ((ck, x) :: run), post.
        split; [reflexivity|]. split; [constructor; [exact E|exact Hrun]|].
        split; [exact Hpost|]. split; [exact Hhd|].
        split; [reflexivity|]. split; [reflexivity|].
        simpl. rewrite <- app_assoc. reflexivity.
      * destruct Hm as (-> & Hne & Hnil & Hlast). exists ((ck, x) :: pre), run, post.
        split; [reflexivity|]. split; [exact Hrun|].
        split; [exact Hpost|]. split; [exact Hhd|].
        split; [reflexivity|]. split; [exact Hne|]. split; [discriminate|].
        intros pre' p Hp. destruct pre' as [|p' pre'].
        -- simpl in Hp. injection Hp as <- Hp. simpl.
           apply (eq_left_false tgt ck k E). apply Hnil. exact Hp.
        -- simpl in Hp. injection Hp as _ Hp. apply (Hlast pre' p Hp).
    + destruct gs1 as [|r gs1]; simpl; intros H; injection H.
      * intros <- <- <-. exists [], [], ((ck, x) :: rest).
        split; [reflexivity|]. split; [constructor|].
        split; [reflexivity|]. split; [intros p [= <-]; exact E|].
        split; [reflexivity|]. split; [reflexivity|].
        rewrite app_nil_r. reflexivity.
      * intros H' _.
        destruct (IH _ _ _ _ _ _ H') as (pre & run & post & -> & Hrun & Hpost & Hhd & Hm).
        destruct gs1 as [|r' gs1].
        -- destruct Hm as (-> & -> & ->). exists [], ((ck, x) :: run), post.
           split; [reflexivity|].
           split; [constructor; [apply eq_refl_value|exact Hrun]|].
           split; [exact Hpost|]. split; [exact Hhd|].
           split; [reflexivity|]. split; [discriminate|].
           split; [intros _; exact E|]. intros [|p0 pre0] q0 Hq; discriminate Hq.
        -- destruct Hm as (-> & Hne & Hnil & Hlast). exists ((ck, x) :: pre), run, post.
           split; [reflexivity|]. split; [exact Hrun|].
           split; [exact Hpost|]. split; [exact Hhd|].
           split; [reflexivity|]. split; [exact Hne|]. split; [discriminate|].
           intros pre' p Hp. destruct pre' as [|p' pre'].
           ++ simpl in Hp. injection Hp as <- Hp. simpl. apply Hnil. exact Hp.
           ++ simpl in Hp. injection Hp as _ Hp. apply (Hlast pre' p Hp).
Qed.

Lemma groupby_decomp {A} (items : list (value * A)) gs1 k g gs2 :
  Rows.groupby items = gs1 ++ (k, g) :: gs2 ->
  exists pre run post,
    items = pre ++ run ++ post /\ g = map snd run /\ run <> [] /\
    Forall (fun p => Py.eq k (fst p) = true) run /\
    Rows.groupby post = gs2 /\
    (forall p, head post = Some p -> Py.eq k (fst p) = false) /\
    (forall pre' p, pre = pre' ++ [p] -> Py.eq (fst p) k = false).
Proof.
  destruct items as [|[ck x] rest]; simpl.
  - destruct gs1; discriminate.
  - intros H.
    destruct (groupby_from_decomp rest _ _ _ _ _ _ H) as (pre & run & post & -> & Hrun & Hpost & Hhd & Hm).
    destruct gs1 as [|r gs1].
    + destruct Hm as (-> & -> & ->). exists [], ((ck, x) :: run), post.
      split; [reflexivity|]. split; [reflexivity|]. split; [discriminate|].
      split; [constructor; [apply eq_refl_value|exact Hrun]|].
      split; [exact Hpost|]. split; [exact Hhd|]. intros [|p0 pre0] q0 Hq; discriminate Hq.
    + destruct Hm as (-> & Hne & Hnil & Hlast). exists ((ck, x) :: pre), run, post.
      split; [reflexivity|]. split; [reflexivity|]. split; [exact Hne|].
      split; [exact Hrun|]. split; [exact Hpost|]. split; [exact Hhd|].
      intros pre' p Hp. destruct pre' as [|p' pre'].
      * simpl in Hp. injection Hp as <- Hp. simpl. apply Hnil. exact Hp.
      * simpl in Hp. injection Hp as _ Hp. apply (Hlast pre' p Hp).
Qed.

Lemma groupby_from_Forall2 {A B} (R : A -> B -> Prop)
    (items : list (value * A)) (items' : list (value * B)) :
  Forall2 (fun p p' => fst p = fst p' /\ R (snd p) (snd p')) items items' ->
  forall (tgt : value) (group : list A) (group' : list B),
  Forall2 R group group' ->
  Forall2 (fun r r' => fst r = fst r' /\ Forall2 R (snd r) (snd r'))
          (Rows.groupby_from tgt group items) (Rows.groupby_from tgt group' items').
Proof.
  induction 1 as [|[ck x] [ck' x'] items items' [Hk Hx] Hrest IH]; intros tgt group group' Hg;
    simpl in *.
  - constructor; [split; [reflexivity|exact Hg]|constructor].
  - subst ck'. destruct (Py.eq tgt ck).
    + apply IH. apply Forall2_app; [exact Hg|]. constructor; [exact Hx|constructor].
    + constructor; [split; [reflexivity|exact Hg]|].
      apply IH. constructor; [exact Hx|constructor].
Qed.

Lemma groupby_Forall2 {A B} (R : A -> B -> Prop)
    (items : list (value * A)) (items' : list (value * B)) :
  Forall2 (fun p p' => fst p = fst p' /\ R (snd p) (snd p')) items items' ->
  Forall2 (fun r r' => fst r = fst r' /\ Forall2 R (snd r) (snd r'))
          (Rows.groupby items) (Rows.groupby items').
Proof.
  intros H. destruct H as [|[ck x] [ck' x'] items items' [Hk Hx] Hrest]; simpl in *.
  - constructor.
  - subst ck'. apply groupby_from_Forall2; [exact Hrest|].
    constructor; [exact Hx|constructor].
Qed.

Section Columns.

Context {Content : Type} (engine : Engine Content).

Lemma map_m_itemgetter (key : string) (rows : list Row) (w : world Content) :
  map_m (itemgetter key) rows w
  = (match mapM (fun row => Rows.getitem row key) rows with
     | Some l => Ok l
     | None => Raise IndexError
     end, w).
Proof.
  induction rows as [|row rows IH]; [reflexivity|].
  cbn [map_m mapM]. unfold bind at 1, itemgetter at 1.
  destruct (Rows.getitem row key) as [v|]; cbn; [|reflexivity].
  unfold bind at 1. rewrite IH.
  destruct (mapM _ rows); reflexivity.
Qed.

Lemma map_m_keyed (mask : string) (rows : list Row) (w : world Content) :
  map_m (fun row => bind (itemgetter mask row) (fun idx => ret (idx, row))) rows w
  = (match mapM (fun row => (fun k => (k, row)) <$> Rows.getitem row mask) rows with
     | Some l => Ok l
     | None => Raise IndexError
     end, w).
Proof.
  induction rows as [|row rows IH]; [reflexivity|].
  cbn [map_m mapM]. unfold bind at 1. unfold bind at 1, itemgetter at 1.
  destruct (Rows.getitem row mask) as [v|]; cbn; [|reflexivity].
  unfold bind at 1. rewrite IH.
  destruct (mapM _ rows); reflexivity.
Qed.

Lemma fold_m_runs (gs : list (value * list Row)) (d0 : Rows.vdict (list value))
    (w : world Content) :
  fold_m (fun d run => bind (_col_name (snd run))
                            (fun names => ret (Rows.setitem d (fst run) names))) gs d0 w
  = (match mapM (fun run => (fun ns => (fst run, ns)) <$>
                            mapM (fun row => Rows.getitem row "name") (snd run)) gs with
     | Some named => Ok (fold_left (fun d r => Rows.setitem d (fst r) (snd r)) named d0)
     | None => Raise IndexError
     end, w).
Proof.
  revert d0. induction gs as [|run gs IH]; intros d0; [reflexivity|].
  cbn [fold_m mapM]. unfold bind at 1. unfold bind at 1. unfold _col_name at 1.
  rewrite map_m_itemgetter.
  destruct (mapM _ (snd run)) as [ns|]; cbn; [|reflexivity].
  rewrite IH. destruct (mapM _ gs); reflexivity.
Qed.

(** The rows as pairs of grouping key and name, when every row has both,
    decide what the grouping returns. *)
Lemma runs_of_rows (mask : string) (q : Query) :
  match mapM (fun row => k ← Rows.getitem row mask;
                         n ← Rows.getitem row "name"; Some (k, n)) q with
  | Some items =>
      exists keyed,
        mapM (fun row => (fun k => (k, row)) <$> Rows.getitem row mask) q = Some keyed /\
        mapM (fun run => (fun ns => (fst run, ns)) <$>
                         mapM (fun row => Rows.getitem row "name") (snd run))
             (Rows.groupby keyed) = Some (Rows.groupby items)
  | None =>
      mapM (fun row => (fun k => (k, row)) <$> Rows.getitem row mask) q = None \/
      exists keyed,
        mapM (fun row => (fun k => (k, row)) <$> Rows.getitem row mask) q = Some keyed /\
        mapM (fun run => (fun ns => (fst run, ns)) <$>
                         mapM (fun row => Rows.getitem row "name") (snd run))
             (Rows.groupby keyed) = None
  end.
Proof.
  destruct (mapM _ q) as [items|] eqn:E.
  - apply mapM_Some_1 in E.
    assert (exists keyed,
              mapM (fun row => (fun k => (k, row)) <$> Rows.getitem row mask) q = Some keyed /\
              Forall2 (fun p p' => fst p = fst p' /\
                                   Rows.getitem (snd p) "name" = Some (snd p')) keyed items)
      as (keyed & Hk & Hrel).
    { induction E as [|row [k n] q items Hrow Hrest IH].
      - exists []. split; [reflexivity|constructor].
      - destruct IH as (keyed & Hk & Hrel).
        destruct (Rows.getitem row mask) as [k'|] eqn:E1; [|discriminate Hrow].
        destruct (Rows.getitem row "name") as [n'|] eqn:E2; [|discriminate Hrow].
        cbn in Hrow. injection Hrow as -> ->.
        exists ((k, row) :: keyed). split.
        + cbn [mapM]. rewrite E1, Hk. reflexivity.
        + constructor; [split; [reflexivity|exact E2]|exact Hrel]. }
    exists keyed. split; [exact Hk|].
    apply mapM_Some_2.
    eapply Forall2_impl;
      [apply (groupby_Forall2 (fun row n => Rows.getitem row "name" = Some n) _ _ Hrel)|].
    intros [k g] [k' g'] [Hfst Hsnd]. simpl in *. subst k'.
    apply mapM_Some_2 in Hsnd. rewrite Hsnd. reflexivity.
  - destruct (mapM (fun row => (fun k => (k, row)) <$> Rows.getitem row mask) q)
      as [keyed|] eqn:Ek; [|left; reflexivity].
    right. exists keyed. split; [reflexivity|].
    destruct (mapM _ (Rows.groupby keyed)) as [named|] eqn:En; [|reflexivity].
    exfalso. apply mapM_None_1 in E. apply mapM_Some_1 in Ek, En.
    assert (Hq : map snd keyed = q).
    { clear -Ek. induction Ek as [|row kr q keyed Hrow Hrest IH]; [reflexivity|].
      simpl. rewrite IH. destruct (Rows.getitem row mask); [|discriminate Hrow].
      injection Hrow as <-. reflexivity. }
    assert (Hnames : Forall (fun row => is_Some (Rows.getitem row "name"))
                            (concat (map snd (Rows.groupby keyed)))).
    { clear -En. induction En as [|run nr gs named Hrun Hrest IH]; [constructor|].
      simpl. apply Forall_app. split; [|exact IH].
      destruct (mapM _ (snd run)) as [ns|] eqn:E; [|discriminate Hrun].
      apply mapM_Some_1 in E. clear -E.
      induction E as [|row n l ns H _ IH]; constructor; [exists n; exact H|exact IH]. }
    rewrite groupby_concat, Hq in Hnames.
    assert (Hkeys : Forall (fun row => is_Some (Rows.getitem row mask)) q).
    { clear -Ek. induction Ek as [|row kr q keyed Hrow Hrest IH]; constructor; [|exact IH].
      destruct (Rows.getitem row mask) as [k|]; [exists k; reflexivity|discriminate Hrow]. }
    clear -E Hnames Hkeys.
    induction E as [row q Hrow|row q Hrest IH].
    + inversion Hnames as [|? ? [n Hn] _]; inversion Hkeys as [|? ? [k Hk] _]; subst.
      rewrite Hk, Hn in Hrow. discriminate Hrow.
    + inversion Hnames; inversion Hkeys; subst. apply IH; assumption.
Qed.

Lemma col_name_group_cases (h : Handler) (table mask : string) (w : world Content) :
  exists (r : result Query) (w1 : world Content),
    _col_info engine h table w = (r, w1) /\
    col_name_group engine h table mask w
    = (match r with
       | Raise e => Raise e
       | Ok q =>
           if is_empty q then Ok None
           else match mapM (fun row => k ← Rows.getitem row mask;
                                       n ← Rows.getitem row "name"; Some (k, n)) q with
                | Some items =>
                    Ok (Some (fold_left (fun d r => Rows.setitem d (fst r) (snd r))
                                        (Rows.groupby items) []))
                | None => Raise IndexError
                end
       end, w1).
Proof.
  destruct (_col_info engine h table w) as [r w1] eqn:E. exists r, w1.
  split; [reflexivity|]. unfold col_name_group, bind at 1. rewrite E.
  destruct r as [q|e]; [|reflexivity].
  destruct (is_empty q); [reflexivity|].
  unfold bind at 1. rewrite map_m_keyed.
  pose proof (runs_of_rows mask q) as H.
  destruct (mapM (fun row => k ← Rows.getitem row mask;
                             n ← Rows.getitem row "name"; Some (k, n)) q) as [items|].
  - destruct H as (keyed & -> & Hn). unfold bind at 1. rewrite fold_m_runs, Hn. reflexivity.
  - destruct H as [->|(keyed & -> & Hn)]; [reflexivity|].
    unfold bind at 1. rewrite fold_m_runs, Hn. reflexivity.
Qed.

End Columns.

Lemma keyed_name_inv (mask : string) (row : Row) (p : value * value) :
  (k ← Rows.getitem row mask; n ← Rows.getitem row "name"; Some (k, n)) = Some p ->
  Rows.getitem row mask = Some (fst p) /\ Rows.getitem row "name" = Some (snd p).
Proof.
  destruct (Rows.getitem row mask) as [k|]; [|discriminate].
  destruct (Rows.getitem row "name") as [n|]; [|discriminate].
  cbn. intros [= <-]. split; reflexivity.
Qed.

Lemma keyed_name_none (mask : string) (row : Row) :
  (k ← Rows.getitem row mask; n ← Rows.getitem row "name"; Some (k, n)) = None <->
  Rows.getitem row mask = None \/ Rows.getitem row "name" = None.
Proof.
  destruct (Rows.getitem row mask) as [k|]; destruct (Rows.getitem row "name") as [n|];
    cbn; split; try tauto; try discriminate; intros [H|H]; discriminate H.
Qed.

(** An entry of the dictionary filled from the runs of [groupby] holds the
    last run of items whose key equals its key. *)
Lemma last_run_of_items {A} (items : list (value * A)) (k : value) (names : list A) :
  In (k, names) (fold_left (fun d r => Rows.setitem d (fst r) (snd r))
                           (Rows.groupby items) []) ->
  exists pre run post,
    items = pre ++ run ++ post /\ run <> [] /\ names = map snd run /\
    Forall (fun p => Py.eq k (fst p) = true) run /\
    Forall (fun p => Py.eq k (fst p) = false) post /\
    (forall pre' p, pre = pre' ++ [p] -> Py.eq k (fst p) = false).
Proof.
  intros Hin.
  destruct (filled_In _ [] k names Rows.distinct_nil Hin)
    as [[[] _]|(gs1 & k' & gs2 & Hgs & Hk & Hg2)].
  destruct (groupby_decomp items _ _ _ _ Hgs)
    as (pre & run & post & -> & -> & Hne & Hrun & Hpost & _ & Hlast).
  exists pre, run, post.
  split; [reflexivity|]. split; [exact Hne|]. split; [reflexivity|].
  split; [|split].
  - eapply List.Forall_impl; [|exact Hrun]. intros p Hp.
    exact (eq_trans_value k k' (fst p) Hk Hp).
  - rewrite List.Forall_forall. intros p Hp.
    destruct (groupby_covers post p Hp) as (r & Hr & Hrp).
    rewrite Hpost in Hr. rewrite List.Forall_forall in Hg2. specialize (Hg2 r Hr).
    rewrite eq_sym_value. apply (eq_left_false (fst r) (fst p) k Hrp).
    rewrite eq_sym_value. exact Hg2.
  - intros pre' p Hp. apply (eq_left_false k' k (fst p)).
    + rewrite eq_sym_value. exact Hk.
    + rewrite eq_sym_value. exact (Hlast pre' p Hp).
Qed.

Section ColumnNames.

Context {Content : Type} (engine : Engine Content).

(** [col_name] answers [None] for a table without columns, and otherwise the
    value of the column [name] of every row of the table's description, in
    the order of the rows; it raises [IndexError] exactly when some row has
    no such column.  The world is as the query left it. *)
Theorem col_name_outcomes (h : Handler) (table : string) (w : world Content) :
  exists (r : result Query) (r' : result (option (list value))) (w1 : world Content),
    _col_info engine h table w = (r, w1) /\
    col_name engine h table w = (r', w1) /\
    match r with
    | Raise e => r' = Raise e
    | Ok [] => r' = Ok None
    | Ok q =>
        (forall names, r' = Ok (Some names) <->
                       Forall2 (fun row nm => Rows.getitem row "name" = Some nm) q names) /\
        (r' = Raise IndexError <-> Exists (fun row => Rows.getitem row "name" = None) q)
    end.
Proof.
  destruct (_col_info engine h table w) as [r w1] eqn:E.
  unfold col_name, bind at 1. rewrite E.
  destruct r as [[|row q]|e].
  - exists (Ok []), (Ok None), w1. repeat split.
  - cbn [is_empty]. unfold bind at 1, _col_name. rewrite map_m_itemgetter.
    destruct (mapM (fun row => Rows.getitem row "name") (row :: q)) as [l|] eqn:El.
    + exists (Ok (row :: q)), (Ok (Some l)), w1.
      split; [reflexivity|]. split; [reflexivity|]. split.
      * intros names. rewrite <- mapM_Some. rewrite El.
        split; [intros [= <-]; reflexivity|intros [= <-]; reflexivity].
      * split; [discriminate|]. intros H. apply mapM_None_2 in H.
        rewrite H in El. discriminate El.
    + exists (Ok (row :: q)), (Raise IndexError), w1.
      split; [reflexivity|]. split; [reflexivity|]. split.
      * intros names. rewrite <- mapM_Some. rewrite El. split; discriminate.
      * split; [intros _; apply mapM_None_1, El|reflexivity].
  - exists (Raise e), (Raise e), w1. repeat split.
Qed.

(** [col_name_group] answers [None] for a table without columns, raises
    [IndexError] exactly when some row of the description lacks the mask
    column or the column [name], and returns a dictionary exactly when every
    row has both.  The world is as the query left it. *)
Theorem col_name_group_outcomes (h : Handler) (table mask : string) (w : world Content) :
  exists (r : result Query) (r' : result (option (Rows.vdict (list value))))
         (w1 : world Content),
    _col_info engine h table w = (r, w1) /\
    col_name_group engine h table mask w = (r', w1) /\
    match r with
    | Raise e => r' = Raise e
    | Ok [] => r' = Ok None
    | Ok q =>
        (r' = Raise IndexError <->
         Exists (fun row => Rows.getitem row mask = None \/
                            Rows.getitem row "name" = None) q) /\
        ((exists d, r' = Ok (Some d)) <->
         Forall (fun row => is_Some (Rows.getitem row mask) /\
                            is_Some (Rows.getitem row "name")) q)
    end.
Proof.
  destruct (col_name_group_cases engine h table mask w) as (r & w1 & E & Hg).
  destruct r as [[|row q]|e].
  - exists (Ok []), (Ok None), w1. repeat split; assumption.
  - cbn [is_empty] in Hg.
    destruct (mapM _ (row :: q)) as [items|] eqn:Ei.
    + eexists _, _, w1. split; [exact E|]. split; [exact Hg|].
      apply mapM_Some_1 in Ei. split; split.
      * discriminate.
      * intros Hex. exfalso. clear -Ei Hex.
        induction Ei as [|x p l items Hx _ IH]; inversion Hex as [? ? Hl|? ? Hl]; subst.
        -- apply keyed_name_none in Hl. rewrite Hl in Hx. discriminate Hx.
        -- exact (IH Hl).
      * intros _. clear -Ei.
        induction Ei as [|x p l items Hx _ IH]; constructor; [|exact IH].
        apply keyed_name_inv in Hx. destruct Hx as [-> ->]. split; eexists; reflexivity.
      * intros _. eexists. reflexivity.
    + eexists _, _, w1. split; [exact E|]. split; [exact Hg|].
      apply mapM_None_1 in Ei. split; split.
      * intros _. eapply List.Exists_impl; [|exact Ei].
        intros x Hx. apply keyed_name_none, Hx.
      * reflexivity.
      * intros [d Hd]. discriminate Hd.
      * intros Hall. exfalso. clear -Ei Hall.
        induction Ei as [x l Hx|x l _ IH]; inversion Hall as [|? ? [[k Hk] [n Hn]] Hl]; subst.
        -- rewrite Hk, Hn in Hx. discriminate Hx.
        -- exact (IH Hl).
  - exists (Raise e), (Raise e), w1. repeat split; assumption.
Qed.

(** Each entry of the dictionary [col_name_group] returns holds the names of
    one run of consecutive rows whose mask value equals the key: the last
    such run.  No later row has an equal mask value, and the row before the
    run, if any, has a different one; the names of earlier runs of the same
    mask value are not in the dictionary. *)
Theorem col_name_group_last_run (h : Handler) (table mask : string)
    (w w1 : world Content) (q : Query) (d : Rows.vdict (list value)) :
  _col_info engine h table w = (Ok q, w1) ->
  col_name_group engine h table mask w = (Ok (Some d), w1) ->
  forall (k : value) (names : list value), In (k, names) d ->
    exists pre run post,
      q = pre ++ run ++ post /\ run <> [] /\
      Forall2 (fun row nm => Rows.getitem row "name" = Some nm) run names /\
      Forall (fun row => exists v, Rows.getitem row mask = Some v /\ Py.eq k v = true) run /\
      Forall (fun row => exists v, Rows.getitem row mask = Some v /\ Py.eq k v = false) post /\
      (forall pre' row, pre = pre' ++ [row] ->
         exists v, Rows.getitem row mask = Some v /\ Py.eq k v = false).
Proof.
  intros E Hd k names Hin.
  destruct (col_name_group_cases engine h table mask w) as (r & w1' & E' & Hg).
  rewrite E in E'. injection E' as <- <-. rewrite Hd in Hg.
  destruct (is_empty q); [discriminate Hg|].
  destruct (mapM _ q) as [items|] eqn:Ei; [|discriminate Hg].
  injection Hg as ->. apply mapM_Some_1 in Ei.
  destruct (last_run_of_items items k names Hin)
    as (pre & run & post & -> & Hne & -> & Hrun & Hpost & Hlast).
  apply Forall2_app_inv_r in Ei. destruct Ei as (qpre & q' & Hpre & Hq' & ->).
  apply Forall2_app_inv_r in Hq'. destruct Hq' as (qrun & qpost & Hqrun & Hqpost & ->).
  exists qpre, qrun, qpost.
  split; [reflexivity|]. split; [|split; [|split; [|split]]].
  - intros ->. inversion Hqrun. subst. apply Hne. reflexivity.
  - clear -Hqrun. induction Hqrun as [|row p l run H _ IH]; simpl; constructor; [|exact IH].
    apply keyed_name_inv in H. exact (proj2 H).
  - clear -Hqrun Hrun. induction Hqrun as [|row p l run H _ IH]; constructor.
    + apply keyed_name_inv in H. exists (fst p). split; [exact (proj1 H)|].
      inversion Hrun; assumption.
    + apply IH. inversion Hrun; assumption.
  - clear -Hqpost Hpost. induction Hqpost as [|row p l post H _ IH]; constructor.
    + apply keyed_name_inv in H. exists (fst p). split; [exact (proj1 H)|].
      inversion Hpost; assumption.
    + apply IH. inversion Hpost; assumption.
  - intros pre' row ->. apply Forall2_app_inv_l in Hpre.
    destruct Hpre as (pre1 & pre2 & _ & Hrow & ->).
    inversion Hrow as [|? p ? ? H Hnil]; subst. inversion Hnil; subst.
    apply keyed_name_inv in H. exists (fst p). split; [exact (proj1 H)|].
    exact (Hlast pre1 p eq_refl).
Qed.

(** No two keys of the dictionary [col_name_group] returns are equal, and
    the mask value of every row equals one of them. *)
Theorem col_name_group_keys (h : Handler) (table mask : string)
    (w w1 : world Content) (q : Query) (d : Rows.vdict (list value)) :
  _col_info engine h table w = (Ok q, w1) ->
  col_name_group engine h table mask w = (Ok (Some d), w1) ->
  Rows.distinct_keys d /\
  Forall (fun row => exists v k names,
            Rows.getitem row mask = Some v /\ In (k, names) d /\ Py.eq k v = true) q.
Proof.
  intros E Hd.
  destruct (col_name_group_cases engine h table mask w) as (r & w1' & E' & Hg).
  rewrite E in E'. injection E' as <- <-. rewrite Hd in Hg.
  destruct (is_empty q); [discriminate Hg|].
  destruct (mapM _ q) as [items|] eqn:Ei; [|discriminate Hg].
  injection Hg as ->. apply mapM_Some_1 in Ei.
  split; [apply filled_distinct; constructor|].
  assert (Hitems : forall p, In p items ->
            exists k names,
              In (k, names) (fold_left (fun d r => Rows.setitem d (fst r) (snd r))
                                       (Rows.groupby items) []) /\
              Py.eq k (fst p) = true).
  { intros p Hp. destruct (groupby_covers items p Hp) as (run & Hrun & Hk).
    destruct (filled_covers (Rows.groupby items) [] run Hrun) as (k & names & Hin & Hk').
    exists k, names. split; [exact Hin|]. exact (eq_trans_value _ _ _ Hk' Hk). }
  set (d := fold_left (fun d r => Rows.setitem d (fst r) (snd r)) (Rows.groupby items) [])
    in *.
  clearbody d. clear -Ei Hitems.
  induction Ei as [|row p l items H _ IH]; constructor.
  - apply keyed_name_inv in H. destruct (Hitems p (or_introl eq_refl)) as (k & names & Hin & Hk).
    exists (fst p), k, names. split; [exact (proj1 H)|]. split; [exact Hin|exact Hk].
  - apply IH. intros p' Hp'. apply Hitems. right. exact Hp'.
Qed.

End ColumnNames.

Lemma col_name_group_last_run_witness :
  _col_info Catalog.engine (Sample.handler 3) "t" Sample.fresh
  = (Ok Catalog.rows, snd (_col_info Catalog.engine (Sample.handler 3) "t" Sample.fresh)) /\
  col_name_group Catalog.engine (Sample.handler 3) "t" "type" Sample.fresh
  = (Ok (Some [(VStr "INTEGER", [VStr "rank"]); (VStr "TEXT", [VStr "title"; VStr "body"])]),
     snd (_col_info Catalog.engine (Sample.handler 3) "t" Sample.fresh)) /\
  exists pre run post,
    Catalog.rows = pre ++ run ++ post /\ run <> [] /\
    Forall2 (fun row nm => Rows.getitem row "name" = Some nm) run [VStr "rank"] /\
    Forall (fun row => exists v, Rows.getitem row "type" = Some v /\
                                 Py.eq (VStr "INTEGER") v = true) run /\
    Forall (fun row => exists v, Rows.getitem row "type" = Some v /\
                                 Py.eq (VStr "INTEGER") v = false) post /\
    (forall pre' row, pre = pre' ++ [row] ->
       exists v, Rows.getitem row "type" = Some v /\ Py.eq (VStr "INTEGER") v = false).
Proof.
  assert (H1 : _col_info Catalog.engine (Sample.handler 3) "t" Sample.fresh
               = (Ok Catalog.rows,
                  snd (_col_info Catalog.engine (Sample.handler 3) "t" Sample.fresh)))
    by (vm_compute; reflexivity).
  assert (H2 : col_name_group Catalog.engine (Sample.handler 3) "t" "type" Sample.fresh
               = (Ok (Some [(VStr "INTEGER", [VStr "rank"]);
                            (VStr "TEXT", [VStr "title"; VStr "body"])]),
                  snd (_col_info Catalog.engine (Sample.handler 3) "t" Sample.fresh)))
    by (vm_compute; reflexivity).
  split; [exact H1|]. split; [exact H2|].
  exact (col_name_group_last_run Catalog.engine (Sample.handler 3) "t" "type" Sample.fresh _
           Catalog.rows _ H1 H2 (VStr "INTEGER") [VStr "rank"] (or_introl eq_refl)).
Defined.

Lemma col_name_group_keys_witness :
  _col_info Catalog.engine (Sample.handler 3) "t" Sample.fresh
  = (Ok Catalog.rows, snd (_col_info Catalog.engine (Sample.handler 3) "t" Sample.fresh)) /\
  col_name_group Catalog.engine (Sample.handler 3) "t" "pk" Sample.fresh
  = (Ok (Some [(VInt 1, [VStr "id"]); (VInt 0, [VStr "title"; VStr "body"; VStr "rank"])]),
     snd (_col_info Catalog.engine (Sample.handler 3) "t" Sample.fresh)) /\
  Rows.distinct_keys [(VInt 1, [VStr "id"]);
                      (VInt 0, [VStr "title"; VStr "body"; VStr "rank"])].
Proof.
  assert (H1 : _col_info Catalog.engine (Sample.handler 3) "t" Sample.fresh
               = (Ok Catalog.rows,
                  snd (_col_info Catalog.engine (Sample.handler 3) "t" Sample.fresh)))
    by (vm_compute; reflexivity).
  assert (H2 : col_name_group Catalog.engine (Sample.handler 3) "t" "pk" Sample.fresh
               = (Ok (Some [(VInt 1, [VStr "id"]);
                            (VInt 0, [VStr "title"; VStr "body"; VStr "rank"])]),
                  snd (_col_info Catalog.engine (Sample.handler 3) "t" Sample.fresh)))
    by (vm_compute; reflexivity).
  split; [exact H1|]. split; [exact H2|].
  exact (proj1 (col_name_group_keys Catalog.engine (Sample.handler 3) "t" "pk" Sample.fresh _
                  Catalog.rows _ H1 H2)).
Defined.

(** ** The backup operations on the sample worlds *)


Lemma backup_create_retains_witness :
  PathLib.glob_literal (name (database (Sample.handler 3))) = true /\
  backup_create Sample.engine (Sample.handler 3) Sample.crowded
  = (Ok tt, snd (backup_create Sample.engine (Sample.handler 3) Sample.crowded)) /\
  fs (snd (backup_create Sample.engine (Sample.handler 3) Sample.crowded))
     !! Sample.bak "20240101_000000_000002"
  = fs Sample.crowded !! Sample.bak "20240101_000000_000002".
Proof.
  assert (H : backup_create Sample.engine (Sample.handler 3) Sample.crowded
              = (Ok tt, snd (backup_create Sample.engine (Sample.handler 3) Sample.crowded)))
    by (vm_compute; reflexivity).
  split; [reflexivity|]. split; [exact H|].
  destruct (backup_create_retains Sample.engine (Sample.handler 3) _ _ eq_refl H
              (Sample.bak "20240101_000000_000002")
              ltac:(discriminate) ltac:(discriminate))
    as [Hkept|(_ & _ & Hleast & _)].
  - exact Hkept.
  - exfalso.
    assert (Hin : Sample.bak "20240101_000000_000001"
                  ∈ backup_files (Sample.handler 3) Sample.crowded)
      by (apply backup_files_spec; split; [split; reflexivity|];
          apply elem_of_dom; eexists; vm_compute; reflexivity).
    specialize (Hleast _ Hin). vm_compute in Hleast. discriminate Hleast.
Defined.

Lemma backup_create_rotation_witness :
  PathLib.glob_literal (name (database (Sample.handler 3))) = true /\
  backup_create Sample.engine (Sample.handler 3) Sample.crowded
  = (Ok tt, snd (backup_create Sample.engine (Sample.handler 3) Sample.crowded)) /\
  size (backup_files (Sample.handler 3)
          (snd (backup_create Sample.engine (Sample.handler 3) Sample.crowded)))
  = size (backup_files (Sample.handler 3) Sample.crowded).
Proof.
  assert (H : backup_create Sample.engine (Sample.handler 3) Sample.crowded
              = (Ok tt, snd (backup_create Sample.engine (Sample.handler 3) Sample.crowded)))
    by (vm_compute; reflexivity).
  split; [reflexivity|]. split; [exact H|].
  pose proof (backup_create_rotation Sample.engine (Sample.handler 3) _ _ eq_refl H) as Hs. cbv zeta in Hs.
  destruct Hs as (_ & _ & Hsize).
  apply Hsize.
  - intros Hin. apply backup_files_spec in Hin. destruct Hin as [_ Hdom].
    apply elem_of_dom in Hdom. destruct Hdom as [x Hx]. vm_compute in Hx. discriminate Hx.
  - vm_compute. reflexivity.
Defined.

Lemma backup_set_restores_witness :
  exists w' : world (list string),
    backup_set (Sample.handler 3) (Sample.bak "20240101_000000_000001") Sample.crowded
    = (Ok tt, w') /\
    fs w' !! Sample.db = Some Sample.image /\
    fs w' !! Sample.bak "20240101_000000_000001" = None.
Proof.
  destruct (backup_set_restores (Sample.handler 3) (Sample.bak "20240101_000000_000001")
              Sample.crowded Sample.image Sample.image)
    as (w' & Hrun & Hdb & Hbk & _); try (vm_compute; reflexivity).
  exists w'. split; [exact Hrun|]. split; [exact Hdb|]. apply Hbk. discriminate.
Defined.

Lemma backup_pop_removes_witness :
  exists w' : world (list string),
    backup_pop (Sample.handler 3) (Sample.bak "20240101_000000_000001") Sample.crowded
    = (Ok tt, w') /\
    fs w' !! Sample.bak "20240101_000000_000001" = None /\
    fs w' !! Sample.db = Some Sample.image.
Proof.
  destruct (backup_pop_removes (Sample.handler 3) (Sample.bak "20240101_000000_000001")
              Sample.crowded Sample.image Sample.image)
    as (w' & Hrun & Hbk & Hrest & _); try (vm_compute; reflexivity).
  exists w'. split; [exact Hrun|]. split; [exact Hbk|].
  rewrite Hrest by discriminate. vm_compute. reflexivity.
Defined.

Lemma backup_restore_round_trip_witness :
  backup_create Sample.engine (Sample.handler 3) Sample.fresh
  = (Ok tt, snd (backup_create Sample.engine (Sample.handler 3) Sample.fresh)) /\
  exists w3 : world (list string),
    backup_set (Sample.handler 3) (bck_path (Sample.handler 3) (clock Sample.fresh))
               (snd (backup_create Sample.engine (Sample.handler 3) Sample.fresh))
    = (Ok tt, w3) /\
    data <$> (fs w3 !! Sample.db) = Some [] /\
    fs w3 !! bck_path (Sample.handler 3) (clock Sample.fresh) = None.
Proof.
  assert (H : backup_create Sample.engine (Sample.handler 3) Sample.fresh
              = (Ok tt, snd (backup_create Sample.engine (Sample.handler 3) Sample.fresh)))
    by (vm_compute; reflexivity).
  split; [exact H|].
  exact (backup_restore_round_trip Sample.engine (Sample.handler 3) Sample.fresh _ _
           Sample.image Sample.image H eq_refl eq_refl eq_refl eq_refl
           ltac:(vm_compute; reflexivity) eq_refl).
Defined.

(** ** The builders with a [negate] flag *)

Lemma calls_of_entries {A} (key : A -> Memo.key) (body : A -> string)
    (calls : list A) (c : Memo.cache) (k : Memo.key) (r : string) :
  In (k, r) (Statement.calls_of (fun a => Memo.cached (key a) (body a)) c calls) ->
  In (k, r) c \/ exists a, In a calls /\ k = key a /\ r = body a.
Proof.
  revert c. induction calls as [|a calls IH]; intros c; simpl; [left; assumption|].
  intros Hin. destruct (IH _ Hin) as [Hc|(a' & Ha' & Hk & Hr)].
  - unfold Memo.cached in Hc. destruct (Memo.cache_get (key a) c); simpl in Hc.
    + left. exact Hc.
    + apply in_app_or in Hc. destruct Hc as [Hc|[[= <- <-]|[]]]; [left; exact Hc|].
      right. exists a. split; [left; reflexivity|split; reflexivity].
  - right. exists a'. split; [right; exact Ha'|split; assumption].
Qed.

(** A memoised call returns its own text when every earlier call with an
    equal key computes the same text. *)
Lemma cached_calls_transparent {A} (key : A -> Memo.key) (body : A -> string)
    (calls : list A) (a : A) :
  (forall a', In a' calls -> Memo.key_eq (key a') (key a) = true -> body a' = body a) ->
  fst (Memo.cached (key a) (body a)
         (Statement.calls_of (fun x => Memo.cached (key x) (body x)) [] calls))
  = body a.
Proof.
  intros Hsame. unfold Memo.cached at 1.
  destruct (Memo.cache_get _ _) as [r|] eqn:E; simpl; [|reflexivity].
  apply cache_get_In in E. destruct E as (k & Hin & Hk).
  destruct (calls_of_entries key body calls [] k r Hin) as [[]|(a' & Ha' & -> & ->)].
  apply Hsame; assumption.
Qed.

Lemma eq_str_inv (u : value) (s : string) : Py.eq u (VStr s) = true -> u = VStr s.
Proof.
  destruct u; simpl; try discriminate. intros H. apply String.eqb_eq in H. congruence.
Qed.

Lemma eq_bool_inv (b b' : bool) : Py.eq (VBool b) (VBool b') = true -> b = b'.
Proof. destruct b, b'; simpl; congruence. Qed.

Ltac key_eq_solve :=
  repeat match goal with
         | H : _ /\ _ |- _ => destruct H
         end;
  repeat match goal with
         | b : bool |- _ => destruct b
         end;
  try discriminate;
  repeat match goal with
         | H : Py.eq (VBool _) (VBool _) = true |- _ => apply eq_bool_inv in H; subst
         | H : Py.eq _ (VStr _) = true |- _ => apply eq_str_inv in H; subst
         end;
  repeat split; reflexivity.

Lemma val_like_key_str (p : value) (f f' : Memo.flag) (s : string) :
  Memo.key_eq (Memo.make_key ([p] ++ Memo.flag_args f') (Memo.flag_kwds f'))
              (Memo.make_key ([VStr s] ++ Memo.flag_args f) (Memo.flag_kwds f)) = true ->
  p = VStr s /\ f' = f.
Proof.
  destruct f as [|b|b], f' as [|b'|b']; cbn;
    try (destruct (Memo.exact_int_or_str p)); cbn; try discriminate;
    rewrite ?andb_true_r, ?andb_true_iff; intros H; key_eq_solve.
Qed.

Lemma val_btw_key_str (lo up : value) (f f' : Memo.flag) (s t : string) :
  Memo.key_eq (Memo.make_key ([lo; up] ++ Memo.flag_args f') (Memo.flag_kwds f'))
              (Memo.make_key ([VStr s; VStr t] ++ Memo.flag_args f) (Memo.flag_kwds f))
  = true ->
  lo = VStr s /\ up = VStr t /\ f' = f.
Proof.
  destruct f as [|b|b], f' as [|b'|b']; cbn; try discriminate;
    rewrite ?andb_true_r, ?andb_true_iff; intros H; key_eq_solve.
Qed.

Lemma val_null_key (f f' : Memo.flag) :
  Memo.key_eq (Memo.make_key (Memo.flag_args f') (Memo.flag_kwds f'))
              (Memo.make_key (Memo.flag_args f) (Memo.flag_kwds f)) = true ->
  f' = f.
Proof.
  destruct f as [|b|b], f' as [|b'|b']; cbn; try discriminate;
    rewrite ?andb_true_r, ?andb_true_iff; intros H; key_eq_solve.
Qed.

(** [val_like] and [val_btw] called with strings, and [val_null], always
    return their own text, whatever calls of the same builder were made
    before and however the flag is passed. *)
Theorem flag_builders_transparent_on_str :
  (forall (calls : list (value * Memo.flag)) (s : string) (f : Memo.flag),
     fst (Statement.val_like (VStr s) f
            (Statement.calls_of (fun call => Statement.val_like (fst call) (snd call))
                                [] calls))
     = Statement.not_ (Memo.flag_value f) +:+ "LIKE '" +:+ s +:+ "'") /\
  (forall (calls : list (value * value * Memo.flag)) (s t : string) (f : Memo.flag),
     fst (Statement.val_btw (VStr s) (VStr t) f
            (Statement.calls_of
               (fun call => Statement.val_btw (fst (fst call)) (snd (fst call)) (snd call))
               [] calls))
     = Statement.not_ (Memo.flag_value f) +:+ "BETWEEN '" +:+ s +:+ "' AND '" +:+ t +:+ "'") /\
  (forall (calls : list Memo.flag) (f : Memo.flag),
     fst (Statement.val_null f (Statement.calls_of Statement.val_null [] calls))
     = "IS " +:+ Statement.not_ (Memo.flag_value f) +:+ "NULL").
Proof.
  split; [|split].
  - intros calls s f.
    apply (cached_calls_transparent
             (fun call : value * Memo.flag =>
                Memo.make_key ([fst call] ++ Memo.flag_args (snd call))
                              (Memo.flag_kwds (snd call)))
             (fun call => Statement.val_like_body (fst call) (Memo.flag_value (snd call)))
             calls (VStr s, f)).
    intros [p f'] _ Hk. simpl in *.
    destruct (val_like_key_str p f f' s Hk) as [-> ->]. reflexivity.
  - intros calls s t f.
    transitivity (Statement.val_btw_body (VStr s) (VStr t) (Memo.flag_value f));
      [|unfold Statement.val_btw_body, Statement.quoted, Py.str;
        rewrite !append_assoc; reflexivity].
    apply (cached_calls_transparent
             (fun call : value * value * Memo.flag =>
                Memo.make_key ([fst (fst call); snd (fst call)] ++ Memo.flag_args (snd call))
                              (Memo.flag_kwds (snd call)))
             (fun call => Statement.val_btw_body (fst (fst call)) (snd (fst call))
                                                 (Memo.flag_value (snd call)))
             calls (VStr s, VStr t, f)).
    intros [[lo up] f'] _ Hk. simpl in *.
    destruct (val_btw_key_str lo up f f' s t Hk) as (-> & -> & ->). reflexivity.
  - intros calls f.
    apply (cached_calls_transparent
             (fun f : Memo.flag => Memo.make_key (Memo.flag_args f) (Memo.flag_kwds f))
             (fun f => Statement.val_null_body (Memo.flag_value f)) calls f).
    intros f' _ Hk. rewrite (val_null_key f f' Hk). reflexivity.
Qed.

Lemma backup_list_lists_witness :
  PathLib.glob_literal (name (database (Sample.handler 3))) = true /\
  exists l : list Path,
    backup_list (Sample.handler 3) Sample.crowded = (Ok l, Sample.crowded) /\
    Sample.bak "20240101_000000_000002" ∈ l /\ Sample.db ∉ l.
Proof.
  split; [reflexivity|].
  destruct (backup_list_lists (Sample.handler 3) Sample.crowded eq_refl)
    as (l & Hrun & _ & Hin & Hdb).
  exists l. split; [exact Hrun|]. split; [|exact Hdb].
  apply Hin. split; [eexists; vm_compute; reflexivity|]. split; [reflexivity|].
  exists "20240101_000000_000002". reflexivity.
Defined.
